(** * Tailscale exit-node auto-deployment: a shallow embedding of
      [digital_ocean/auto-deploy.py] and the properties of its reconciler.

    Python values are modelled as the code has them: [int] as [Z], [str] as
    [string], [Optional] as [option], dataclasses as records, the status
    dictionaries by the shapes the code builds them in.  Calls that leave the
    process (the provider API, HTTP probes, the clock, the file system) go
    through the operations of a class [Env] over an abstract world, threaded
    explicitly; every such call is also recorded in a trace of events.
    Exceptions are values: a computation returns [Ok] or [Raise], and the
    state it leaves is kept either way.  Log lines are left out.

    The file is embedded as Python reads it.  Twice a line that was to open
    a decorator stands on the line of the [return] before it:
    [return {'is_ready': False}    @tenacity.retry(] at the end of
    [_get_status_via_http] and [return created_droplet    @tenacity.retry(]
    at the end of [_create_droplet].  Each is a [return] of the operator [@]
    applied to the value and to the decorator that [tenacity.retry(...)]
    builds, and the functions that follow, [_create_droplet] and
    [_wait_for_http_ready], have no decorator: they are not retried. *)

From Stdlib Require Import ZArith List String Ascii Bool Lia.
Import ListNotations.
Local Open Scope string_scope.
Local Open Scope Z_scope.
#[local] Set Warnings "-register-all".

(** ** Exceptions and results *)

(** The exception classes the program defines or meets. *)
Inductive exn : Type :=
| ConfigurationError
| DropletCreationError
| NodeHealthCheckError
| RequestException
| FileNotFoundError
| JSONDecodeError
| ValueError
| KeyError
| IndexError
| TypeError
| OtherException.

Inductive result (A : Type) : Type :=
| Ok (a : A)
| Raise (e : exn).
Arguments Ok {A} a.
Arguments Raise {A} e.

Definition exn_eqb (a b : exn) : bool :=
  match a, b with
  | ConfigurationError, ConfigurationError => true
  | DropletCreationError, DropletCreationError => true
  | NodeHealthCheckError, NodeHealthCheckError => true
  | RequestException, RequestException => true
  | FileNotFoundError, FileNotFoundError => true
  | JSONDecodeError, JSONDecodeError => true
  | ValueError, ValueError => true
  | KeyError, KeyError => true
  | IndexError, IndexError => true
  | TypeError, TypeError => true
  | OtherException, OtherException => true
  | _, _ => false
  end.

(** [isinstance(e, requests.RequestException)]. *)
Definition is_RequestException (e : exn) : bool := exn_eqb e RequestException.

(** [isinstance(e, NodeHealthCheckError)]. *)
Definition is_NodeHealthCheckError (e : exn) : bool := exn_eqb e NodeHealthCheckError.

(** [isinstance(e, ConfigurationError)]. *)
Definition is_ConfigurationError (e : exn) : bool := exn_eqb e ConfigurationError.

(** ** Text helpers *)

(** [needle in haystack] on [str]. *)
Fixpoint contains (needle hay : string) : bool :=
  if String.prefix needle hay then true
  else match hay with
       | EmptyString => false
       | String _ rest => contains needle rest
       end.

(** The decimal digit [d] (0..9) as a character. *)
Definition digit (d : Z) : ascii := ascii_of_nat (48 + Z.to_nat d).

(** The value of a decimal digit character. *)
Definition digit_val (c : ascii) : option Z :=
  let k := Z.of_nat (nat_of_ascii c) in
  if (48 <=? k) && (k <=? 57) then Some (k - 48) else None.

(** ["%02d" % n] for [0 <= n <= 99]. *)
Definition fmt2 (n : Z) (k : string) : string :=
  String (digit (n / 10)) (String (digit (n mod 10)) k).

(** ["%04d" % n] for [0 <= n <= 9999]. *)
Definition fmt4 (n : Z) (k : string) : string :=
  String (digit (n / 1000)) (String (digit (n / 100 mod 10)) (fmt2 (n mod 100) k)).

(** ["%06d" % n] for [0 <= n <= 999999]. *)
Definition fmt6 (n : Z) (k : string) : string :=
  fmt2 (n / 10000) (fmt4 (n mod 10000) k).

(** [str(n)] for an [int]. *)
Fixpoint decimal_digits (fuel : nat) (n : Z) (acc : string) : string :=
  match fuel with
  | O => acc
  | S fuel' =>
      let acc' := String (digit (n mod 10)) acc in
      if n / 10 =? 0 then acc' else decimal_digits fuel' (n / 10) acc'
  end.

Definition py_str_int (n : Z) : string :=
  let m := Z.abs n in
  let s := decimal_digits (S (Z.to_nat (Z.log2 m))) m "" in
  if n <? 0 then String "-" s else s.

(** [s.find(c)] together with the two slices around the hit:
    [Some (s[:i], s[i+1:])] for the first index [i] with [s[i] == c]. *)
Fixpoint split_at (c : ascii) (s : string) : option (string * string) :=
  match s with
  | EmptyString => None
  | String a r =>
      if Ascii.eqb a c then Some (EmptyString, r)
      else match split_at c r with
           | Some (x, y) => Some (String a x, y)
           | None => None
           end
  end.

(** Two decimal digits at the head of [s], and what follows them. *)
Definition parse2 (s : string) : option (Z * string) :=
  match s with
  | String a (String b r) =>
      match digit_val a, digit_val b with
      | Some x, Some y => Some (10 * x + y, r)
      | _, _ => None
      end
  | _ => None
  end.

(** A string made of decimal digits only, as a number. *)
Fixpoint parse_digits (s : string) (acc : Z) : option Z :=
  match s with
  | EmptyString => Some acc
  | String a r =>
      match digit_val a with
      | Some x => parse_digits r (10 * acc + x)
      | None => None
      end
  end.

(** ** [datetime] *)

Module Datetime.

(** A [datetime.datetime]: the civil fields and the UTC offset of its
    [tzinfo] in microseconds ([None] for a naive value).  The program builds
    its timestamps with [datetime.now(timezone.utc)] and
    [datetime.fromisoformat], which only yield fixed offsets. *)
Record t : Type := mk {
  year : Z; month : Z; day : Z;
  hour : Z; minute : Z; second : Z; microsecond : Z;
  tzinfo : option Z
}.

Definition is_leap (y : Z) : bool :=
  (y mod 4 =? 0) && (negb (y mod 100 =? 0) || (y mod 400 =? 0)).

Definition days_in_month (y m : Z) : Z :=
  if m =? 2 then (if is_leap y then 29 else 28)
  else if (m =? 4) || (m =? 6) || (m =? 9) || (m =? 11) then 30 else 31.

Definition days_before_year (y : Z) : Z :=
  let y1 := y - 1 in y1 * 365 + y1 / 4 - y1 / 100 + y1 / 400.

Fixpoint days_before_month_aux (y : Z) (m : nat) : Z :=
  match m with
  | O => 0
  | S m' => days_before_month_aux y m' + days_in_month y (Z.of_nat m)
  end.

Definition days_before_month (y m : Z) : Z :=
  days_before_month_aux y (Z.to_nat (m - 1)).

Definition ymd2ord (y m d : Z) : Z :=
  days_before_year y + days_before_month y m + d.

Definition us_per_second : Z := 1000000.
Definition us_per_minute : Z := 60 * us_per_second.
Definition us_per_hour : Z := 60 * us_per_minute.
Definition us_per_day : Z := 24 * us_per_hour.

(** The range checks of the [datetime] and [timezone] constructors. *)
Definition valid_tz (o : option Z) : bool :=
  match o with
  | None => true
  | Some off => (- us_per_day <? off) && (off <? us_per_day)
  end.

Definition valid (d : t) : bool :=
  (1 <=? year d) && (year d <=? 9999) &&
  (1 <=? month d) && (month d <=? 12) &&
  (1 <=? day d) && (day d <=? days_in_month (year d) (month d)) &&
  (0 <=? hour d) && (hour d <=? 23) &&
  (0 <=? minute d) && (minute d <=? 59) &&
  (0 <=? second d) && (second d <=? 59) &&
  (0 <=? microsecond d) && (microsecond d <=? 999999) &&
  valid_tz (tzinfo d).

(** Microseconds since the start of the proleptic calendar, on the civil
    fields. *)
Definition civil_us (d : t) : Z :=
  ymd2ord (year d) (month d) (day d) * us_per_day
  + hour d * us_per_hour + minute d * us_per_minute
  + second d * us_per_second + microsecond d.

Definition fields_eqb (a b : t) : bool :=
  (year a =? year b) && (month a =? month b) && (day a =? day b) &&
  (hour a =? hour b) && (minute a =? minute b) && (second a =? second b) &&
  (microsecond a =? microsecond b).

(** [a == b] on datetimes: with equal offsets (or both naive) the civil
    fields are compared; a naive and an aware value are unequal; two aware
    values with different offsets are compared as instants. *)
Definition eqb (a b : t) : bool :=
  match tzinfo a, tzinfo b with
  | None, None => fields_eqb a b
  | Some oa, Some ob =>
      if oa =? ob then fields_eqb a b
      else civil_us a - oa =? civil_us b - ob
  | _, _ => false
  end.

(** [_format_offset]: [+HH:MM], then [:SS] and [.ffffff] when not zero. *)
Definition format_offset (o : option Z) : string :=
  match o with
  | None => EmptyString
  | Some off =>
      let sign := if off <? 0 then "-"%char else "+"%char in
      let a := Z.abs off in
      let hh := a / us_per_hour in
      let r := a mod us_per_hour in
      let mm := r / us_per_minute in
      let ss := r mod us_per_minute in
      String sign (fmt2 hh (String ":" (fmt2 mm
        (if ss =? 0 then EmptyString
         else String ":" (fmt2 (ss / us_per_second)
                (if ss mod us_per_second =? 0 then EmptyString
                 else String "." (fmt6 (ss mod us_per_second) EmptyString)))))))
  end.

(** [d.isoformat()]: [YYYY-MM-DDTHH:MM:SS], [.ffffff] when the microsecond
    is not zero, then the offset. *)
Definition isoformat (d : t) : string :=
  fmt4 (year d) (String "-" (fmt2 (month d) (String "-" (fmt2 (day d)
    (String "T" (fmt2 (hour d) (String ":" (fmt2 (minute d) (String ":"
      (fmt2 (second d)
        (if microsecond d =? 0 then format_offset (tzinfo d)
         else String "." (fmt6 (microsecond d) (format_offset (tzinfo d)))))))))))))).

(** The fraction after the point: three or six digits. *)
Definition parse_fraction (s : string) : option Z :=
  if (String.length s =? 6)%nat then parse_digits s 0
  else if (String.length s =? 3)%nat then
    match parse_digits s 0 with Some n => Some (n * 1000) | None => None end
  else None.

(** [_parse_hh_mm_ss_ff]: [HH[:MM[:SS[.fff[fff]]]]]. *)
Definition parse_hh_mm_ss_ff (s : string) : option (Z * Z * Z * Z) :=
  match parse2 s with
  | None => None
  | Some (hh, EmptyString) => Some (hh, 0, 0, 0)
  | Some (hh, String c1 r1) =>
      if negb (Ascii.eqb c1 ":") then None else
      match parse2 r1 with
      | None => None
      | Some (mm, EmptyString) => Some (hh, mm, 0, 0)
      | Some (mm, String c2 r2) =>
          if negb (Ascii.eqb c2 ":") then None else
          match parse2 r2 with
          | None => None
          | Some (ss, EmptyString) => Some (hh, mm, ss, 0)
          | Some (ss, String c3 r3) =>
              if negb (Ascii.eqb c3 ".") then None else
              match parse_fraction r3 with
              | Some ff => Some (hh, mm, ss, ff)
              | None => None
              end
          end
      end
  end.

(** The offset after the sign: [HH:MM], [HH:MM:SS] or [HH:MM:SS.ffffff]. *)
Definition parse_tz (negative : bool) (s : string) : option Z :=
  let n := String.length s in
  if negb ((n =? 5) || (n =? 8) || (n =? 15))%nat then None else
  match parse_hh_mm_ss_ff s with
  | None => None
  | Some (hh, mm, ss, ff) =>
      let td := hh * us_per_hour + mm * us_per_minute + ss * us_per_second + ff in
      Some (if negative then - td else td)
  end.

(** [_parse_isoformat_time]: the sign of the offset is the first ['-'] of the
    text, or else its first ['+']. *)
Definition parse_isoformat_time (s : string) : option (Z * Z * Z * Z * option Z) :=
  if (String.length s <? 2)%nat then None else
  let cut := match split_at "-" s with
             | Some (a, b) => Some (true, a, b)
             | None => match split_at "+" s with
                       | Some (a, b) => Some (false, a, b)
                       | None => None
                       end
             end in
  match cut with
  | None =>
      match parse_hh_mm_ss_ff s with
      | Some c => Some (c, None)
      | None => None
      end
  | Some (negative, timestr, tzstr) =>
      match parse_hh_mm_ss_ff timestr, parse_tz negative tzstr with
      | Some c, Some off => Some (c, Some off)
      | _, _ => None
      end
  end.

(** [_parse_isoformat_date] on the first ten characters, and the rest. *)
Definition parse_isoformat_date (s : string) : option (Z * Z * Z * string) :=
  match s with
  | String y1 (String y2 (String y3 (String y4 (String d1 r)))) =>
      match parse_digits (String y1 (String y2 (String y3 (String y4 EmptyString)))) 0 with
      | None => None
      | Some y =>
          if negb (Ascii.eqb d1 "-") then None else
          match parse2 r with
          | Some (m, String d2 r') =>
              if negb (Ascii.eqb d2 "-") then None else
              match parse2 r' with
              | Some (d, rest) => Some (y, m, d, rest)
              | None => None
              end
          | _ => None
          end
      end
  | _ => None
  end.

(** [datetime.fromisoformat(s)] on the grammar
    [YYYY-MM-DD[*HH[:MM[:SS[.fff[fff]]]][+HH:MM[:SS[.ffffff]]]]] with decimal
    digits; anything else, or a field out of range, is a [ValueError]. *)
Definition fromisoformat (s : string) : result t :=
  match parse_isoformat_date s with
  | None => Raise ValueError
  | Some (y, m, d, rest) =>
      let time :=
        match rest with
        | EmptyString => Some (0, 0, 0, 0, None)
        | String _sep EmptyString => Some (0, 0, 0, 0, None)
        | String _sep tstr => parse_isoformat_time tstr
        end in
      match time with
      | None => Raise ValueError
      | Some (hh, mi, ss, ff, tz) =>
          let dt := mk y m d hh mi ss ff tz in
          if valid dt then Ok dt else Raise ValueError
      end
  end.

(** [datetime.fromisoformat] on any version of Python: from 3.11 on more
    texts are accepted than the grammar above has (a ['Z'], fractions of
    other lengths, the basic format, offsets without a colon).  [more] is
    what the running version makes of a text the grammar above refuses,
    [None] when it refuses it too; a [datetime] it builds has passed the
    range checks of the constructor. *)
Definition fromisoformat_with (more : string -> option t) (s : string) : result t :=
  match fromisoformat s with
  | Ok d => Ok d
  | Raise e =>
      match more s with
      | Some d => if valid d then Ok d else Raise e
      | None => Raise e
      end
  end.

End Datetime.

(** ** The durable state document *)

(** What [json.load] returns for the state file: the file is a JSON array of
    objects whose values are strings, and the model covers the documents made
    of strings, arrays and such objects.  [JObject] lists the items of the
    decoded [dict]. *)
Inductive Json : Type :=
| JString (s : string)
| JArray (items : list Json)
| JObject (members : list (string * string)).

(** [data[key]] for a decoded value: a [dict] is looked up, a [list] or a
    [str] cannot be indexed by a string. *)
Fixpoint lookup (key : string) (members : list (string * string)) : option string :=
  match members with
  | [] => None
  | (k, v) :: rest => if String.eqb k key then Some v else lookup key rest
  end.

Definition subscript (data : Json) (key : string) : result string :=
  match data with
  | JObject members =>
      match lookup key members with
      | Some v => Ok v
      | None => Raise KeyError
      end
  | JArray _ => Raise TypeError
  | JString _ => Raise TypeError
  end.

(** The characters of a [str], one string each. *)
Fixpoint chars (s : string) : list string :=
  match s with
  | EmptyString => []
  | String c r => String c EmptyString :: chars r
  end.

(** [for node_data in data]: the items of a list, the keys of a dict, the
    characters of a string. *)
Definition iterate (data : Json) : list Json :=
  match data with
  | JArray items => items
  | JObject members => map (fun kv => JString (fst kv)) members
  | JString s => map JString (chars s)
  end.

(** A list comprehension whose body may raise: the first exception ends it. *)
Fixpoint traverse {A B : Type} (f : A -> result B) (l : list A) : result (list B) :=
  match l with
  | [] => Ok []
  | a :: rest =>
      match f a with
      | Raise e => Raise e
      | Ok b =>
          match traverse f rest with
          | Raise e => Raise e
          | Ok bs => Ok (b :: bs)
          end
      end
  end.

(** ** [ExitNodeInfo] *)

Module ExitNodeInfo.

Record t : Type := mk {
  droplet_id : string;
  name : string;
  public_ip : string;
  tailscale_ip : string;
  region : string;
  status : string;
  created_at : Datetime.t;
  last_checked : Datetime.t
}.

(** [ExitNodeInfo.from_dict]: the arguments are evaluated in the order they
    are written.  [fromisoformat] is [datetime.fromisoformat] of the running
    Python. *)
Definition from_dict (fromisoformat : string -> result Datetime.t) (data : Json)
  : result t :=
  match subscript data "droplet_id" with Raise e => Raise e | Ok v1 =>
  match subscript data "name" with Raise e => Raise e | Ok v2 =>
  match subscript data "public_ip" with Raise e => Raise e | Ok v3 =>
  match subscript data "tailscale_ip" with Raise e => Raise e | Ok v4 =>
  match subscript data "region" with Raise e => Raise e | Ok v5 =>
  match subscript data "status" with Raise e => Raise e | Ok v6 =>
  match subscript data "created_at" with Raise e => Raise e | Ok c =>
  match fromisoformat c with Raise e => Raise e | Ok v7 =>
  match subscript data "last_checked" with Raise e => Raise e | Ok l =>
  match fromisoformat l with Raise e => Raise e | Ok v8 =>
  Ok (mk v1 v2 v3 v4 v5 v6 v7 v8)
  end end end end end end end end end end.

(** [ExitNodeInfo.to_dict]. *)
Definition to_dict (n : t) : Json :=
  JObject [ ("droplet_id", droplet_id n);
            ("name", name n);
            ("public_ip", public_ip n);
            ("tailscale_ip", tailscale_ip n);
            ("region", region n);
            ("status", status n);
            ("created_at", Datetime.isoformat (created_at n));
            ("last_checked", Datetime.isoformat (last_checked n)) ].

(** The [==] the dataclass generates: the tuples of fields are compared. *)
Definition eqb (a b : t) : bool :=
  String.eqb (droplet_id a) (droplet_id b) &&
  String.eqb (name a) (name b) &&
  String.eqb (public_ip a) (public_ip b) &&
  String.eqb (tailscale_ip a) (tailscale_ip b) &&
  String.eqb (region a) (region b) &&
  String.eqb (status a) (status b) &&
  Datetime.eqb (created_at a) (created_at b) &&
  Datetime.eqb (last_checked a) (last_checked b).

(** Both timestamps are values the [datetime] constructor accepts. *)
Definition valid (n : t) : bool :=
  Datetime.valid (created_at n) && Datetime.valid (last_checked n).

Definition set_status (n : t) (s : string) : t :=
  mk (droplet_id n) (name n) (public_ip n) (tailscale_ip n) (region n) s
     (created_at n) (last_checked n).

Definition set_tailscale_ip (n : t) (ip : string) : t :=
  mk (droplet_id n) (name n) (public_ip n) ip (region n) (status n)
     (created_at n) (last_checked n).

Definition set_last_checked (n : t) (d : Datetime.t) : t :=
  mk (droplet_id n) (name n) (public_ip n) (tailscale_ip n) (region n) (status n)
     (created_at n) d.

End ExitNodeInfo.

(** [l.remove(x)]: the first item equal to [x] is dropped; [ValueError] when
    there is none. *)
Fixpoint list_remove (x : ExitNodeInfo.t) (l : list ExitNodeInfo.t)
  : result (list ExitNodeInfo.t) :=
  match l with
  | [] => Raise ValueError
  | y :: rest =>
      if ExitNodeInfo.eqb y x then Ok rest
      else match list_remove x rest with
           | Ok rest' => Ok (y :: rest')
           | Raise e => Raise e
           end
  end.

(** ** [Config] *)

Module Config.

Record t : Type := mk {
  do_token : string;
  ts_authkey : string;
  login_server : string;
  region : string;
  image_name : string;
  name_prefix : string;
  target_nodes : Z;
  max_nodes : Z;
  health_check_interval : Z;
  log_level : string
}.

(** [not s] for a [str]. *)
Definition falsy (s : string) : bool :=
  match s with EmptyString => true | _ => false end.

(** [Config.__post_init__]. *)
Definition __post_init__ (self : t) : result unit :=
  if falsy (do_token self) then Raise ConfigurationError
  else if falsy (ts_authkey self) then Raise ConfigurationError
  else if target_nodes self >? max_nodes self then Raise ConfigurationError
  else Ok tt.

(** The dataclass constructor: the fields are stored and [__post_init__]
    runs. *)
Definition new (do_token ts_authkey login_server region image_name name_prefix : string)
    (target_nodes max_nodes health_check_interval : Z) (log_level : string) : result t :=
  let self := mk do_token ts_authkey login_server region image_name name_prefix
                 target_nodes max_nodes health_check_interval log_level in
  match __post_init__ self with
  | Ok _ => Ok self
  | Raise e => Raise e
  end.

End Config.

(** ** Provider objects and HTTP responses *)

Module Droplet.
(** A [digitalocean.Droplet] as the program reads it. *)
Record t : Type := mk {
  id : Z;
  name : string;
  ip_address : option string;
  status : string;
  action_ids : list Z
}.
End Droplet.

Module Region.
Record t : Type := mk { slug : string }.
End Region.

Module Size.
(** [price_monthly] is a number of currency units. *)
Record t : Type := mk {
  slug : string;
  regions : list string;
  memory : Z;
  price_monthly : option Z
}.
End Size.

Module Image.
Record t : Type := mk { id : Z; slug : option string }.
End Image.

(** The arguments of [digitalocean.Droplet(...)] that vary. *)
Record DropletRequest : Type := {
  req_name : string;
  req_region : string;
  req_image : Z;
  req_size_slug : string;
  req_user_data : string
}.

(** What leaves and enters the process, in the order it happens. *)
Inductive Event : Type :=
| EvListDroplets
| EvListRegions
| EvListSizes
| EvListImages
| EvGetDroplet (droplet_id : string)
| EvGetAction (action_id : Z)
| EvActionWait (action_id : Z)
| EvCreate (request : DropletRequest)
| EvDestroy (droplet_id : Z)
| EvHttpGet (url : string) (timeout : Z)
| EvSleep (seconds : Z)
| EvSubmit (worker : nat)
| EvPathExists (path : string)
| EvReadText (path : string)
| EvLoadState (path : string)
| EvSaveState (path : string) (document : Json)
| EvSetupLogging (level : string).

(** The calls that reach the cloud provider's API. *)
Definition is_provider_call (e : Event) : bool :=
  match e with
  | EvListDroplets | EvListRegions | EvListSizes | EvListImages
  | EvGetDroplet _ | EvGetAction _ | EvActionWait _ | EvCreate _ | EvDestroy _ => true
  | _ => false
  end.

Definition is_destroy (e : Event) : bool :=
  match e with EvDestroy _ => true | _ => false end.

Definition is_submit (e : Event) : bool :=
  match e with EvSubmit _ => true | _ => false end.

(** ** The environment *)

(** Everything outside the process.  [World] is the state of the outside
    (the provider's inventory, the network, the clock, the files); each
    operation answers in a world and leaves a new one.  The pure fields are
    library functions the model takes as given. *)
Class Env : Type := {
  World : Type;
  (** A [requests.Response] body decoded by [.json()]. *)
  Payload : Type;
  empty_payload : Payload;
  (** [time.time()], in seconds. *)
  time_time : World -> Z * World;
  (** [datetime.now(timezone.utc)]. *)
  datetime_now : World -> Datetime.t * World;
  (** [time.sleep(seconds)]. *)
  time_sleep : Z -> World -> World;
  (** [manager.get_all_droplets()] and its siblings. *)
  get_all_droplets : World -> result (list Droplet.t) * World;
  get_all_regions : World -> result (list Region.t) * World;
  get_all_sizes : World -> result (list Size.t) * World;
  get_global_images : World -> result (list Image.t) * World;
  (** [manager.get_droplet(id)]; the id is passed as text. *)
  manager_get_droplet : string -> World -> result Droplet.t * World;
  (** [manager.get_action(id)]: the id of the action when it is found. *)
  manager_get_action : Z -> World -> result Z * World;
  (** [action.wait(update_every_seconds=10)]. *)
  action_wait : Z -> World -> result bool * World;
  (** [droplet.create()]: the droplet with its id and [action_ids]. *)
  droplet_create : DropletRequest -> World -> result Droplet.t * World;
  (** [droplet.destroy()]. *)
  droplet_destroy : Droplet.t -> World -> result unit * World;
  (** [requests.get(url, timeout=...)]: status code, text, decoded body. *)
  requests_get : string -> Z -> World -> result (Z * string * result Payload) * World;
  (** [path.exists()] and [path.read_text()]. *)
  path_exists : string -> World -> bool * World;
  read_text : string -> World -> result string * World;
  (** [json.load] and [json.dump] on the state file. *)
  json_load : string -> World -> result Json * World;
  json_dump : string -> Json -> World -> result unit * World;
  (** [setup_logging]: the level name is resolved and the handlers made. *)
  logging_setup : string -> World -> result unit * World;
  (** The flag [shutdown_requested], which the signal handler sets. *)
  shutdown_requested : World -> bool * World;
  (** [os.getenv] after [load_dotenv()]. *)
  getenv : string -> option string;
  (** [int(s)]; [None] is [ValueError]. *)
  py_int : string -> option Z;
  (** [s.strip()]. *)
  py_strip : string -> string;
  (** [ipaddress.ip_address(s)] does not raise. *)
  is_ip_address : string -> bool;
  (** The directory [Path(__file__).parent.parent / "shells"]. *)
  default_shells_path : string;
  (** [str.format] with keyword arguments, from a replacement field on that uses a
      conversion, a format specification, an attribute or an index. *)
  py_format_rest : string -> list (string * string) -> result string;
  (** What [datetime.fromisoformat] of the running Python makes of a text
      that the grammar of versions 3.7 to 3.10 refuses. *)
  fromisoformat_more : string -> option Datetime.t
}.

(** [datetime.fromisoformat]. *)
Definition py_fromisoformat {E : Env} (s : string) : result Datetime.t :=
  Datetime.fromisoformat_with fromisoformat_more s.

(** ** The state of the process and its monad *)

Section Process.
Context {E : Env}.

(** The mutable attributes of the manager and of its [DigitalOceanClient],
    the world and the trace. *)
Record St : Type := mkSt {
  world : World;
  trace : list Event;
  exit_nodes : list ExitNodeInfo.t;
  droplets_cache : option (list Droplet.t);
  cache_time : option Z
}.

(** A computation: it may raise, and the state it leaves is kept either
    way. *)
Definition M (A : Type) : Type := St -> result A * St.

Definition ret {A} (a : A) : M A := fun s => (Ok a, s).

Definition raise {A} (e : exn) : M A := fun s => (Raise e, s).

Definition bind {A B} (m : M A) (k : A -> M B) : M B :=
  fun s => match m s with
           | (Ok a, s') => k a s'
           | (Raise e, s') => (Raise e, s')
           end.

(** [try: m except Exception as e: h e]. *)
Definition try_except {A} (m : M A) (h : exn -> M A) : M A :=
  fun s => match m s with
           | (Ok a, s') => (Ok a, s')
           | (Raise e, s') => h e s'
           end.

(** A call to the outside: the event is recorded, the world answers. *)
Definition call {A} (ev : Event) (op : World -> result A * World) : M A :=
  fun s => let (r, w) := op (world s) in
           (r, mkSt w (trace s ++ [ev]) (exit_nodes s) (droplets_cache s) (cache_time s)).

(** A reading of the outside that leaves no event (the clock). *)
Definition observe {A} (op : World -> A * World) : M A :=
  fun s => let (a, w) := op (world s) in
           (Ok a, mkSt w (trace s) (exit_nodes s) (droplets_cache s) (cache_time s)).

Definition sleep (seconds : Z) : M unit :=
  fun s => (Ok tt, mkSt (time_sleep seconds (world s)) (trace s ++ [EvSleep seconds])
                        (exit_nodes s) (droplets_cache s) (cache_time s)).

Definition get_exit_nodes : M (list ExitNodeInfo.t) := fun s => (Ok (exit_nodes s), s).

Definition set_exit_nodes (l : list ExitNodeInfo.t) : M unit :=
  fun s => (Ok tt, mkSt (world s) (trace s) l (droplets_cache s) (cache_time s)).

Definition get_cache : M (option (list Droplet.t) * option Z) :=
  fun s => (Ok (droplets_cache s, cache_time s), s).

Definition set_cache (c : option (list Droplet.t)) (t : option Z) : M unit :=
  fun s => (Ok tt, mkSt (world s) (trace s) (exit_nodes s) c t).

End Process.

Declare Scope proc_scope.
Delimit Scope proc_scope with proc.
Notation "x <- m ;; k" := (bind m (fun x => k))
  (at level 61, m at next level, right associativity) : proc_scope.
Notation "m ;;; k" := (bind m (fun _ => k))
  (at level 61, right associativity) : proc_scope.
Local Open Scope proc_scope.

(** ** [str.format] *)

Section Format.
Context {E : Env}.

(** Characters that make a replacement field more than a plain name. *)
Definition is_field_special (c : ascii) : bool :=
  Ascii.eqb c "{" || Ascii.eqb c "!" || Ascii.eqb c ":" || Ascii.eqb c "." || Ascii.eqb c "[".

Fixpoint all_digits (s : string) : bool :=
  match s with
  | EmptyString => true
  | String c r => match digit_val c with Some _ => all_digits r | None => false end
  end.

(** The value of a plain field: an empty or numeric name is positional and
    there are no positional arguments (an index beyond [sys.maxsize], here
    that of a 64-bit build, is refused as it is read); a name is looked up in
    the keyword arguments. *)
Definition field_value (name : string) (kwargs : list (string * string)) : result string :=
  if all_digits name then
    match parse_digits name 0 with
    | Some index => if index >? 9223372036854775807 then Raise ValueError
                    else Raise IndexError
    | None => Raise IndexError
    end
  else match lookup name kwargs with
       | Some v => Ok v
       | None => Raise KeyError
       end.

(** [template.format] with keyword arguments.  [field] is [None] in literal
    text and holds the name read so far inside a replacement field.  Doubled
    braces are literal braces; a single closing brace, or a field left open,
    is a [ValueError]. *)
Fixpoint format_from (kwargs : list (string * string)) (field : option string)
    (s : string) : result string :=
  match field with
  | None =>
      match s with
      | EmptyString => Ok EmptyString
      | String c r =>
          if Ascii.eqb c "{" then
            match r with
            | String c' r' =>
                if Ascii.eqb c' "{" then
                  match format_from kwargs None r' with
                  | Ok out => Ok (String "{" out)
                  | Raise e => Raise e
                  end
                else format_from kwargs (Some EmptyString) r
            | EmptyString => format_from kwargs (Some EmptyString) r
            end
          else if Ascii.eqb c "}" then
            match r with
            | String c' r' =>
                if Ascii.eqb c' "}" then
                  match format_from kwargs None r' with
                  | Ok out => Ok (String "}" out)
                  | Raise e => Raise e
                  end
                else Raise ValueError
            | EmptyString => Raise ValueError
            end
          else
            match format_from kwargs None r with
            | Ok out => Ok (String c out)
            | Raise e => Raise e
            end
      end
  | Some name =>
      match s with
      | EmptyString => Raise ValueError
      | String c r =>
          if Ascii.eqb c "}" then
            match field_value name kwargs with
            | Raise e => Raise e
            | Ok v =>
                match format_from kwargs None r with
                | Ok out => Ok (v ++ out)%string
                | Raise e => Raise e
                end
            end
          else if is_field_special c then
            py_format_rest (String "{" (name ++ s))%string kwargs
          else format_from kwargs (Some (name ++ String c EmptyString)%string) r
      end
  end.

Definition format (template : string) (kwargs : list (string * string)) : result string :=
  format_from kwargs None template.

End Format.

(** ** [CloudInitScriptGenerator] *)

Module CloudInitScriptGenerator.
Section Generator.
Context {E : Env}.

Record t : Type := mk {
  shells_path : string;
  setup_script_path : string;
  cloud_init_wrapper_path : string
}.

(** [directory / name]. *)
Definition join (directory name : string) : string :=
  (directory ++ "/" ++ name)%string.

Definition exists_ (path : string) : M bool :=
  call (EvPathExists path) (fun w => let (b, w') := path_exists path w in (Ok b, w')).

(** [Path(shells_path) if shells_path else base_path / "shells"]. *)
Definition resolve_shells_path (shells_path : option string) : string :=
  match shells_path with
  | Some p => if Config.falsy p then default_shells_path else p
  | None => default_shells_path
  end.

(** [CloudInitScriptGenerator.__init__]. *)
Definition __init__ (shells_path : option string) : M t :=
  let dir := resolve_shells_path shells_path in
  let self := mk dir (join dir "tailscale-exit-node-setup.bash")
                     (join dir "cloud-init-wrapper.bash") in
  found <- exists_ (setup_script_path self) ;;
  if negb found then raise FileNotFoundError else
  found' <- exists_ (cloud_init_wrapper_path self) ;;
  if negb found' then raise FileNotFoundError else
  ret self.

(** [generate_tailscale_script]. *)
Definition generate_tailscale_script (self : t) (ts_authkey login_server : string)
  : M string :=
  setup_script_content <-
    call (EvReadText (setup_script_path self)) (read_text (setup_script_path self)) ;;
  cloud_init_wrapper_content <-
    call (EvReadText (cloud_init_wrapper_path self)) (read_text (cloud_init_wrapper_path self)) ;;
  match format cloud_init_wrapper_content
               [ ("ts_authkey", ts_authkey);
                 ("login_server", login_server);
                 ("setup_script_content", setup_script_content) ] with
  | Ok script => ret script
  | Raise e => raise e
  end.

End Generator.
End CloudInitScriptGenerator.

(** ** [DigitalOceanClient] *)

Module DigitalOceanClient.
Section Client.
Context {E : Env}.

Definition cache_ttl_seconds : Z := 60.

(** [cache or []]. *)
Definition or_empty (cache : option (list Droplet.t)) : list Droplet.t :=
  match cache with
  | Some (d :: ds) => d :: ds
  | Some [] => []
  | None => []
  end.

(** [DigitalOceanClient.get_droplets]. *)
Definition get_droplets (force_refresh : bool) : M (list Droplet.t) :=
  now <- observe time_time ;;
  cached <- get_cache ;;
  let stale :=
    match fst cached, snd cached with
    | None, _ => true
    | _, None => true
    | Some _, Some t => now - t >? cache_ttl_seconds
    end in
  early <-
    (if force_refresh || stale then
       try_except
         (droplets <- call EvListDroplets get_all_droplets ;;
          set_cache (Some droplets) (Some now) ;;;
          ret None)
         (fun _ => ret (Some (or_empty (fst cached))))
     else ret None) ;;
  match early with
  | Some answer => ret answer
  | None =>
      cached' <- get_cache ;;
      ret (match fst cached' with Some l => l | None => [] end)
  end.

Definition get_regions : M (list Region.t) := call EvListRegions get_all_regions.
Definition get_sizes : M (list Size.t) := call EvListSizes get_all_sizes.
Definition get_images : M (list Image.t) := call EvListImages get_global_images.

Definition get_droplet (droplet_id : string) : M Droplet.t :=
  call (EvGetDroplet droplet_id) (manager_get_droplet droplet_id).

Definition get_action (action_id : Z) : M Z :=
  call (EvGetAction action_id) (manager_get_action action_id).

End Client.
End DigitalOceanClient.

(** ** [TailscaleExitNodeManager] *)

(** The dictionary [_get_status_via_http] returns: [{'is_ready': False}], or
    [is_ready] true with the overlay address and the status payload. *)
Inductive StatusInfo {E : Env} : Type :=
| NotReady
| Ready (tailscale_ip : string) (tailscale_status : Payload).

(** The dictionary [_get_node_status] returns, built from the one above:
    [is_reachable] false with [tailscale_ip] [None] and an empty
    [tailscale_status], or [is_reachable] true with both values. *)
Inductive NodeStatus {E : Env} : Type :=
| Unreachable (public_ip : string)
| Reachable (public_ip : string) (tailscale_ip : string) (tailscale_status : Payload).

(** What the health check decided for one tracked node. *)
Inductive Verdict : Type := Healthy | Kept | Vanished.

Module TailscaleExitNodeManager.
Section Manager.
Context {E : Env}.

(** The attributes that do not change after [__init__]. *)
Record t : Type := mk {
  config : Config.t;
  cloud_init_generator : CloudInitScriptGenerator.t;
  images : list Image.t;
  region : Region.t;
  size : Size.t;
  exit_nodes_file : string
}.

Definition http_get (url : string) (timeout : Z)
  : M (Z * string * result Payload) :=
  call (EvHttpGet url timeout) (requests_get url timeout).

Definition endpoint (ip path : string) : string :=
  ("http://" ++ ip ++ ":8080/" ++ path)%string.

(** [value @ tenacity.retry(...)], for the values the program gives it, a
    [dict] and a [Droplet]: the decorator is built, neither operand defines
    the operator, and the expression raises [TypeError]. *)
Definition matmul_decorator {A} : M A := raise TypeError.

(** [_get_status_via_http].  The [return] of its handler is the one that
    runs into the decorator after it. *)
Definition _get_status_via_http (ip : string) : M StatusInfo :=
  try_except
    (setup_response <- http_get (endpoint ip "setup-complete") 10 ;;
     if negb (fst (fst setup_response) =? 200) then ret NotReady else
     ts_ip_response <- http_get (endpoint ip "tailscale-ip.txt") 5 ;;
     let ts_ip := if fst (fst ts_ip_response) =? 200
                  then py_strip (snd (fst ts_ip_response)) else EmptyString in
     ts_status_response <- http_get (endpoint ip "tailscale-status.json") 5 ;;
     ts_status_data <-
       (if fst (fst ts_status_response) =? 200 then
          match snd ts_status_response with
          | Ok data => ret data
          | Raise e => raise e
          end
        else ret empty_payload) ;;
     ret (Ready ts_ip ts_status_data))
    (fun e => if is_RequestException e then matmul_decorator else raise e).

(** [_get_node_status]. *)
Definition _get_node_status (droplet : Droplet.t) : M (option NodeStatus) :=
  match Droplet.ip_address droplet with
  | None => ret None
  | Some ip =>
      if Config.falsy ip then ret None else
      try_except
        ((if is_ip_address ip then ret tt else raise ValueError) ;;;
         status_info <- _get_status_via_http ip ;;
         ret (Some match status_info with
                   | NotReady => Unreachable ip
                   | Ready ts_ip data => Reachable ip ts_ip data
                   end))
        (fun _ => ret None)
  end.

(** [_wait_for_http_ready]: one probe, as the function has no decorator. *)
Definition _wait_for_http_ready (ip : string) (timeout_per_attempt : Z) : M bool :=
  ready <-
    try_except
      (response <- http_get (endpoint ip "setup-complete") timeout_per_attempt ;;
       ret (fst (fst response) =? 200))
      (fun e => if is_RequestException e then ret false else raise e) ;;
  if ready then ret true else raise NodeHealthCheckError.

(** [next((img for img in images if name in img.slug and img.slug is not
    None), None)]: the membership test comes first and raises on a missing
    slug. *)
Fixpoint find_image (image_name : string) (images : list Image.t)
  : result (option Image.t) :=
  match images with
  | [] => Ok None
  | img :: rest =>
      match Image.slug img with
      | None => Raise TypeError
      | Some slug =>
          if contains image_name slug then Ok (Some img)
          else find_image image_name rest
      end
  end.

Fixpoint last_opt {A} (l : list A) : option A :=
  match l with
  | [] => None
  | [a] => Some a
  | _ :: rest => last_opt rest
  end.

(** The text of [droplet.ip_address] in an f-string. *)
Definition ip_text (droplet : Droplet.t) : string :=
  match Droplet.ip_address droplet with Some ip => ip | None => "None" end.

Definition ip_missing (droplet : Droplet.t) : bool :=
  match Droplet.ip_address droplet with Some ip => Config.falsy ip | None => true end.

(** [_create_droplet]: one attempt, as the function has no decorator.  Its
    last line is the [return] that runs into the decorator after it. *)
Definition _create_droplet (self : t) : M Droplet.t :=
  now <- observe time_time ;;
  let droplet_name :=
    (Config.name_prefix (config self) ++ "-" ++ Region.slug (region self) ++ "-"
       ++ py_str_int now)%string in
  cloud_init_script <-
    CloudInitScriptGenerator.generate_tailscale_script (cloud_init_generator self)
      (Config.ts_authkey (config self)) (Config.login_server (config self)) ;;
  match find_image (Config.image_name (config self)) (images self) with
  | Raise e => raise e
  | Ok None => raise DropletCreationError
  | Ok (Some image_obj) =>
      let request := {| req_name := droplet_name;
                        req_region := Region.slug (region self);
                        req_image := Image.id image_obj;
                        req_size_slug := Size.slug (size self);
                        req_user_data := cloud_init_script |} in
      droplet <- call (EvCreate request) (droplet_create request) ;;
      match last_opt (Droplet.action_ids droplet) with
      | None => raise IndexError
      | Some action_id =>
          action <- DigitalOceanClient.get_action action_id ;;
          call (EvActionWait action) (action_wait action) ;;;
          created_droplet <-
            DigitalOceanClient.get_droplet (py_str_int (Droplet.id droplet)) ;;
          if ip_missing created_droplet then raise DropletCreationError
          else matmul_decorator
      end
  end.

Definition destroy (droplet : Droplet.t) : M unit :=
  call (EvDestroy (Droplet.id droplet)) (droplet_destroy droplet).

(** [_provision_single_node].  [droplet] is bound only once
    [_create_droplet] has returned, so a failure before that leaves nothing
    to destroy. *)
Definition _provision_single_node (self : t) : M (option ExitNodeInfo.t) :=
  try_except
    (droplet <- _create_droplet self ;;
     try_except
       (_wait_for_http_ready (ip_text droplet) 20 ;;;
        node_status_data <- _get_node_status droplet ;;
        match node_status_data with
        | Some (Reachable _ ts_ip _) =>
            created_at <- observe datetime_now ;;
            last_checked <- observe datetime_now ;;
            ret (Some (ExitNodeInfo.mk (py_str_int (Droplet.id droplet))
                         (Droplet.name droplet) (ip_text droplet) ts_ip
                         (Region.slug (region self)) "healthy"
                         created_at last_checked))
        | _ => raise NodeHealthCheckError
        end)
       (fun _ =>
          try_except (destroy droplet) (fun _ => ret tt) ;;;
          ret None))
    (fun _ => ret None).

(** [executor.submit] for each of [count] tasks, in order. *)
Fixpoint submit_all (count : nat) (index : nat) : M unit :=
  match count with
  | O => ret tt
  | S k =>
      call (EvSubmit index) (fun w => (Ok tt, w)) ;;;
      submit_all k (S index)
  end.

(** The submitted tasks run to their results, which are collected as they
    complete.  The pool has [min(count, 3)] workers that start on a task as
    soon as it is submitted, and [as_completed] hands the results over in the
    order the tasks end.  The embedding has one thread: here every task is
    submitted first and the tasks then run one after the other in the order
    of submission, which is one of the schedules of the pool.  What is proved
    of a batch below is what holds under every schedule: how many tasks are
    submitted, which kinds of events a task adds, and which nodes come
    back.  [_provision_single_node] catches what its steps raise. *)
Fixpoint collect_results (self : t) (count : nat) : M (list ExitNodeInfo.t) :=
  match count with
  | O => ret []
  | S k =>
      node_info <- try_except (_provision_single_node self) (fun _ => ret None) ;;
      rest <- collect_results self k ;;
      ret (match node_info with Some n => n :: rest | None => rest end)
  end.

(** [_provision_nodes]: [ThreadPoolExecutor(max_workers=min(count, 3))]
    refuses a count that is not positive. *)
Definition _provision_nodes (self : t) (count : Z) : M unit :=
  if count <=? 0 then raise ValueError else
  submit_all (Z.to_nat count) 0 ;;;
  successful_nodes <- collect_results self (Z.to_nat count) ;;
  match successful_nodes with
  | [] => ret tt
  | _ =>
      nodes <- get_exit_nodes ;;
      set_exit_nodes (nodes ++ successful_nodes)
  end.

(** [{str(d.id): d for d in droplets}[droplet_id]]: of two droplets with
    one id the later one is kept. *)
Fixpoint find_droplet (droplet_id : string) (droplets : list Droplet.t)
  : option Droplet.t :=
  match droplets with
  | [] => None
  | d :: rest =>
      match find_droplet droplet_id rest with
      | Some d' => Some d'
      | None => if String.eqb (py_str_int (Droplet.id d)) droplet_id then Some d else None
      end
  end.

(** The [except] clause of the health check of one node. *)
Definition mark_error (node_info : ExitNodeInfo.t) : ExitNodeInfo.t :=
  ExitNodeInfo.set_status node_info "error".

(** One turn of the loop of [_check_existing_nodes]: the node as the turn
    leaves it, and what was decided.  Nothing in the [try] block raises after
    the node has been written to, so the handler sees the node as it was.
    [probe] is the method [self._get_node_status] the turn calls. *)
Definition check_node_with (probe : Droplet.t -> M (option NodeStatus))
    (current_do_droplets : list Droplet.t)
    (node_info : ExitNodeInfo.t) : M (ExitNodeInfo.t * Verdict) :=
  try_except
    (match find_droplet (ExitNodeInfo.droplet_id node_info) current_do_droplets with
     | None => ret (node_info, Vanished)
     | Some droplet =>
         if String.eqb (Droplet.status droplet) "active" then
           node_status_data <- probe droplet ;;
           match node_status_data with
           | Some (Reachable _ ts_ip _) =>
               now <- observe datetime_now ;;
               ret (ExitNodeInfo.set_last_checked
                      (ExitNodeInfo.set_tailscale_ip
                         (ExitNodeInfo.set_status node_info "healthy") ts_ip) now,
                    Healthy)
           | _ =>
               now <- observe datetime_now ;;
               ret (ExitNodeInfo.set_last_checked
                      (ExitNodeInfo.set_status node_info "unhealthy") now,
                    Kept)
           end
         else ret (ExitNodeInfo.set_status node_info "unhealthy", Kept)
     end)
    (fun _ => ret (mark_error node_info, Kept)).

(** The turn as the program runs it, with its own [_get_node_status]. *)
Definition check_node (current_do_droplets : list Droplet.t)
    (node_info : ExitNodeInfo.t) : M (ExitNodeInfo.t * Verdict) :=
  check_node_with _get_node_status current_do_droplets node_info.

(** The loop over [self.exit_nodes]: the nodes as the loop leaves them, with
    the verdict for each. *)
Fixpoint check_nodes (current_do_droplets : list Droplet.t)
    (nodes : list ExitNodeInfo.t) : M (list (ExitNodeInfo.t * Verdict)) :=
  match nodes with
  | [] => ret []
  | node_info :: rest =>
      checked <- check_node current_do_droplets node_info ;;
      others <- check_nodes current_do_droplets rest ;;
      ret (checked :: others)
  end.

Definition is_healthy_verdict (c : ExitNodeInfo.t * Verdict) : bool :=
  match snd c with Healthy => true | _ => false end.

Definition is_vanished (c : ExitNodeInfo.t * Verdict) : bool :=
  match snd c with Vanished => true | _ => false end.

(** [for node in nodes: self.exit_nodes.remove(node)]. *)
Fixpoint remove_all (nodes : list ExitNodeInfo.t) : M unit :=
  match nodes with
  | [] => ret tt
  | node :: rest =>
      tracked <- get_exit_nodes ;;
      match list_remove node tracked with
      | Raise e => raise e
      | Ok tracked' => set_exit_nodes tracked' ;;; remove_all rest
      end
  end.

(** [_check_existing_nodes]. *)
Definition _check_existing_nodes : M (list ExitNodeInfo.t) :=
  current_do_droplets <- DigitalOceanClient.get_droplets false ;;
  nodes <- get_exit_nodes ;;
  checked <- check_nodes current_do_droplets nodes ;;
  set_exit_nodes (map fst checked) ;;;
  remove_all (map fst (filter is_vanished checked)) ;;;
  ret (map fst (filter is_healthy_verdict checked)).

(** [node_info.status in ['unhealthy', 'error']]. *)
Definition is_failed (node_info : ExitNodeInfo.t) : bool :=
  String.eqb (ExitNodeInfo.status node_info) "unhealthy"
  || String.eqb (ExitNodeInfo.status node_info) "error".

(** The loop of [_cleanup_failed_nodes]: the nodes to drop from tracking. *)
Fixpoint cleanup_nodes (nodes : list ExitNodeInfo.t) : M (list ExitNodeInfo.t) :=
  match nodes with
  | [] => ret []
  | node_info :: rest =>
      if is_failed node_info then
        try_except
          (droplet <- DigitalOceanClient.get_droplet (ExitNodeInfo.droplet_id node_info) ;;
           destroy droplet)
          (fun _ => ret tt) ;;;
        others <- cleanup_nodes rest ;;
        ret (node_info :: others)
      else cleanup_nodes rest
  end.

(** [_cleanup_failed_nodes]. *)
Definition _cleanup_failed_nodes : M unit :=
  nodes <- get_exit_nodes ;;
  nodes_to_permanently_remove <- cleanup_nodes nodes ;;
  remove_all nodes_to_permanently_remove.

(** [_save_exit_nodes]. *)
Definition _save_exit_nodes (self : t) : M unit :=
  try_except
    (nodes <- get_exit_nodes ;;
     let data_to_save := JArray (map ExitNodeInfo.to_dict nodes) in
     call (EvSaveState (exit_nodes_file self) data_to_save)
          (json_dump (exit_nodes_file self) data_to_save))
    (fun _ => ret tt).

(** What [_load_exit_nodes] makes of the file once [json.load] has answered. *)
Definition decode_exit_nodes (loaded : result Json) : list ExitNodeInfo.t :=
  match loaded with
  | Raise _ => []
  | Ok data =>
      match traverse (ExitNodeInfo.from_dict py_fromisoformat) (iterate data) with
      | Ok nodes => nodes
      | Raise _ => []
      end
  end.

(** [_load_exit_nodes]. *)
Definition _load_exit_nodes (path : string) : M (list ExitNodeInfo.t) :=
  found <- CloudInitScriptGenerator.exists_ path ;;
  if found then
    fun s => let (r, s') := call (EvLoadState path) (json_load path) s in
             (Ok (decode_exit_nodes r), s')
  else ret [].

(** [len([n for n in self.exit_nodes if n.status == 'healthy'])]. *)
Definition healthy_count (nodes : list ExitNodeInfo.t) : Z :=
  Z.of_nat (List.length
    (filter (fun n => String.eqb (ExitNodeInfo.status n) "healthy") nodes)).

(** The number [run] passes to [_provision_nodes], [0] when it does not call
    it. *)
Definition provision_count (cfg : Config.t) (nodes : list ExitNodeInfo.t) : Z :=
  let needed := Z.max 0 (Config.target_nodes cfg - healthy_count nodes) in
  if needed >? 0 then
    if Z.of_nat (List.length nodes) + needed <=? Config.max_nodes cfg then needed
    else Z.max 0 (Config.max_nodes cfg - Z.of_nat (List.length nodes))
  else 0.

(** One management cycle of [run], up to and including the save. *)
Definition run_cycle (self : t) : M unit :=
  _check_existing_nodes ;;;
  _cleanup_failed_nodes ;;;
  nodes <- get_exit_nodes ;;
  let current_healthy_count := healthy_count nodes in
  let needed := Z.max 0 (Config.target_nodes (config self) - current_healthy_count) in
  (if needed >? 0 then
     if Z.of_nat (List.length nodes) + needed <=? Config.max_nodes (config self) then
       _provision_nodes self needed
     else
       let max_can_create :=
         Z.max 0 (Config.max_nodes (config self) - Z.of_nat (List.length nodes)) in
       if max_can_create >? 0 then _provision_nodes self max_can_create
       else ret tt
   else ret tt) ;;;
  _save_exit_nodes self.

(** The sleep between cycles: the flag is read before every second. *)
Fixpoint interruptible_sleep (seconds : nat) : M unit :=
  match seconds with
  | O => ret tt
  | S k =>
      stop <- observe shutdown_requested ;;
      if stop then ret tt else sleep 1 ;;; interruptible_sleep k
  end.

(** [run], for at most [fuel] turns of its [while] loop: [true] when the loop
    ended on the shutdown flag, [false] when the turns ran out. *)
Fixpoint run (self : t) (fuel : nat) : M bool :=
  match fuel with
  | O => ret false
  | S k =>
      stop <- observe shutdown_requested ;;
      if stop then ret true else
      try_except
        (run_cycle self ;;;
         interruptible_sleep (Z.to_nat (Config.health_check_interval (config self))))
        (fun _ => sleep 60) ;;;
      run self k
  end.

(** [_find_region]. *)
Fixpoint _find_region (regions : list Region.t) (region_slug : string)
  : result Region.t :=
  match regions with
  | [] => Raise ConfigurationError
  | r :: rest =>
      if String.eqb (Region.slug r) region_slug then Ok r
      else _find_region rest region_slug
  end.

Definition slug_contains (image_name : string) (image : Image.t) : bool :=
  match Image.slug image with
  | Some slug => negb (Config.falsy slug) && contains image_name slug
  | None => false
  end.

(** [_validate_image_availability]. *)
Definition _validate_image_availability (image_name : string)
    (images : list Image.t) : result unit :=
  if existsb (slug_contains image_name) images then Ok tt
  else Raise ConfigurationError.

Definition mem_string (x : string) (l : list string) : bool :=
  existsb (String.eqb x) l.

(** [min(valid_sizes, key=lambda x: x.price_monthly)]: the first of the
    cheapest. *)
Fixpoint cheapest (best : Size.t) (best_price : Z) (sizes : list Size.t) : Size.t :=
  match sizes with
  | [] => best
  | s :: rest =>
      match Size.price_monthly s with
      | Some p => if p <? best_price then cheapest s p rest
                  else cheapest best best_price rest
      | None => cheapest best best_price rest
      end
  end.

(** [_select_optimal_size]. *)
Definition _select_optimal_size (region : Region.t) (sizes : list Size.t)
  : result Size.t :=
  let valid_sizes :=
    filter (fun s => mem_string (Region.slug region) (Size.regions s)
                     && (Size.memory s >=? 1000)
                     && match Size.price_monthly s with Some _ => true | None => false end)
           sizes in
  match valid_sizes with
  | [] => Raise ConfigurationError
  | s :: rest =>
      match Size.price_monthly s with
      | Some p => Ok (cheapest s p rest)
      | None => Raise ConfigurationError
      end
  end.

Definition lift {A} (r : result A) : M A :=
  match r with Ok a => ret a | Raise e => raise e end.

(** [_init_do_resources]: whatever goes wrong is raised as a
    [ConfigurationError]. *)
Definition _init_do_resources (cfg : Config.t)
  : M (list Image.t * Region.t * Size.t) :=
  try_except
    (DigitalOceanClient.get_droplets true ;;;
     regions <- DigitalOceanClient.get_regions ;;
     sizes <- DigitalOceanClient.get_sizes ;;
     images <- DigitalOceanClient.get_images ;;
     region <- lift (_find_region regions (Config.region cfg)) ;;
     lift (_validate_image_availability (Config.image_name cfg) images) ;;;
     size <- lift (_select_optimal_size region sizes) ;;
     ret (images, region, size))
    (fun _ => raise ConfigurationError).

(** [TailscaleExitNodeManager.__init__]. *)
Definition __init__ (cfg : Config.t) : M t :=
  set_cache None None ;;;
  generator <- CloudInitScriptGenerator.__init__ None ;;
  resources <- _init_do_resources cfg ;;
  let self := mk cfg generator (fst (fst resources)) (snd (fst resources))
                 (snd resources) "exit_nodes.json" in
  nodes <- _load_exit_nodes (exit_nodes_file self) ;;
  set_exit_nodes nodes ;;;
  ret self.

End Manager.
End TailscaleExitNodeManager.

(** ** [main] *)

Section Main.
Context {E : Env}.

Definition getenv_default (name default : string) : string :=
  match getenv name with Some v => v | None => default end.

(** [Config.from_env]: the three counts go through [int], in the order the
    arguments are written, before the instance is made. *)
Definition from_env : result Config.t :=
  match py_int (getenv_default "TARGET_EXIT_NODES" "1") with
  | None => Raise ValueError
  | Some target_nodes =>
  match py_int (getenv_default "MAX_EXIT_NODES" "3") with
  | None => Raise ValueError
  | Some max_nodes =>
  match py_int (getenv_default "HEALTH_CHECK_INTERVAL" "300") with
  | None => Raise ValueError
  | Some health_check_interval =>
      Config.new (getenv_default "DO_TOKEN" "")
                 (getenv_default "TS_AUTHKEY" "")
                 (getenv_default "LOGIN_SERVER" "https://controlplane.tailscale.com")
                 (getenv_default "DO_REGION" "fra1")
                 (getenv_default "DO_IMAGE" "ubuntu-22-04")
                 (getenv_default "NAME_PREFIX" "tailscale-exit")
                 target_nodes max_nodes health_check_interval
                 (getenv_default "LOG_LEVEL" "INFO")
  end end end.

(** How [main] ends: it returns after [run], it leaves through
    [sys.exit(code)] on the exception it caught, or it is still in [run]
    when the turns given to the model are spent. *)
Inductive Outcome : Type :=
| Finished
| Exited (code : Z) (caught : exn)
| Running.

(** [main], with at most [fuel] turns of the loop of [run]. *)
Definition main (fuel : nat) : M Outcome :=
  try_except
    (config <- TailscaleExitNodeManager.lift from_env ;;
     call (EvSetupLogging (Config.log_level config))
          (logging_setup (Config.log_level config)) ;;;
     manager <- TailscaleExitNodeManager.__init__ config ;;
     finished <- TailscaleExitNodeManager.run manager fuel ;;
     ret (if finished then Finished else Running))
    (fun e => ret (Exited 1 e)).

End Main.

(** ** A scripted environment *)

(** A world that answers every call from a fixed script and never changes,
    for running the model on examples. *)
Module Scripted.

Record Scenario : Type := {
  sc_clock : Z;
  sc_now : Datetime.t;
  sc_inventory : result (list Droplet.t);
  sc_fetch : string -> result Droplet.t;
  sc_create : result Droplet.t;
  sc_destroy : result unit;
  sc_http : string -> result (Z * string * result string);
  sc_exists : string -> bool;
  sc_text : string -> result string;
  sc_state_file : result Json;
  sc_shutdown : bool
}.

(** [json.dump] to [path]: the file is there afterwards and holds the
    document. *)
Definition write_state (path : string) (document : Json) (w : Scenario) : Scenario :=
  {| sc_clock := sc_clock w; sc_now := sc_now w; sc_inventory := sc_inventory w;
     sc_fetch := sc_fetch w; sc_create := sc_create w; sc_destroy := sc_destroy w;
     sc_http := sc_http w;
     sc_exists := fun p => String.eqb p path || sc_exists w p;
     sc_text := sc_text w;
     sc_state_file := Ok document; sc_shutdown := sc_shutdown w |}.

(** Decimal digits only, for the counts of the configuration. *)
Definition int_of_digits (s : string) : option Z :=
  match s with
  | EmptyString => None
  | _ => parse_digits s 0
  end.

Definition env (environ : string -> option string) : Env := {|
  World := Scenario;
  Payload := string;
  empty_payload := EmptyString;
  time_time := fun w => (sc_clock w, w);
  datetime_now := fun w => (sc_now w, w);
  time_sleep := fun _ w => w;
  get_all_droplets := fun w => (sc_inventory w, w);
  get_all_regions := fun w => (Ok [Region.mk "fra1"], w);
  get_all_sizes := fun w => (Ok [Size.mk "s-1vcpu-1gb" ["fra1"] 1024 (Some 6)], w);
  get_global_images := fun w => (Ok [Image.mk 1 (Some "ubuntu-22-04-x64")], w);
  manager_get_droplet := fun droplet_id w => (sc_fetch w droplet_id, w);
  manager_get_action := fun action_id w => (Ok action_id, w);
  action_wait := fun _ w => (Ok true, w);
  droplet_create := fun _ w => (sc_create w, w);
  droplet_destroy := fun _ w => (sc_destroy w, w);
  requests_get := fun url _ w => (sc_http w url, w);
  path_exists := fun path w => (sc_exists w path, w);
  read_text := fun path w => (sc_text w path, w);
  json_load := fun _ w => (sc_state_file w, w);
  json_dump := fun path document w => (Ok tt, write_state path document w);
  logging_setup := fun _ w => (Ok tt, w);
  shutdown_requested := fun w => (sc_shutdown w, w);
  getenv := environ;
  py_int := int_of_digits;
  py_strip := fun s => s;
  is_ip_address := fun _ => true;
  default_shells_path := "shells";
  py_format_rest := fun _ _ => Raise ValueError;
  fromisoformat_more := fun _ => None
|}.

Definition no_environ : string -> option string := fun _ => None.

Definition noon : Datetime.t := Datetime.mk 2025 6 1 12 0 0 0 (Some 0).
Definition later : Datetime.t := Datetime.mk 2025 6 1 12 5 0 250000 (Some 0).

Definition droplet (id : Z) (status : string) : Droplet.t :=
  Droplet.mk id ("tailscale-exit-fra1-" ++ py_str_int id)%string
             (Some ("203.0.113." ++ py_str_int id)%string) status [id].

Definition node (id : Z) (status : string) : ExitNodeInfo.t :=
  ExitNodeInfo.mk (py_str_int id) ("tailscale-exit-fra1-" ++ py_str_int id)%string
                  ("203.0.113." ++ py_str_int id)%string "100.64.0.5" "fra1" status
                  noon noon.

(** Every instance answers its three endpoints. *)
Definition all_ready (url : string) : result (Z * string * result string) :=
  Ok (200, "100.64.0.5", Ok "{}").

(** No instance answers. *)
Definition all_down (url : string) : result (Z * string * result string) :=
  Raise RequestException.

(** The marker endpoint answers, the other two time out. *)
Definition marker_only (url : string) : result (Z * string * result string) :=
  if contains "setup-complete" url then Ok (200, "", Ok "") else Raise RequestException.

Definition quiet : Scenario := {|
  sc_clock := 1750000000;
  sc_now := later;
  sc_inventory := Ok [];
  sc_fetch := fun _ => Raise OtherException;
  sc_create := Raise OtherException;
  sc_destroy := Ok tt;
  sc_http := all_down;
  sc_exists := fun _ => true;
  sc_text := fun _ => Ok EmptyString;
  sc_state_file := Ok (JArray []);
  sc_shutdown := false
|}.

Definition with_inventory (w : Scenario) (inventory : result (list Droplet.t)) : Scenario :=
  {| sc_clock := sc_clock w; sc_now := sc_now w; sc_inventory := inventory;
     sc_fetch := sc_fetch w; sc_create := sc_create w; sc_destroy := sc_destroy w;
     sc_http := sc_http w; sc_exists := sc_exists w; sc_text := sc_text w;
     sc_state_file := sc_state_file w; sc_shutdown := sc_shutdown w |}.

Definition with_http (w : Scenario)
    (http : string -> result (Z * string * result string)) : Scenario :=
  {| sc_clock := sc_clock w; sc_now := sc_now w; sc_inventory := sc_inventory w;
     sc_fetch := sc_fetch w; sc_create := sc_create w; sc_destroy := sc_destroy w;
     sc_http := http; sc_exists := sc_exists w; sc_text := sc_text w;
     sc_state_file := sc_state_file w; sc_shutdown := sc_shutdown w |}.

Definition with_provider (w : Scenario) (fetch : string -> result Droplet.t)
    (create : result Droplet.t) (destroy : result unit) : Scenario :=
  {| sc_clock := sc_clock w; sc_now := sc_now w; sc_inventory := sc_inventory w;
     sc_fetch := fetch; sc_create := create; sc_destroy := destroy;
     sc_http := sc_http w; sc_exists := sc_exists w; sc_text := sc_text w;
     sc_state_file := sc_state_file w; sc_shutdown := sc_shutdown w |}.

Definition with_files (w : Scenario) (found : string -> bool)
    (text : string -> result string) : Scenario :=
  {| sc_clock := sc_clock w; sc_now := sc_now w; sc_inventory := sc_inventory w;
     sc_fetch := sc_fetch w; sc_create := sc_create w; sc_destroy := sc_destroy w;
     sc_http := sc_http w; sc_exists := found; sc_text := text;
     sc_state_file := sc_state_file w; sc_shutdown := sc_shutdown w |}.

(** A process state in world [w] tracking [nodes], nothing cached, nothing
    traced. *)
Definition start (environ : string -> option string) (w : Scenario)
    (nodes : list ExitNodeInfo.t) : @St (env environ) :=
  @mkSt (env environ) w [] nodes None None.

(** A manager with the default configuration values. *)
Definition manager (target_nodes max_nodes : Z)
  : TailscaleExitNodeManager.t :=
  TailscaleExitNodeManager.mk
    (Config.mk "do-token" "ts-key" "https://controlplane.tailscale.com" "fra1"
               "ubuntu-22-04" "tailscale-exit" target_nodes max_nodes 300 "INFO")
    (CloudInitScriptGenerator.mk "shells" "shells/tailscale-exit-node-setup.bash"
                                 "shells/cloud-init-wrapper.bash")
    [Image.mk 1 (Some "ubuntu-22-04-x64")] (Region.mk "fra1")
    (Size.mk "s-1vcpu-1gb" ["fra1"] 1024 (Some 6)) "exit_nodes.json".

End Scripted.

(** ** Vocabulary of the properties *)

Local Open Scope list_scope.
Local Open Scope Z_scope.

Section Vocabulary.
Context {E : Env}.

(** [m] only adds events that satisfy [Q] to the trace. *)
Definition emits {A} (Q : Event -> bool) (m : M A) : Prop :=
  forall s, exists evs, trace (snd (m s)) = trace s ++ evs /\ forallb Q evs = true.

(** [m] leaves the tracked list as it found it. *)
Definition keeps_tracking {A} (m : M A) : Prop :=
  forall s, exit_nodes (snd (m s)) = exit_nodes s.

(** [m] returns, whatever the world answers. *)
Definition never_raises {A} (m : M A) : Prop :=
  forall s, exists a, fst (m s) = Ok a.

Definition count_submits (evs : list Event) : Z :=
  Z.of_nat (List.length (filter is_submit evs)).

(** A failed readiness probe: a network failure or a status other than
    200. *)
Definition probe_failed (r : result (Z * string * result Payload)) : Prop :=
  match r with
  | Raise e => is_RequestException e = true
  | Ok response => fst (fst response) <> 200
  end.

(** What an attempt to destroy the droplet of a node leaves in the trace when
    it starts in world [w]: the droplet is fetched, and destroyed when the
    fetch returned it. *)
Definition destroy_attempt (w : World) (node_info : ExitNodeInfo.t) : list Event :=
  match manager_get_droplet (ExitNodeInfo.droplet_id node_info) w with
  | (Ok droplet, _) =>
      [EvGetDroplet (ExitNodeInfo.droplet_id node_info); EvDestroy (Droplet.id droplet)]
  | (Raise _, _) => [EvGetDroplet (ExitNodeInfo.droplet_id node_info)]
  end.

End Vocabulary.

(** A wrapper template in pieces: literal text and plain placeholders. *)
Inductive Piece : Type :=
| Text (c : ascii)
| Placeholder (name : string).

(** The text of a template: braces of the literal text are doubled. *)
Fixpoint template_text (pieces : list Piece) : string :=
  match pieces with
  | [] => EmptyString
  | Text c :: rest =>
      if Ascii.eqb c "{" then String "{" (String "{" (template_text rest))
      else if Ascii.eqb c "}" then String "}" (String "}" (template_text rest))
      else String c (template_text rest)
  | Placeholder name :: rest =>
      String "{" (name ++ String "}" (template_text rest))%string
  end.

(** The template with every placeholder replaced by its value. *)
Fixpoint substitute (kwargs : list (string * string)) (pieces : list Piece) : string :=
  match pieces with
  | [] => EmptyString
  | Text c :: rest => String c (substitute kwargs rest)
  | Placeholder name :: rest =>
      (match lookup name kwargs with Some v => v | None => EmptyString end
       ++ substitute kwargs rest)%string
  end.

(** The character [c] occurs in [s]. *)
Fixpoint mentions (c : ascii) (s : string) : bool :=
  match s with
  | EmptyString => false
  | String a r => Ascii.eqb a c || mentions c r
  end.

(** No literal character of the template is an opening brace. *)
Definition no_literal_brace (pieces : list Piece) : bool :=
  forallb (fun p => match p with
                    | Text c => negb (Ascii.eqb c "{")
                    | Placeholder _ => true
                    end) pieces.

(** A placeholder name: not empty, not a number, free of the characters that
    end or extend a field. *)
Fixpoint plain_name_chars (s : string) : bool :=
  match s with
  | EmptyString => true
  | String c r =>
      negb (Ascii.eqb c "}") && negb (is_field_special c) && plain_name_chars r
  end.

Definition plain_name (s : string) : bool :=
  plain_name_chars s && negb (all_digits s).

Definition known_pieces (kwargs : list (string * string)) (pieces : list Piece) : bool :=
  forallb (fun p => match p with
                    | Text _ => true
                    | Placeholder name =>
                        plain_name name &&
                        match lookup name kwargs with Some _ => true | None => false end
                    end) pieces.

Section Answers.
Context {E : Env}.

(** The status code of an answer, when there is one. *)
Definition answered (code : Z) (r : result (Z * string * result Payload)) : Prop :=
  match r with
  | Ok response => fst (fst response) = code
  | Raise _ => False
  end.

(** The request ended in a [requests.RequestException]. *)
Definition network_failure {A} (r : result A) : Prop :=
  match r with
  | Ok _ => False
  | Raise e => is_RequestException e = true
  end.

(** [response.text.strip() if response.status_code == 200 else ""]. *)
Definition overlay_text (r : result (Z * string * result Payload)) : string :=
  match r with
  | Ok response =>
      if fst (fst response) =? 200 then py_strip (snd (fst response)) else EmptyString
  | Raise _ => EmptyString
  end.

End Answers.

(** The droplet of a node is missing from the listing. *)
Definition is_gone (current : list Droplet.t) (n : ExitNodeInfo.t) : bool :=
  match TailscaleExitNodeManager.find_droplet (ExitNodeInfo.droplet_id n) current with
  | None => true
  | Some _ => false
  end.

(** ** Example scenarios *)

Module Examples.
Import Scripted.

(** Four healthy nodes whose droplets are active and answer their probes. *)
Definition four_droplets : list Droplet.t :=
  [droplet 1 "active"; droplet 2 "active"; droplet 3 "active"; droplet 4 "active"].

Definition four_nodes : list ExitNodeInfo.t :=
  [node 1 "healthy"; node 2 "healthy"; node 3 "healthy"; node 4 "healthy"].

Definition crowded : @St (env no_environ) :=
  start no_environ (with_http (with_inventory quiet (Ok four_droplets)) all_ready) four_nodes.

(** The template files are in place and the provider creates droplet 7, whose
    instance never answers. *)
Definition wrapper_pieces : list Piece :=
  [Text "K"; Text "="; Placeholder "ts_authkey"; Text " ";
   Text "{"; Text "}"; Text " "; Placeholder "login_server"; Text " ";
   Placeholder "setup_script_content"].

Definition template_files (path : string) : result string :=
  if contains "wrapper" path then Ok (template_text wrapper_pieces)
  else Ok "echo setup".

Definition silent_instance : Scenario :=
  with_files
    (with_provider quiet (fun _ => Ok (droplet 7 "active")) (Ok (droplet 7 "new")) (Ok tt))
    (fun _ => true) template_files.

Definition provisioning : @St (env no_environ) := start no_environ silent_instance [].

(** The marker endpoint of 203.0.113.4 answers 200 and the two other
    endpoints time out. *)
Definition half_answering : @St (env no_environ) :=
  start no_environ (with_http quiet marker_only) [].

(** Droplet 4 is listed but switched off; its node was last checked at
    noon and the clock now reads five minutes later. *)
Definition switched_off : @St (env no_environ) :=
  start no_environ (with_inventory quiet (Ok [droplet 4 "off"])) [node 4 "healthy"].

(** The inner script mentions a shell variable that is spelled like a
    placeholder. *)
Definition shell_variable_files (path : string) : result string :=
  if contains "wrapper" path then Ok "{setup_script_content}"
  else Ok "echo ${ts_authkey}".

Definition shell_variable : @St (env no_environ) :=
  start no_environ (with_files quiet (fun _ => true) shell_variable_files) [].

(** The wrapper file is absent. *)
Definition no_wrapper : @St (env no_environ) :=
  start no_environ
    (with_files quiet (fun path => negb (contains "wrapper" path)) (fun _ => Ok EmptyString))
    [].

(** The provider cannot be reached and nothing is cached. *)
Definition unreachable_provider : @St (env no_environ) :=
  start no_environ (with_inventory quiet (Raise RequestException))
        [node 1 "healthy"; node 2 "healthy"].

(** The environment holds no provider token. *)
Definition no_token (name : string) : option string :=
  if String.eqb name "TS_AUTHKEY" then Some "tskey-123" else None.

Definition generator : CloudInitScriptGenerator.t :=
  CloudInitScriptGenerator.mk "shells" "shells/tailscale-exit-node-setup.bash"
                              "shells/cloud-init-wrapper.bash".

End Examples.

(** ** Texts of the timestamp format *)

Import Datetime.

(** The two slices of a split with a prefix put before the first. *)
Definition glue (p : string -> string) (o : option (string * string)) :=
  match o with Some (x, y) => Some (p x, y) | None => None end.

(** The clock part of [isoformat], before the offset. *)
Definition clock_text (h mi s us : Z) (k : string) : string :=
  fmt2 h (String ":" (fmt2 mi (String ":" (fmt2 s
    (if us =? 0 then k else String "." (fmt6 us k)))))).

(** The text of an offset after its sign. *)
Definition offset_body (a : Z) : string :=
  let r := a mod us_per_hour in
  let ss := r mod us_per_minute in
  fmt2 (a / us_per_hour) (String ":" (fmt2 (r / us_per_minute)
    (if ss =? 0 then EmptyString
     else String ":" (fmt2 (ss / us_per_second)
            (if ss mod us_per_second =? 0 then EmptyString
             else String "." (fmt6 (ss mod us_per_second) EmptyString)))))).

(** ** Vocabulary of the further properties *)

Definition is_create (e : Event) : bool :=
  match e with EvCreate _ => true | _ => false end.

Definition is_http_get (e : Event) : bool :=
  match e with EvHttpGet _ _ => true | _ => false end.

Definition is_sleep (e : Event) : bool :=
  match e with EvSleep _ => true | _ => false end.

Definition is_save (e : Event) : bool :=
  match e with EvSaveState _ _ => true | _ => false end.

(** How many events of a kind a trace holds. *)
Definition count_events (kind : Event -> bool) (evs : list Event) : nat :=
  List.length (filter kind evs).

(** The node is healthy. *)
Definition is_healthy (n : ExitNodeInfo.t) : bool :=
  String.eqb (ExitNodeInfo.status n) "healthy".

Section Runs.
Context {E : Env}.

(** What [m] adds to the trace satisfies [P], from every state. *)
Definition adds {A} (P : list Event -> Prop) (m : M A) : Prop :=
  forall s, exists evs, trace (snd (m s)) = trace s ++ evs /\ P evs.

(** [m] adds at most [n] events of the kind. *)
Definition at_most {A} (kind : Event -> bool) (n : nat) (m : M A) : Prop :=
  adds (fun evs => (count_events kind evs <= n)%nat) m.

End Runs.

(** The listing holds a droplet with the id. *)
Definition listed (current : list Droplet.t) (droplet_id : string) : bool :=
  match TailscaleExitNodeManager.find_droplet droplet_id current with
  | Some _ => true
  | None => false
  end.

(** What a turn of the health check makes of node [n]: the id stays; a node
    whose droplet is missing from the listing is left as it is, a node found
    healthy has the status ["healthy"], any other is unhealthy or in
    error. *)
Definition checked_as (current : list Droplet.t) (n : ExitNodeInfo.t)
    (c : ExitNodeInfo.t * Verdict) : Prop :=
  ExitNodeInfo.droplet_id (fst c) = ExitNodeInfo.droplet_id n /\
  match snd c with
  | Vanished => fst c = n /\ listed current (ExitNodeInfo.droplet_id n) = false
  | Healthy => is_healthy (fst c) = true /\ listed current (ExitNodeInfo.droplet_id n) = true
  | Kept => TailscaleExitNodeManager.is_failed (fst c) = true /\
            listed current (ExitNodeInfo.droplet_id n) = true
  end.

Section Cache.
Context {E : Env}.

(** The droplet cache is set and, on the clock of [s], at most
    [cache_ttl_seconds] old. *)
Definition cache_fresh (s : St) : bool :=
  match droplets_cache s, cache_time s with
  | Some _, Some t =>
      negb (fst (time_time (world s)) - t >? DigitalOceanClient.cache_ttl_seconds)
  | _, _ => false
  end.

End Cache.

(** [img.slug is not None]. *)
Definition has_slug (img : Image.t) : bool :=
  match Image.slug img with Some _ => true | None => false end.

(** The image has a slug and the name occurs in it. *)
Definition slug_matches (image_name : string) (img : Image.t) : bool :=
  match Image.slug img with Some slug => contains image_name slug | None => false end.

(** The condition of the comprehension of [_select_optimal_size]. *)
Definition size_qualifies (region : Region.t) (s : Size.t) : bool :=
  TailscaleExitNodeManager.mem_string (Region.slug region) (Size.regions s)
  && (Size.memory s >=? 1000)
  && match Size.price_monthly s with Some _ => true | None => false end.

(** The size costs more than [p] a month, or has no price. *)
Definition dearer_than (p : Z) (s : Size.t) : bool :=
  match Size.price_monthly s with Some q => p <? q | None => true end.

(** The size costs [p] a month or more, or has no price. *)
Definition not_cheaper_than (p : Z) (s : Size.t) : bool :=
  match Size.price_monthly s with Some q => p <=? q | None => true end.

(** The calls of [_init_do_resources] to the provider, in their order. *)
Definition startup_calls : list Event :=
  [EvListDroplets; EvListRegions; EvListSizes; EvListImages].

(** The requests of [_get_status_via_http] to an instance, in their order,
    with their timeouts. *)
Definition status_requests (ip : string) : list Event :=
  [EvHttpGet (TailscaleExitNodeManager.endpoint ip "setup-complete") 10;
   EvHttpGet (TailscaleExitNodeManager.endpoint ip "tailscale-ip.txt") 5;
   EvHttpGet (TailscaleExitNodeManager.endpoint ip "tailscale-status.json") 5].

(** ** Further example scenarios *)

(** A wrapper with a shell variable in single braces. *)
Definition unescaped_pieces : list Piece :=
  [Text "H"; Text "="; Text "$"; Placeholder "HOME"].

Definition unescaped_files (path : string) : result string :=
  if contains "wrapper" path then Ok (template_text unescaped_pieces)
  else Ok "echo setup".

Definition unescaped_wrapper : @St (Scripted.env Scripted.no_environ) :=
  Scripted.start Scripted.no_environ
    (Scripted.with_files Scripted.quiet (fun _ => true) unescaped_files) [].

(** Both secrets are set and nothing else. *)
Definition secrets_only (name : string) : option string :=
  if String.eqb name "DO_TOKEN" then Some "do-token"
  else if String.eqb name "TS_AUTHKEY" then Some "ts-key"
  else None.

(** The target count is not a number. *)
Definition malformed_target (name : string) : option string :=
  if String.eqb name "TARGET_EXIT_NODES" then Some "two" else secrets_only name.

(** No file is in place. *)
Definition no_files : Scripted.Scenario :=
  Scripted.with_files Scripted.quiet (fun _ => false) (fun _ => Raise FileNotFoundError).

(** * Properties *)

Local Open Scope string_scope.
Local Open Scope list_scope.
Local Open Scope Z_scope.
Local Open Scope proc_scope.

Import TailscaleExitNodeManager.
Import Scripted Examples.

(** ** Timestamps through [isoformat] and [fromisoformat] *)

Lemma digit_cases d : 0 <= d < 10 ->
  digit d = "0"%char \/ digit d = "1"%char \/ digit d = "2"%char \/ digit d = "3"%char \/
  digit d = "4"%char \/ digit d = "5"%char \/ digit d = "6"%char \/ digit d = "7"%char \/
  digit d = "8"%char \/ digit d = "9"%char.
Proof.
  intros H.
  assert (d = 0 \/ d = 1 \/ d = 2 \/ d = 3 \/ d = 4 \/ d = 5 \/ d = 6 \/ d = 7 \/ d = 8 \/ d = 9) as C by lia.
  repeat (destruct C as [C | C]; [subst d; tauto |]). subst d; tauto.
Qed.

Lemma digit_val_digit d : 0 <= d < 10 -> digit_val (digit d) = Some d.
Proof.
  intros H.
  assert (d = 0 \/ d = 1 \/ d = 2 \/ d = 3 \/ d = 4 \/ d = 5 \/ d = 6 \/ d = 7 \/ d = 8 \/ d = 9) as C by lia.
  repeat (destruct C as [C | C]; [subst d; reflexivity |]). subst d; reflexivity.
Qed.

Lemma digit_not c d : 0 <= d < 10 -> digit_val c = None -> Ascii.eqb (digit d) c = false.
Proof.
  intros H Hc. destruct (Ascii.eqb_spec (digit d) c) as [E | E]; [| reflexivity].
  subst c. rewrite digit_val_digit in Hc by assumption. discriminate.
Qed.

Lemma parse2_fmt2 n k : 0 <= n < 100 -> parse2 (fmt2 n k) = Some (n, k).
Proof.
  intros H. unfold parse2, fmt2.
  rewrite !digit_val_digit.
  - f_equal. f_equal. pose proof (Z.div_mod n 10). lia.
  - apply Z.mod_pos_bound; lia.
  - split; [apply Z.div_pos; lia | apply Z.div_lt_upper_bound; lia].
Qed.

Lemma parse_digits_fmt2 n k acc : 0 <= n < 100 ->
  parse_digits (fmt2 n k) acc = parse_digits k (100 * acc + n).
Proof.
  intros H. unfold fmt2. cbn [parse_digits].
  rewrite !digit_val_digit.
  - f_equal. pose proof (Z.div_mod n 10). lia.
  - apply Z.mod_pos_bound; lia.
  - split; [apply Z.div_pos; lia | apply Z.div_lt_upper_bound; lia].
Qed.

Lemma parse_digits_fmt4 n k acc : 0 <= n < 10000 ->
  parse_digits (fmt4 n k) acc = parse_digits k (10000 * acc + n).
Proof.
  intros H. unfold fmt4. cbn [parse_digits].
  assert (0 <= n / 1000 < 10) by (split; [apply Z.div_pos; lia | apply Z.div_lt_upper_bound; lia]).
  assert (0 <= n / 100 mod 10 < 10) by (apply Z.mod_pos_bound; lia).
  assert (0 <= n mod 100 < 100) by (apply Z.mod_pos_bound; lia).
  rewrite !digit_val_digit by assumption.
  rewrite parse_digits_fmt2 by assumption. f_equal.
  pose proof (Z.div_mod n 100). pose proof (Z.div_mod (n / 100) 10).
  assert (n / 100 / 10 = n / 1000) by (rewrite Z.div_div by lia; reflexivity).
  lia.
Qed.

Lemma parse_digits_fmt6 n k acc : 0 <= n < 1000000 ->
  parse_digits (fmt6 n k) acc = parse_digits k (1000000 * acc + n).
Proof.
  intros H. unfold fmt6.
  assert (0 <= n / 10000 < 100) by (split; [apply Z.div_pos; lia | apply Z.div_lt_upper_bound; lia]).
  assert (0 <= n mod 10000 < 10000) by (apply Z.mod_pos_bound; lia).
  rewrite parse_digits_fmt2, parse_digits_fmt4 by assumption. f_equal.
  pose proof (Z.div_mod n 10000). lia.
Qed.

Lemma split_at_char c a k : Ascii.eqb a c = false ->
  split_at c (String a k) = glue (String a) (split_at c k).
Proof. intros H. cbn [split_at]. rewrite H. destruct (split_at c k) as [[x y]|]; reflexivity. Qed.

Lemma split_at_fmt2 c n k : digit_val c = None -> 0 <= n < 100 ->
  split_at c (fmt2 n k) = glue (fmt2 n) (split_at c k).
Proof.
  intros Hc H. unfold fmt2.
  rewrite !split_at_char.
  - destruct (split_at c k) as [[x y]|]; reflexivity.
  - apply digit_not; [apply Z.mod_pos_bound; lia | assumption].
  - apply digit_not; [| assumption].
    split; [apply Z.div_pos; lia | apply Z.div_lt_upper_bound; lia].
Qed.

Lemma split_at_fmt4 c n k : digit_val c = None -> 0 <= n < 10000 ->
  split_at c (fmt4 n k) = glue (fmt4 n) (split_at c k).
Proof.
  intros Hc H. unfold fmt4.
  rewrite !split_at_char, split_at_fmt2.
  - destruct (split_at c k) as [[x y]|]; reflexivity.
  - assumption.
  - apply Z.mod_pos_bound; lia.
  - apply digit_not; [apply Z.mod_pos_bound; lia | assumption].
  - apply digit_not; [| assumption].
    split; [apply Z.div_pos; lia | apply Z.div_lt_upper_bound; lia].
Qed.

Lemma split_at_fmt6 c n k : digit_val c = None -> 0 <= n < 1000000 ->
  split_at c (fmt6 n k) = glue (fmt6 n) (split_at c k).
Proof.
  intros Hc H. unfold fmt6.
  rewrite split_at_fmt2, split_at_fmt4.
  - destruct (split_at c k) as [[x y]|]; reflexivity.
  - assumption.
  - apply Z.mod_pos_bound; lia.
  - assumption.
  - split; [apply Z.div_pos; lia | apply Z.div_lt_upper_bound; lia].
Qed.


Lemma parse_clock_text h mi s us :
  0 <= h < 100 -> 0 <= mi < 100 -> 0 <= s < 100 -> 0 <= us < 1000000 ->
  parse_hh_mm_ss_ff (clock_text h mi s us "") = Some (h, mi, s, us).
Proof.
  intros Hh Hm Hs Hu. unfold clock_text, parse_hh_mm_ss_ff.
  rewrite parse2_fmt2 by assumption. cbn [Ascii.eqb Bool.eqb negb].
  rewrite parse2_fmt2 by assumption. cbn [Ascii.eqb Bool.eqb negb].
  rewrite parse2_fmt2 by assumption.
  destruct (Z.eqb_spec us 0) as [E | E]; [subst; reflexivity |].
  cbn [Ascii.eqb Bool.eqb negb].
  unfold parse_fraction.
  replace (String.length (fmt6 us "")) with 6%nat by reflexivity.
  cbn [Nat.eqb]. rewrite parse_digits_fmt6 by assumption. reflexivity.
Qed.

Lemma split_clock_text c h mi s us k :
  digit_val c = None -> Ascii.eqb ":" c = false -> Ascii.eqb "." c = false ->
  0 <= h < 100 -> 0 <= mi < 100 -> 0 <= s < 100 -> 0 <= us < 1000000 ->
  split_at c (clock_text h mi s us k) = glue (clock_text h mi s us) (split_at c k).
Proof.
  intros Hc Hcol Hdot Hh Hm Hs Hu. unfold clock_text.
  rewrite split_at_fmt2, (split_at_char c ":"), split_at_fmt2, (split_at_char c ":"), split_at_fmt2
    by assumption.
  destruct (Z.eqb_spec us 0) as [E | E].
  - destruct (split_at c k) as [[x y]|]; reflexivity.
  - rewrite (split_at_char c "."), split_at_fmt6 by assumption.
    destruct (split_at c k) as [[x y]|]; reflexivity.
Qed.

Lemma format_offset_body off :
  format_offset (Some off) =
  String (if off <? 0 then "-"%char else "+"%char) (offset_body (Z.abs off)).
Proof. reflexivity. Qed.

Lemma offset_parts a : 0 <= a < us_per_day ->
  let r := a mod us_per_hour in
  let ss := r mod us_per_minute in
  0 <= a / us_per_hour < 100 /\ 0 <= r / us_per_minute < 100 /\
  0 <= ss / us_per_second < 100 /\ 0 <= ss mod us_per_second < 1000000 /\
  a = a / us_per_hour * us_per_hour + r / us_per_minute * us_per_minute
      + ss / us_per_second * us_per_second + ss mod us_per_second.
Proof.
  intros H r ss. unfold us_per_day, us_per_hour, us_per_minute, us_per_second in *.
  assert (E1 := Z.div_mod a (60 * (60 * 1000000))).
  assert (B1 := Z.mod_pos_bound a (60 * (60 * 1000000))).
  fold r in E1, B1.
  assert (E2 := Z.div_mod r (60 * 1000000)).
  assert (B2 := Z.mod_pos_bound r (60 * 1000000)).
  fold ss in E2, B2.
  assert (E3 := Z.div_mod ss 1000000).
  assert (B3 := Z.mod_pos_bound ss 1000000).
  assert (0 <= a / (60 * (60 * 1000000)) < 100)
    by (split; [apply Z.div_pos; lia | apply Z.div_lt_upper_bound; lia]).
  assert (0 <= r / (60 * 1000000) < 100)
    by (split; [apply Z.div_pos; lia | apply Z.div_lt_upper_bound; lia]).
  assert (0 <= ss / 1000000 < 100)
    by (split; [apply Z.div_pos; lia | apply Z.div_lt_upper_bound; lia]).
  repeat split; try lia.
Qed.

Lemma parse_tz_offset_body neg a : 0 <= a < us_per_day ->
  parse_tz neg (offset_body a) = Some (if neg then - a else a).
Proof.
  intros H. destruct (offset_parts a H) as (Hh & Hm & Hs & Hu & E).
  unfold offset_body.
  set (r := a mod us_per_hour) in *. set (ss := r mod us_per_minute) in *.
  assert (Hss : ss = ss / us_per_second * us_per_second + ss mod us_per_second).
  { unfold us_per_second. pose proof (Z.div_mod ss 1000000). lia. }
  unfold parse_tz, parse_hh_mm_ss_ff.
  destruct (Z.eqb_spec ss 0) as [E0 | E0].
  - replace (String.length _) with 5%nat by reflexivity. cbn [Nat.eqb orb negb].
    rewrite parse2_fmt2 by assumption. cbn [Ascii.eqb Bool.eqb negb].
    rewrite parse2_fmt2 by assumption.
    f_equal. clearbody r ss. clear Hh Hm Hs Hu H. destruct neg; lia.
  - destruct (Z.eqb_spec (ss mod us_per_second) 0) as [E1 | E1].
    + replace (String.length _) with 8%nat by reflexivity. cbn [Nat.eqb orb negb].
      rewrite parse2_fmt2 by assumption. cbn [Ascii.eqb Bool.eqb negb].
      rewrite parse2_fmt2 by assumption. cbn [Ascii.eqb Bool.eqb negb].
      rewrite parse2_fmt2 by assumption.
      rewrite E1 in E. f_equal. destruct neg; rewrite <- E; reflexivity.
    + replace (String.length _) with 15%nat by reflexivity. cbn [Nat.eqb orb negb].
      rewrite parse2_fmt2 by assumption. cbn [Ascii.eqb Bool.eqb negb].
      rewrite parse2_fmt2 by assumption. cbn [Ascii.eqb Bool.eqb negb].
      rewrite parse2_fmt2 by assumption. cbn [Ascii.eqb Bool.eqb negb].
      unfold parse_fraction.
      replace (String.length (fmt6 _ "")) with 6%nat by reflexivity.
      cbn [Nat.eqb]. rewrite parse_digits_fmt6 by assumption.
      replace (1000000 * 0 + ss mod us_per_second) with (ss mod us_per_second) by lia.
      cbn [parse_digits]. f_equal. destruct neg; rewrite <- E; reflexivity.
Qed.

Lemma split_offset_body c a :
  digit_val c = None -> Ascii.eqb ":" c = false -> Ascii.eqb "." c = false ->
  0 <= a < us_per_day -> split_at c (offset_body a) = None.
Proof.
  intros Hc Hcol Hdot H. destruct (offset_parts a H) as (Hh & Hm & Hs & Hu & _).
  unfold offset_body.
  rewrite split_at_fmt2, (split_at_char c ":"), split_at_fmt2 by assumption.
  destruct (Z.eqb_spec (a mod us_per_hour mod us_per_minute) 0); [reflexivity |].
  rewrite (split_at_char c ":"), split_at_fmt2 by assumption.
  destruct (Z.eqb_spec ((a mod us_per_hour mod us_per_minute) mod us_per_second) 0);
    [reflexivity |].
  rewrite (split_at_char c "."), split_at_fmt6 by assumption. reflexivity.
Qed.

Lemma isoformat_clock d :
  isoformat d =
  fmt4 (year d) (String "-" (fmt2 (month d) (String "-" (fmt2 (day d)
    (String "T" (clock_text (hour d) (minute d) (second d) (microsecond d)
                   (format_offset (tzinfo d)))))))).
Proof. reflexivity. Qed.

Lemma clock_text_length h mi s us k :
  (String.length (clock_text h mi s us k) <? 2)%nat = false.
Proof. reflexivity. Qed.

Lemma clock_text_cons h mi s us k :
  exists c r, clock_text h mi s us k = String c r.
Proof. unfold clock_text, fmt2. eauto. Qed.

Lemma parse_time_roundtrip h mi s us tz :
  0 <= h < 100 -> 0 <= mi < 100 -> 0 <= s < 100 -> 0 <= us < 1000000 ->
  valid_tz tz = true ->
  parse_isoformat_time (clock_text h mi s us (format_offset tz)) = Some (h, mi, s, us, tz).
Proof.
  intros Hh Hm Hs Hu Htz. unfold parse_isoformat_time.
  rewrite clock_text_length.
  destruct tz as [off |].
  - cbn [valid_tz] in Htz. apply andb_prop in Htz. destruct Htz as [L U].
    apply Z.ltb_lt in L, U.
    assert (Ha : 0 <= Z.abs off < us_per_day) by lia.
    rewrite format_offset_body.
    destruct (Z.ltb_spec off 0) as [N | N].
    + rewrite split_clock_text by (assumption || reflexivity).
      cbn [split_at Ascii.eqb Bool.eqb glue].
      rewrite parse_clock_text by assumption.
      rewrite parse_tz_offset_body by assumption.
      do 3 f_equal. lia.
    + rewrite split_clock_text by (assumption || reflexivity).
      rewrite (split_at_char "-" "+") by reflexivity.
      rewrite split_offset_body by (assumption || reflexivity).
      cbn [glue].
      rewrite split_clock_text by (assumption || reflexivity).
      cbn [split_at Ascii.eqb Bool.eqb glue].
      rewrite parse_clock_text by assumption.
      rewrite parse_tz_offset_body by assumption.
      do 3 f_equal. lia.
  - cbn [format_offset].
    rewrite !split_clock_text by (assumption || reflexivity).
    cbn [split_at glue]. rewrite parse_clock_text by assumption. reflexivity.
Qed.

Lemma valid_bounds d : valid d = true ->
  1 <= year d <= 9999 /\ 1 <= month d <= 12 /\ 1 <= day d <= 31 /\
  0 <= hour d <= 23 /\ 0 <= minute d <= 59 /\ 0 <= second d <= 59 /\
  0 <= microsecond d <= 999999 /\ valid_tz (tzinfo d) = true.
Proof.
  unfold valid. intros H.
  repeat (apply andb_prop in H; let H' := fresh in destruct H as [H H']).
  repeat match goal with X : (_ <=? _) = true |- _ => apply Z.leb_le in X end.
  assert (days_in_month (year d) (month d) <= 31).
  { unfold days_in_month.
    repeat match goal with |- context [if ?b then _ else _] => destruct b end; lia. }
  repeat split; try lia; assumption.
Qed.

Example isoformat_utc :
  isoformat Scripted.later = "2025-06-01T12:05:00.250000+00:00".
Proof. reflexivity. Qed.

Example isoformat_negative_offset :
  isoformat (Datetime.mk 999 3 1 0 0 0 0 (Some (- 19800000000))) = "0999-03-01T00:00:00-05:30".
Proof. reflexivity. Qed.

Example fromisoformat_date_only :
  fromisoformat "2024-02-29" = Ok (Datetime.mk 2024 2 29 0 0 0 0 None).
Proof. reflexivity. Qed.

Example fromisoformat_not_a_day : fromisoformat "2023-02-29T00:00:00" = Raise ValueError.
Proof. reflexivity. Qed.

Example same_instant_equal :
  Datetime.eqb (Datetime.mk 2024 3 1 0 30 0 0 (Some 3600000000))
               (Datetime.mk 2024 2 29 23 30 0 0 (Some 0)) = true.
Proof. reflexivity. Qed.

Lemma fromisoformat_isoformat d : valid d = true -> fromisoformat (isoformat d) = Ok d.
Proof.
  intros V. destruct (valid_bounds d V) as (Hy & Hmo & Hd & Hh & Hmi & Hs & Hu & Htz).
  rewrite isoformat_clock. unfold fromisoformat, parse_isoformat_date.
  unfold fmt4 at 1. unfold fmt2 at 1.
  change (String (digit (year d / 1000)) (String (digit (year d / 100 mod 10))
            (String (digit (year d mod 100 / 10)) (String (digit ((year d mod 100) mod 10)) "")))) 
    with (fmt4 (year d) "").
  rewrite parse_digits_fmt4 by lia. cbn [Ascii.eqb Bool.eqb negb].
  rewrite parse2_fmt2 by lia. cbn [Ascii.eqb Bool.eqb negb].
  rewrite parse2_fmt2 by lia.
  destruct (clock_text_cons (hour d) (minute d) (second d) (microsecond d)
              (format_offset (tzinfo d))) as (c & r & E).
  cbn [parse_digits]. rewrite E. cbv beta iota. rewrite <- E.
  rewrite parse_time_roundtrip by (lia || assumption).
  replace (10000 * 0 + year d) with (year d) by lia.
  destruct d; cbn in *. rewrite V. reflexivity.
Qed.

(** ** Equality of tracked nodes *)

Lemma Datetime_eqb_refl d : Datetime.eqb d d = true.
Proof.
  unfold Datetime.eqb, Datetime.fields_eqb.
  destruct (Datetime.tzinfo d); rewrite ?Z.eqb_refl; reflexivity.
Qed.

Lemma ExitNodeInfo_eqb_refl n : ExitNodeInfo.eqb n n = true.
Proof.
  unfold ExitNodeInfo.eqb. rewrite !String.eqb_refl, !Datetime_eqb_refl. reflexivity.
Qed.

Lemma ExitNodeInfo_eqb_fields a b : ExitNodeInfo.eqb a b = true ->
  ExitNodeInfo.droplet_id a = ExitNodeInfo.droplet_id b /\
  ExitNodeInfo.status a = ExitNodeInfo.status b.
Proof.
  unfold ExitNodeInfo.eqb. intros H.
  repeat (apply andb_prop in H; let H' := fresh in destruct H as [H H']).
  split; apply String.eqb_eq; assumption.
Qed.

(** ** Removal from the tracked list *)

Section Removal.
Variable p : ExitNodeInfo.t -> bool.
Hypothesis p_eqb : forall y x, ExitNodeInfo.eqb y x = true -> p y = p x.

Lemma list_remove_skip pre x l :
  p x = true -> forallb (fun y => negb (p y)) pre = true ->
  list_remove x (pre ++ l) =
  match list_remove x l with Ok l' => Ok (pre ++ l') | Raise e => Raise e end.
Proof.
  intros Hx. induction pre as [| y pre IH]; intros Hpre; cbn [app list_remove forallb] in *.
  - destruct (list_remove x l); reflexivity.
  - apply andb_prop in Hpre. destruct Hpre as [Hy Hpre].
    destruct (ExitNodeInfo.eqb y x) eqn:Eq.
    + apply p_eqb in Eq. rewrite Eq, Hx in Hy. discriminate.
    + rewrite (IH Hpre). destruct (list_remove x l); reflexivity.
Qed.

Context {E : Env}.

Lemma remove_all_filter_gen l : forall pre s,
  forallb (fun y => negb (p y)) pre = true ->
  exit_nodes s = pre ++ l ->
  TailscaleExitNodeManager.remove_all (filter p l) s =
  (Ok tt, mkSt (world s) (trace s) (pre ++ filter (fun y => negb (p y)) l)
               (droplets_cache s) (cache_time s)).
Proof.
  induction l as [| y l IH]; intros pre s Hpre Hs; cbn [filter].
  - cbn. rewrite <- Hs. destruct s; reflexivity.
  - destruct (p y) eqn:Py; cbn [negb].
    + cbn [TailscaleExitNodeManager.remove_all]. unfold bind, get_exit_nodes.
      rewrite Hs, (list_remove_skip pre y (y :: l) Py Hpre).
      cbn [list_remove]. rewrite ExitNodeInfo_eqb_refl.
      unfold set_exit_nodes. cbn [fst snd].
      rewrite (IH pre) by (assumption || reflexivity). reflexivity.
    + rewrite (IH (pre ++ [y])).
      * rewrite <- app_assoc. reflexivity.
      * rewrite forallb_app, Hpre. cbn. rewrite Py. reflexivity.
      * rewrite Hs, <- app_assoc. reflexivity.
Qed.

Lemma remove_all_filter s :
  TailscaleExitNodeManager.remove_all (filter p (exit_nodes s)) s =
  (Ok tt, mkSt (world s) (trace s) (filter (fun y => negb (p y)) (exit_nodes s))
               (droplets_cache s) (cache_time s)).
Proof. apply (remove_all_filter_gen (exit_nodes s) [] s); reflexivity. Qed.

End Removal.

(** ** Traces and tracking through the monad *)

Section Running.
Context {E : Env}.

Lemma run_bind {A B} (m : M A) (k : A -> M B) s :
  bind m k s = match m s with
               | (Ok a, s') => k a s'
               | (Raise e, s') => (Raise e, s')
               end.
Proof. reflexivity. Qed.

Lemma run_try {A} (m : M A) (h : exn -> M A) s :
  try_except m h s = match m s with
                     | (Ok a, s') => (Ok a, s')
                     | (Raise e, s') => h e s'
                     end.
Proof. reflexivity. Qed.

Lemma run_call {A} ev (op : World -> result A * World) s :
  call ev op s =
  (fst (op (world s)),
   mkSt (snd (op (world s))) (trace s ++ [ev]) (exit_nodes s) (droplets_cache s)
        (cache_time s)).
Proof. unfold call. destruct (op (world s)); reflexivity. Qed.

Lemma run_observe {A} (op : World -> A * World) s :
  observe op s =
  (Ok (fst (op (world s))),
   mkSt (snd (op (world s))) (trace s) (exit_nodes s) (droplets_cache s) (cache_time s)).
Proof. unfold observe. destruct (op (world s)); reflexivity. Qed.

End Running.

Section Frames.
Context {E : Env}.
Variable Q : Event -> bool.

Lemma emits_ret {A} (a : A) : emits Q (ret a).
Proof. intros s. exists []. cbn. rewrite app_nil_r. auto. Qed.

Lemma emits_raise {A} e : emits Q (@raise E A e).
Proof. intros s. exists []. cbn. rewrite app_nil_r. auto. Qed.

Lemma emits_bind {A B} (m : M A) (k : A -> M B) :
  emits Q m -> (forall a, emits Q (k a)) -> emits Q (bind m k).
Proof.
  intros Hm Hk s. unfold bind. destruct (Hm s) as (e1 & T1 & Q1).
  destruct (m s) as [[a | e] s1]; cbn [snd] in *.
  - destruct (Hk a s1) as (e2 & T2 & Q2). exists (e1 ++ e2).
    rewrite T2, T1, app_assoc, forallb_app, Q1, Q2. auto.
  - exists e1. auto.
Qed.

Lemma emits_try {A} (m : M A) (h : exn -> M A) :
  emits Q m -> (forall e, emits Q (h e)) -> emits Q (try_except m h).
Proof.
  intros Hm Hh s. unfold try_except. destruct (Hm s) as (e1 & T1 & Q1).
  destruct (m s) as [[a | e] s1]; cbn [snd] in *.
  - exists e1. auto.
  - destruct (Hh e s1) as (e2 & T2 & Q2). exists (e1 ++ e2).
    rewrite T2, T1, app_assoc, forallb_app, Q1, Q2. auto.
Qed.

Lemma emits_call {A} ev (op : World -> result A * World) :
  Q ev = true -> emits Q (call ev op).
Proof.
  intros H s. unfold call. destruct (op (world s)) as [r w]. exists [ev].
  cbn. rewrite H. auto.
Qed.

Lemma emits_observe {A} (op : World -> A * World) : emits Q (observe op).
Proof.
  intros s. unfold observe. destruct (op (world s)) as [r w]. exists [].
  cbn. rewrite app_nil_r. auto.
Qed.

Lemma emits_sleep n : Q (EvSleep n) = true -> emits Q (sleep n).
Proof. intros H s. exists [EvSleep n]. cbn. rewrite H. auto. Qed.

Lemma emits_get_exit_nodes : emits Q get_exit_nodes.
Proof. intros s. exists []. cbn. rewrite app_nil_r. auto. Qed.

Lemma emits_set_exit_nodes l : emits Q (set_exit_nodes l).
Proof. intros s. exists []. cbn. rewrite app_nil_r. auto. Qed.

Lemma emits_get_cache : emits Q get_cache.
Proof. intros s. exists []. cbn. rewrite app_nil_r. auto. Qed.

Lemma emits_set_cache c t : emits Q (set_cache c t).
Proof. intros s. exists []. cbn. rewrite app_nil_r. auto. Qed.

Lemma emits_lift {A} (r : result A) : emits Q (TailscaleExitNodeManager.lift r).
Proof. destruct r; [apply emits_ret | apply emits_raise]. Qed.

Lemma emits_matmul_decorator {A} : emits Q (@TailscaleExitNodeManager.matmul_decorator E A).
Proof. apply emits_raise. Qed.

Lemma keeps_ret {A} (a : A) : keeps_tracking (ret a).
Proof. intros s. reflexivity. Qed.

Lemma keeps_raise {A} e : keeps_tracking (@raise E A e).
Proof. intros s. reflexivity. Qed.

Lemma keeps_bind {A B} (m : M A) (k : A -> M B) :
  keeps_tracking m -> (forall a, keeps_tracking (k a)) -> keeps_tracking (bind m k).
Proof.
  intros Hm Hk s. unfold bind. specialize (Hm s).
  destruct (m s) as [[a | e] s1]; cbn [snd] in *; [rewrite Hk |]; assumption.
Qed.

Lemma keeps_try {A} (m : M A) (h : exn -> M A) :
  keeps_tracking m -> (forall e, keeps_tracking (h e)) -> keeps_tracking (try_except m h).
Proof.
  intros Hm Hh s. unfold try_except. specialize (Hm s).
  destruct (m s) as [[a | e] s1]; cbn [snd] in *; [| rewrite Hh]; assumption.
Qed.

Lemma keeps_call {A} ev (op : World -> result A * World) : keeps_tracking (call ev op).
Proof. intros s. unfold call. destruct (op (world s)). reflexivity. Qed.

Lemma keeps_observe {A} (op : World -> A * World) : keeps_tracking (observe op).
Proof. intros s. unfold observe. destruct (op (world s)). reflexivity. Qed.

Lemma keeps_sleep n : keeps_tracking (sleep n).
Proof. intros s. reflexivity. Qed.

Lemma keeps_get_exit_nodes : keeps_tracking get_exit_nodes.
Proof. intros s. reflexivity. Qed.

Lemma keeps_get_cache : keeps_tracking get_cache.
Proof. intros s. reflexivity. Qed.

Lemma keeps_set_cache c t : keeps_tracking (set_cache c t).
Proof. intros s. reflexivity. Qed.

Lemma keeps_lift {A} (r : result A) : keeps_tracking (TailscaleExitNodeManager.lift r).
Proof. destruct r; [apply keeps_ret | apply keeps_raise]. Qed.

Lemma keeps_matmul_decorator {A} :
  keeps_tracking (@TailscaleExitNodeManager.matmul_decorator E A).
Proof. apply keeps_raise. Qed.

Lemma never_ret {A} (a : A) : never_raises (ret a).
Proof. intros s. exists a. reflexivity. Qed.

Lemma never_bind {A B} (m : M A) (k : A -> M B) :
  never_raises m -> (forall a, never_raises (k a)) -> never_raises (bind m k).
Proof.
  intros Hm Hk s. unfold bind. destruct (Hm s) as (a & Ha).
  destruct (m s) as [[a' | e] s1]; cbn [fst] in *; [apply Hk | discriminate].
Qed.

Lemma never_try {A} (m : M A) (h : exn -> M A) :
  (forall e, never_raises (h e)) -> never_raises (try_except m h).
Proof.
  intros Hh s. unfold try_except.
  destruct (m s) as [[a | e] s1]; [exists a; reflexivity | apply Hh].
Qed.

Lemma never_observe {A} (op : World -> A * World) : never_raises (observe op).
Proof. intros s. unfold observe. destruct (op (world s)) as [a w]. exists a. reflexivity. Qed.

Lemma never_get_exit_nodes : never_raises get_exit_nodes.
Proof. intros s. eexists. reflexivity. Qed.

Lemma never_set_exit_nodes l : never_raises (set_exit_nodes l).
Proof. intros s. eexists. reflexivity. Qed.

Lemma never_get_cache : never_raises get_cache.
Proof. intros s. eexists. reflexivity. Qed.

Lemma never_set_cache c t : never_raises (set_cache c t).
Proof. intros s. eexists. reflexivity. Qed.

Lemma never_sleep n : never_raises (sleep n).
Proof. intros s. eexists. reflexivity. Qed.

End Frames.

Create HintDb frames.
#[export] Hint Resolve emits_ret emits_raise emits_observe emits_get_exit_nodes
  emits_set_exit_nodes emits_get_cache emits_set_cache emits_lift
  emits_matmul_decorator keeps_matmul_decorator
  keeps_ret keeps_raise keeps_call keeps_observe keeps_sleep keeps_get_exit_nodes
  keeps_get_cache keeps_set_cache keeps_lift
  never_ret never_observe never_get_exit_nodes never_set_exit_nodes never_get_cache
  never_set_cache never_sleep : frames.

(** Goals about [emits], [keeps_tracking] and [never_raises] follow the shape
    of the program. *)
Ltac frame_step :=
  match goal with
  | |- forall _, _ => intro
  | |- emits _ (bind _ _) => apply emits_bind
  | |- emits _ (try_except _ _) => apply emits_try
  | |- emits _ (call _ _) => apply emits_call; auto
  | |- emits _ (sleep _) => apply emits_sleep; auto
  | |- keeps_tracking (bind _ _) => apply keeps_bind
  | |- keeps_tracking (try_except _ _) => apply keeps_try
  | |- never_raises (bind _ _) => apply never_bind
  | |- never_raises (try_except _ _) => apply never_try
  | |- _ (match ?x with _ => _ end) => destruct x
  | |- _ _ (match ?x with _ => _ end) => destruct x
  | |- _ => solve [auto with frames]
  end.

Ltac frames := repeat frame_step.

(** ** Which events the steps of the program add *)

Section Program.
Context {E : Env}.
Variable Q : Event -> bool.
Hypothesis HQ : forall e, is_submit e = false -> Q e = true.

Local Hint Extern 1 (Q _ = true) => (apply HQ; reflexivity) : core frames.

Lemma emits_exists path : emits Q (CloudInitScriptGenerator.exists_ path).
Proof. unfold CloudInitScriptGenerator.exists_. frames. Qed.

Lemma emits_generate g k l :
  emits Q (CloudInitScriptGenerator.generate_tailscale_script g k l).
Proof. unfold CloudInitScriptGenerator.generate_tailscale_script. frames. Qed.

Lemma emits_get_droplets force : emits Q (DigitalOceanClient.get_droplets force).
Proof. unfold DigitalOceanClient.get_droplets. frames. Qed.

Lemma emits_get_droplet id : emits Q (DigitalOceanClient.get_droplet id).
Proof. unfold DigitalOceanClient.get_droplet. frames. Qed.

Lemma emits_get_action id : emits Q (DigitalOceanClient.get_action id).
Proof. unfold DigitalOceanClient.get_action. frames. Qed.

Lemma emits_http_get url t : emits Q (http_get url t).
Proof. unfold http_get. frames. Qed.

Local Hint Resolve emits_exists emits_generate emits_get_droplets emits_get_droplet
  emits_get_action emits_http_get : frames.

Lemma emits_get_status ip : emits Q (_get_status_via_http ip).
Proof. unfold _get_status_via_http. frames. Qed.
Local Hint Resolve emits_get_status : frames.

Lemma emits_get_node_status d : emits Q (_get_node_status d).
Proof. unfold _get_node_status. frames. Qed.
Local Hint Resolve emits_get_node_status : frames.

Lemma emits_wait ip t : emits Q (_wait_for_http_ready ip t).
Proof. unfold _wait_for_http_ready. frames. Qed.

Lemma emits_create self : emits Q (_create_droplet self).
Proof. unfold _create_droplet. frames. Qed.

Lemma emits_destroy d : emits Q (destroy d).
Proof. unfold destroy. frames. Qed.
Local Hint Resolve emits_wait emits_create emits_destroy : frames.

Lemma emits_provision_single self : emits Q (_provision_single_node self).
Proof. unfold _provision_single_node. frames. Qed.
Local Hint Resolve emits_provision_single : frames.

Lemma emits_collect self n : emits Q (collect_results self n).
Proof. induction n; cbn [collect_results]; frames. Qed.

Lemma emits_check_node cur n : emits Q (check_node cur n).
Proof. unfold check_node, check_node_with. frames. Qed.
Local Hint Resolve emits_check_node : frames.

Lemma emits_check_nodes cur l : emits Q (check_nodes cur l).
Proof. induction l; cbn [check_nodes]; frames. Qed.

Lemma emits_remove_all l : emits Q (remove_all l).
Proof. induction l; cbn [remove_all]; frames. Qed.
Local Hint Resolve emits_check_nodes emits_remove_all : frames.

Lemma emits_check_existing : emits Q _check_existing_nodes.
Proof. unfold _check_existing_nodes. frames. Qed.

Lemma emits_cleanup_nodes l : emits Q (cleanup_nodes l).
Proof. induction l; cbn [cleanup_nodes]; frames. Qed.
Local Hint Resolve emits_cleanup_nodes : frames.

Lemma emits_cleanup : emits Q _cleanup_failed_nodes.
Proof. unfold _cleanup_failed_nodes. frames. Qed.

Lemma emits_save self : emits Q (_save_exit_nodes self).
Proof. unfold _save_exit_nodes. frames. Qed.

End Program.

(** ** Batch provisioning *)

Section Tracking.
Context {E : Env}.

Lemma keeps_http_get url t : keeps_tracking (http_get url t).
Proof. unfold http_get. frames. Qed.
Local Hint Resolve keeps_http_get : frames.

Lemma keeps_get_status ip : keeps_tracking (_get_status_via_http ip).
Proof. unfold _get_status_via_http. frames. Qed.
Local Hint Resolve keeps_get_status : frames.

Lemma keeps_get_node_status d : keeps_tracking (_get_node_status d).
Proof. unfold _get_node_status. frames. Qed.

Lemma never_get_node_status d : never_raises (_get_node_status d).
Proof. unfold _get_node_status. frames. Qed.
Local Hint Resolve keeps_get_node_status never_get_node_status : frames.

Lemma keeps_wait ip t : keeps_tracking (_wait_for_http_ready ip t).
Proof. unfold _wait_for_http_ready. frames. Qed.

Lemma keeps_generate g k l :
  keeps_tracking (CloudInitScriptGenerator.generate_tailscale_script g k l).
Proof. unfold CloudInitScriptGenerator.generate_tailscale_script. frames. Qed.
Local Hint Resolve keeps_wait keeps_generate : frames.

Lemma keeps_create self : keeps_tracking (_create_droplet self).
Proof.
  unfold _create_droplet, DigitalOceanClient.get_action, DigitalOceanClient.get_droplet.
  frames.
Qed.

Lemma keeps_destroy d : keeps_tracking (destroy d).
Proof. unfold destroy. frames. Qed.
Local Hint Resolve keeps_create keeps_destroy : frames.

Lemma keeps_provision_single self : keeps_tracking (_provision_single_node self).
Proof. unfold _provision_single_node. frames. Qed.

Lemma never_provision_single self : never_raises (_provision_single_node self).
Proof. unfold _provision_single_node. frames. Qed.
Local Hint Resolve keeps_provision_single never_provision_single : frames.

Lemma keeps_collect self n : keeps_tracking (collect_results self n).
Proof. induction n; cbn [collect_results]; frames. Qed.

Lemma never_collect self n : never_raises (collect_results self n).
Proof. induction n; cbn [collect_results]; frames. Qed.

(** The batch collects at most one node per task. *)
Lemma collect_length self n s :
  exists nodes, fst (collect_results self n s) = Ok nodes /\ (List.length nodes <= n)%nat.
Proof.
  revert s. induction n as [| n IH]; intros s; cbn [collect_results].
  - exists []. split; [reflexivity | cbn; lia].
  - unfold bind, try_except.
    destruct (never_provision_single self s) as (o & Ho).
    destruct (_provision_single_node self s) as [[o' | e] s1]; cbn [fst] in Ho; [| discriminate].
    destruct (IH s1) as (rest & Hr & Hl).
    destruct (collect_results self n s1) as [[rest' | e] s2]; cbn [fst] in Hr; [| discriminate].
    injection Hr as ->. cbn [ret fst].
    destruct o'; eexists; (split; [reflexivity | cbn; lia]).
Qed.

Lemma submit_all_spec n : forall i s,
  submit_all n i s =
  (Ok tt, mkSt (world s) (trace s ++ map EvSubmit (seq i n)) (exit_nodes s)
               (droplets_cache s) (cache_time s)).
Proof.
  induction n as [| n IH]; intros i s; cbn [submit_all seq map].
  - cbn. rewrite app_nil_r. destruct s; reflexivity.
  - unfold bind, call. cbn [fst snd]. rewrite IH. cbn [world trace exit_nodes droplets_cache cache_time].
    rewrite <- app_assoc. reflexivity.
Qed.

Lemma count_submits_app a b : count_submits (a ++ b) = count_submits a + count_submits b.
Proof. unfold count_submits. rewrite filter_app, length_app. lia. Qed.

Lemma count_submits_none evs :
  forallb (fun e => negb (is_submit e)) evs = true -> count_submits evs = 0.
Proof.
  unfold count_submits. induction evs as [| e evs IH]; cbn; [reflexivity |].
  intros H. apply andb_prop in H. destruct H as [He H].
  destruct (is_submit e); [discriminate | auto].
Qed.

Lemma count_submits_seq i n : count_submits (map EvSubmit (seq i n)) = Z.of_nat n.
Proof.
  unfold count_submits. revert i. induction n as [| n IH]; intros i; cbn [seq map filter is_submit].
  - reflexivity.
  - cbn [List.length]. specialize (IH (S i)). lia.
Qed.

(** [m] adds no task to the pool. *)
Lemma no_submit_count {A} (m : M A) s :
  emits (fun e => negb (is_submit e)) m ->
  count_submits (trace (snd (m s))) = count_submits (trace s).
Proof.
  intros H. destruct (H s) as (evs & T & Hq).
  rewrite T, count_submits_app, (count_submits_none evs Hq). lia.
Qed.

Lemma not_submit_ok e : is_submit e = false -> negb (is_submit e) = true.
Proof. intros ->. reflexivity. Qed.

(** [_provision_nodes] with a positive count: that many tasks are
    submitted, and at most that many nodes are appended to the tracked
    list. *)
Lemma provision_nodes_spec self count s : 0 < count ->
  exists added s',
    _provision_nodes self count s = (Ok tt, s') /\
    exit_nodes s' = exit_nodes s ++ added /\
    Z.of_nat (List.length added) <= count /\
    count_submits (trace s') = count_submits (trace s) + count.
Proof.
  intros Hc. unfold _provision_nodes.
  destruct (Z.leb_spec count 0) as [L | _]; [lia |].
  unfold bind at 1. rewrite submit_all_spec.
  set (s1 := mkSt _ _ _ _ _).
  unfold bind at 1.
  pose proof (collect_length self (Z.to_nat count) s1) as (nodes & Hn & Hl).
  pose proof (keeps_collect self (Z.to_nat count) s1) as Hk.
  pose proof (no_submit_count (collect_results self (Z.to_nat count)) s1
                (emits_collect _ not_submit_ok self _)) as Ht.
  destruct (collect_results self (Z.to_nat count) s1) as [[nodes' | e] s2];
    cbn [fst snd] in *; [| discriminate].
  injection Hn as ->.
  assert (Hs1 : count_submits (trace s1) = count_submits (trace s) + count).
  { subst s1. cbn [trace]. rewrite count_submits_app, count_submits_seq. lia. }
  destruct nodes as [| n nodes].
  - exists [], s2. cbn [ret]. rewrite app_nil_r. repeat split; try (cbn; lia).
    rewrite Hk. reflexivity.
  - exists (n :: nodes), (mkSt (world s2) (trace s2) (exit_nodes s2 ++ n :: nodes)
                              (droplets_cache s2) (cache_time s2)).
    cbn [exit_nodes trace]. repeat split; try lia.
    rewrite Hk. reflexivity.
Qed.

End Tracking.

(** ** Cleanup and the health check *)

Section Passes.
Context {E : Env}.

Lemma keeps_get_droplets force : keeps_tracking (DigitalOceanClient.get_droplets force).
Proof. unfold DigitalOceanClient.get_droplets. frames. Qed.

Lemma never_get_droplets force : never_raises (DigitalOceanClient.get_droplets force).
Proof. unfold DigitalOceanClient.get_droplets. frames. Qed.

Lemma is_failed_eqb y x : ExitNodeInfo.eqb y x = true -> is_failed y = is_failed x.
Proof.
  intros H. apply ExitNodeInfo_eqb_fields in H. destruct H as [_ H].
  unfold is_failed. rewrite H. reflexivity.
Qed.

(** The destroy attempt of one failed node. *)
Lemma destroy_attempt_run node_info s :
  exists s',
    try_except
      (bind (DigitalOceanClient.get_droplet (ExitNodeInfo.droplet_id node_info))
            (fun droplet => destroy droplet))
      (fun _ => ret tt) s = (Ok tt, s') /\
    exit_nodes s' = exit_nodes s /\
    trace s' = trace s ++ destroy_attempt (world s) node_info.
Proof.
  unfold try_except, bind, DigitalOceanClient.get_droplet, destroy, call, destroy_attempt.
  destruct (manager_get_droplet (ExitNodeInfo.droplet_id node_info) (world s)) as [[d | e] w1];
    cbn [world trace fst snd].
  - destruct (droplet_destroy d w1) as [[[] | e] w2]; eexists; cbn [ret];
      (split; [reflexivity |]); cbn [exit_nodes trace]; rewrite <- app_assoc; auto.
  - eexists. cbn [ret]. split; [reflexivity |]. auto.
Qed.

Lemma cleanup_nodes_spec nodes : forall s,
  exists s' segments,
    cleanup_nodes nodes s = (Ok (filter is_failed nodes), s') /\
    exit_nodes s' = exit_nodes s /\
    trace s' = trace s ++ List.concat segments /\
    Forall2 (fun n seg => exists w, seg = destroy_attempt w n)
            (filter is_failed nodes) segments.
Proof.
  induction nodes as [| n nodes IH]; intros s; cbn [cleanup_nodes filter].
  - exists s, []. cbn. rewrite app_nil_r. auto.
  - destruct (is_failed n).
    + rewrite run_bind.
      destruct (destroy_attempt_run n s) as (s1 & R1 & N1 & T1). rewrite R1.
      rewrite run_bind.
      destruct (IH s1) as (s2 & segs & R2 & N2 & T2 & F2). rewrite R2.
      exists s2, (destroy_attempt (world s) n :: segs). cbn [ret List.concat].
      repeat split.
      * congruence.
      * rewrite T2, T1, app_assoc. reflexivity.
      * constructor; eauto.
    + apply IH.
Qed.

Lemma cleanup_spec s :
  exists s' segments,
    _cleanup_failed_nodes s = (Ok tt, s') /\
    exit_nodes s' = filter (fun n => negb (is_failed n)) (exit_nodes s) /\
    trace s' = trace s ++ List.concat segments /\
    Forall2 (fun n seg => exists w, seg = destroy_attempt w n)
            (filter is_failed (exit_nodes s)) segments.
Proof.
  unfold _cleanup_failed_nodes, bind, get_exit_nodes.
  destruct (cleanup_nodes_spec (exit_nodes s) s) as (s1 & segs & R1 & N1 & T1 & F1).
  rewrite R1, <- N1, (remove_all_filter is_failed is_failed_eqb s1).
  eexists _, segs. split; [reflexivity |]. cbn [exit_nodes trace]. rewrite N1. auto.
Qed.

Lemma is_gone_eqb current y x :
  ExitNodeInfo.eqb y x = true -> is_gone current y = is_gone current x.
Proof.
  intros H. apply ExitNodeInfo_eqb_fields in H. destruct H as [H _].
  unfold is_gone. rewrite H. reflexivity.
Qed.

(** A turn of the health check returns, touches no list, keeps the id of
    the node, and files the node as vanished exactly when its droplet is
    missing. *)
Lemma check_node_sound current node_info s :
  exists c s',
    check_node current node_info s = (Ok c, s') /\
    exit_nodes s' = exit_nodes s /\
    is_vanished c = is_gone current (fst c).
Proof.
  unfold check_node, check_node_with, try_except, is_gone.
  destruct (find_droplet (ExitNodeInfo.droplet_id node_info) current) as [d |] eqn:F.
  - destruct (String.eqb (Droplet.status d) "active").
    + rewrite run_bind.
      pose proof (keeps_get_node_status d s) as K.
      destruct (_get_node_status d s) as [[o | e] s1]; cbn [snd] in K.
      * unfold observe.
        destruct o as [[ip | ip ts data] |]; unfold bind, observe;
          destruct (datetime_now (world s1)) as [now w2]; cbn [ret];
          eexists _, _; (split; [reflexivity |]); cbn; rewrite F; auto.
      * eexists _, _. split; [reflexivity |]. cbn. rewrite F. auto.
    + eexists _, _. split; [reflexivity |]. cbn. rewrite F. auto.
  - eexists _, _. split; [reflexivity |]. cbn. rewrite F. auto.
Qed.

Lemma check_nodes_sound current nodes : forall s,
  exists checked s',
    check_nodes current nodes s = (Ok checked, s') /\
    exit_nodes s' = exit_nodes s /\
    List.length checked = List.length nodes /\
    map fst (filter is_vanished checked) = filter (is_gone current) (map fst checked).
Proof.
  induction nodes as [| n nodes IH]; intros s; cbn [check_nodes].
  - exists [], s. auto.
  - rewrite run_bind.
    destruct (check_node_sound current n s) as (c & s1 & R1 & N1 & V1). rewrite R1.
    rewrite run_bind.
    destruct (IH s1) as (cs & s2 & R2 & N2 & L2 & V2). rewrite R2.
    exists (c :: cs), s2. cbn [ret]. repeat split.
    + congruence.
    + cbn. congruence.
    + cbn [filter map]. rewrite <- V1. destruct (is_vanished c); cbn [map]; congruence.
Qed.

(** The health check returns, and the tracked list it leaves is the list of
    the checked nodes without those whose droplet is missing. *)
Lemma check_existing_spec s :
  exists current (checked : list (ExitNodeInfo.t * Verdict)) healthy s',
    _check_existing_nodes s = (Ok healthy, s') /\
    List.length checked = List.length (exit_nodes s) /\
    exit_nodes s' = filter (fun n => negb (is_gone current n)) (map fst checked).
Proof.
  unfold _check_existing_nodes. rewrite run_bind.
  destruct (never_get_droplets false s) as (current & Hc).
  pose proof (keeps_get_droplets false s) as K.
  destruct (DigitalOceanClient.get_droplets false s) as [[current' | e] s1];
    cbn [fst snd] in *; [| discriminate].
  injection Hc as ->.
  rewrite run_bind. unfold get_exit_nodes at 1. rewrite run_bind.
  destruct (check_nodes_sound current (exit_nodes s1) s1) as (cs & s2 & R2 & N2 & L2 & V2).
  rewrite R2. rewrite run_bind. unfold set_exit_nodes at 1. rewrite run_bind.
  rewrite V2.
  set (s3 := mkSt (world s2) (trace s2) (map fst cs) (droplets_cache s2) (cache_time s2)).
  change (map fst cs) with (exit_nodes s3).
  rewrite (remove_all_filter (is_gone current) (is_gone_eqb current) s3).
  exists current, cs. eexists _, _. split; [reflexivity |]. cbn [exit_nodes].
  split; [congruence | reflexivity].
Qed.

Lemma filter_length_le {A} (f : A -> bool) l : (List.length (filter f l) <= List.length l)%nat.
Proof. induction l as [| a l IH]; cbn; [lia | destruct (f a); cbn; lia]. Qed.

Lemma check_existing_length s :
  exists healthy s',
    _check_existing_nodes s = (Ok healthy, s') /\
    (List.length (exit_nodes s') <= List.length (exit_nodes s))%nat.
Proof.
  destruct (check_existing_spec s) as (cur & cs & h & s' & R & L & N).
  exists h, s'. split; [assumption |].
  rewrite N. etransitivity; [apply filter_length_le |]. rewrite length_map. lia.
Qed.

Lemma save_spec self s :
  exists s', _save_exit_nodes self s = (Ok tt, s') /\ exit_nodes s' = exit_nodes s.
Proof.
  unfold _save_exit_nodes, try_except, bind, get_exit_nodes, call.
  destruct (json_dump _ _ (world s)) as [[[] | e] w]; eexists; split; reflexivity.
Qed.

End Passes.

(** ** The reconciliation cycle *)

Section Cycle.
Context {E : Env}.

(** The first two passes of a cycle: they return, submit nothing and do not
    lengthen the tracked list. *)
Lemma passes_spec s :
  exists s1,
    bind _check_existing_nodes (fun _ => _cleanup_failed_nodes) s = (Ok tt, s1) /\
    (List.length (exit_nodes s1) <= List.length (exit_nodes s))%nat /\
    count_submits (trace s1) = count_submits (trace s).
Proof.
  rewrite run_bind.
  destruct (check_existing_length s) as (h & s0 & R0 & L0).
  pose proof (no_submit_count _check_existing_nodes s
                (emits_check_existing _ not_submit_ok)) as T0.
  rewrite R0 in *. cbn [snd] in T0.
  destruct (cleanup_spec s0) as (s1 & segs & R1 & N1 & _).
  pose proof (no_submit_count _cleanup_failed_nodes s0
                (emits_cleanup _ not_submit_ok)) as T1.
  rewrite R1 in *. cbn [snd] in T1.
  exists s1. split; [reflexivity |]. split; [| congruence].
  rewrite N1. etransitivity; [apply filter_length_le | assumption].
Qed.

(** A cycle after its first two passes: [provision_count] tasks are
    submitted and at most as many nodes are appended. *)
Lemma run_cycle_spec self s :
  exists s1 s',
    bind _check_existing_nodes (fun _ => _cleanup_failed_nodes) s = (Ok tt, s1) /\
    (List.length (exit_nodes s1) <= List.length (exit_nodes s))%nat /\
    run_cycle self s = (Ok tt, s') /\
    count_submits (trace s') - count_submits (trace s)
      = provision_count (config self) (exit_nodes s1) /\
    Z.of_nat (List.length (exit_nodes s'))
      <= Z.of_nat (List.length (exit_nodes s1))
         + provision_count (config self) (exit_nodes s1).
Proof.
  destruct (passes_spec s) as (s1 & R1 & L1 & T1).
  exists s1.
  assert (Hsave : forall s2, exists s', _save_exit_nodes self s2 = (Ok tt, s') /\
            exit_nodes s' = exit_nodes s2 /\
            count_submits (trace s') = count_submits (trace s2)).
  { intros s2. destruct (save_spec self s2) as (s' & R & N).
    pose proof (no_submit_count (_save_exit_nodes self) s2
                  (emits_save _ not_submit_ok self)) as T.
    rewrite R in T. eauto. }
  unfold provision_count.
  set (needed := Z.max 0 (Config.target_nodes (config self) - healthy_count (exit_nodes s1))).
  set (tracked := Z.of_nat (List.length (exit_nodes s1))).
  assert (Hcycle : run_cycle self s =
     bind (if needed >? 0 then
             if tracked + needed <=? Config.max_nodes (config self) then
               _provision_nodes self needed
             else if Z.max 0 (Config.max_nodes (config self) - tracked) >? 0 then
               _provision_nodes self (Z.max 0 (Config.max_nodes (config self) - tracked))
             else ret tt
           else ret tt)
          (fun _ => _save_exit_nodes self) s1).
  { unfold run_cycle. rewrite run_bind.
    rewrite run_bind in R1.
    destruct (_check_existing_nodes s) as [[h | e] s0]; [| discriminate].
    rewrite run_bind, R1. reflexivity. }
  rewrite Hcycle. clear Hcycle.
  cut (exists s',
         bind (if needed >? 0 then
                 if tracked + needed <=? Config.max_nodes (config self) then
                   _provision_nodes self needed
                 else if Z.max 0 (Config.max_nodes (config self) - tracked) >? 0 then
                   _provision_nodes self (Z.max 0 (Config.max_nodes (config self) - tracked))
                 else ret tt
               else ret tt)
              (fun _ => _save_exit_nodes self) s1 = (Ok tt, s') /\
         count_submits (trace s') - count_submits (trace s1)
           = (if needed >? 0 then
                if tracked + needed <=? Config.max_nodes (config self) then needed
                else Z.max 0 (Config.max_nodes (config self) - tracked)
              else 0) /\
         Z.of_nat (List.length (exit_nodes s'))
           <= tracked + (if needed >? 0 then
                if tracked + needed <=? Config.max_nodes (config self) then needed
                else Z.max 0 (Config.max_nodes (config self) - tracked)
              else 0)).
  { intros (s' & R & T & N). exists s'. repeat split; try assumption. lia. }
  rewrite run_bind.
  destruct (Z.gtb_spec needed 0) as [Hn | Hn].
  - destruct (Z.leb_spec (tracked + needed) (Config.max_nodes (config self))) as [Hm | Hm].
    + destruct (provision_nodes_spec self needed s1 Hn) as (added & s2 & R2 & N2 & L2 & T2).
      rewrite R2. destruct (Hsave s2) as (s' & R & N & T). exists s'.
      rewrite N, N2, length_app. repeat split; try assumption; lia.
    + destruct (Z.gtb_spec (Z.max 0 (Config.max_nodes (config self) - tracked)) 0) as [Hp | Hp].
      * destruct (provision_nodes_spec self _ s1 Hp) as (added & s2 & R2 & N2 & L2 & T2).
        rewrite R2. destruct (Hsave s2) as (s' & R & N & T). exists s'.
        rewrite N, N2, length_app. repeat split; try assumption; lia.
      * cbn [ret]. destruct (Hsave s1) as (s' & R & N & T). exists s'.
        rewrite N. repeat split; try assumption; lia.
  - cbn [ret]. destruct (Hsave s1) as (s' & R & N & T). exists s'.
    rewrite N. repeat split; try assumption; lia.
Qed.

End Cycle.

(** C2.  In every cycle, with the tracked list as the health check and the
    cleanup leave it, [needed = max(0, target - healthy)]; the number of
    provisioning attempts started in the cycle is [needed] when
    [tracked + needed <= max] and [max(0, max - tracked)] otherwise.  With
    [needed = 5] and [max - tracked = 2] exactly 2 are started. *)
Theorem provisioning_decision {E : Env} (self : t) (s : St) :
  exists s1 s',
    bind _check_existing_nodes (fun _ => _cleanup_failed_nodes) s = (Ok tt, s1) /\
    run_cycle self s = (Ok tt, s') /\
    let tracked := Z.of_nat (List.length (exit_nodes s1)) in
    let needed := Z.max 0 (Config.target_nodes (config self) - healthy_count (exit_nodes s1)) in
    let started := count_submits (trace s') - count_submits (trace s) in
    started = (if tracked + needed <=? Config.max_nodes (config self)
               then needed
               else Z.max 0 (Config.max_nodes (config self) - tracked)) /\
    (needed = 5 -> Config.max_nodes (config self) - tracked = 2 -> started = 2).
Proof.
  destruct (run_cycle_spec self s) as (s1 & s' & R1 & L1 & R & T & N).
  exists s1, s'. split; [assumption |]. split; [assumption |].
  cbv zeta. rewrite T. unfold provision_count.
  set (needed := Z.max 0 _). set (tracked := Z.of_nat _).
  split.
  - destruct (Z.gtb_spec needed 0); [reflexivity |].
    destruct (Z.leb_spec (tracked + needed) (Config.max_nodes (config self))); lia.
  - intros H5 H2. rewrite H5.
    destruct (Z.gtb_spec 5 0); [| lia].
    destruct (Z.leb_spec (tracked + 5) (Config.max_nodes (config self))); lia.
Qed.

(** C1 (amended).  A reconciliation cycle (health check, cleanup, clamped
    provisioning, save) always completes, and the number of tracked
    instances it leaves is at most the larger of the configured max node
    count and the number tracked when the cycle began: provisioning never
    pushes the count above the max, and a fleet that starts within the max
    stays within it. *)
Theorem cycle_tracked_bound {E : Env} (self : t) (s : St) :
  exists s',
    run_cycle self s = (Ok tt, s') /\
    Z.of_nat (List.length (exit_nodes s'))
      <= Z.max (Config.max_nodes (config self)) (Z.of_nat (List.length (exit_nodes s))) /\
    (Z.of_nat (List.length (exit_nodes s)) <= Config.max_nodes (config self) ->
     Z.of_nat (List.length (exit_nodes s')) <= Config.max_nodes (config self)).
Proof.
  destruct (run_cycle_spec self s) as (s1 & s' & R1 & L1 & R & T & N).
  exists s'. split; [assumption |].
  unfold provision_count in N.
  set (needed := Z.max 0 _) in N. set (tracked := Z.of_nat (List.length (exit_nodes s1))) in N.
  assert (tracked <= Z.of_nat (List.length (exit_nodes s))) by (subst tracked; lia).
  destruct (Z.gtb_spec needed 0);
    [destruct (Z.leb_spec (tracked + needed) (Config.max_nodes (config self))) |]; lia.
Qed.

(** ** Startup *)

(** C4.  For every environment whose three counts are integers, if the
    target node count is greater than the max node count, or the provider
    token or the join secret is empty, [Config.from_env] raises
    [ConfigurationError] and [main] leaves with exit code 1 on it, the
    process state untouched: no call to the provider API has been made. *)
Theorem startup_rejects_bad_configuration {E : Env} (fuel : nat) (s : St)
    (target_nodes max_nodes health_check_interval : Z) :
  py_int (getenv_default "TARGET_EXIT_NODES" "1") = Some target_nodes ->
  py_int (getenv_default "MAX_EXIT_NODES" "3") = Some max_nodes ->
  py_int (getenv_default "HEALTH_CHECK_INTERVAL" "300") = Some health_check_interval ->
  getenv_default "DO_TOKEN" "" = "" \/ getenv_default "TS_AUTHKEY" "" = ""
    \/ target_nodes > max_nodes ->
  from_env = Raise ConfigurationError /\
  main fuel s = (Ok (Exited 1 ConfigurationError), s) /\
  filter is_provider_call (trace (snd (main fuel s))) = filter is_provider_call (trace s).
Proof.
  intros Ht Hm Hi Hbad.
  assert (F : from_env = Raise ConfigurationError).
  { unfold from_env. rewrite Ht, Hm, Hi. unfold Config.new, Config.__post_init__.
    cbn [Config.do_token Config.ts_authkey Config.target_nodes Config.max_nodes].
    destruct Hbad as [H | [H | H]].
    - rewrite H. reflexivity.
    - rewrite H. destruct (Config.falsy _); reflexivity.
    - destruct (Config.falsy _); [reflexivity |].
      destruct (Config.falsy _); [reflexivity |].
      destruct (Z.gtb_spec target_nodes max_nodes); [reflexivity | lia]. }
  assert (R : main fuel s = (Ok (Exited 1 ConfigurationError), s)).
  { unfold main. rewrite run_try, run_bind, F. reflexivity. }
  rewrite R. auto.
Qed.

(** ** Cleanup *)

(** C5.  Cleanup always returns.  For every tracked node whose status is
    unhealthy or error, in order, it attempts a destroy (the droplet is
    fetched from the provider and destroyed when the fetch returned it),
    whatever the provider answers or raises; the tracked list it leaves is
    the old one without these nodes, so no unhealthy or error node remains
    tracked. *)
Theorem cleanup_removes_failed_nodes {E : Env} (s : St) :
  exists s' segments,
    _cleanup_failed_nodes s = (Ok tt, s') /\
    exit_nodes s' = filter (fun n => negb (is_failed n)) (exit_nodes s) /\
    Forall (fun n => is_failed n = false) (exit_nodes s') /\
    trace s' = trace s ++ List.concat segments /\
    Forall2 (fun n segment => exists w, segment = destroy_attempt w n)
            (filter is_failed (exit_nodes s)) segments.
Proof.
  destruct (cleanup_spec s) as (s' & segs & R & N & T & F).
  exists s', segs. repeat split; try assumption.
  rewrite N. apply Forall_forall. intros n Hn. apply filter_In in Hn.
  destruct Hn as [_ Hn]. destruct (is_failed n); [discriminate | reflexivity].
Qed.

(** ** The readiness prober *)

(** The conjuncts about outcomes the answers at hand exclude. *)
Ltac outcome_cases :=
  repeat split; unfold not; intros;
  repeat match goal with
         | H : exists _, _ |- _ => destruct H
         | H : _ /\ _ |- _ => destruct H
         | H : Raise _ = Raise _ |- _ => injection H as <-
         end;
  try discriminate; try contradiction; try congruence; try reflexivity.

(** C6 (amended).  An answer of the marker endpoint other than 200 gives
    [is_ready] false, without raising.  When the marker endpoint answers 200
    and both secondary endpoints answer, a status other than 200 from a
    secondary endpoint is not fatal: [is_ready] is true, with an empty
    status for the status endpoint and an empty address for the
    overlay-address endpoint.  A [requests.RequestException] of any of the
    three requests, the secondary ones too, is taken by the one handler of
    the probe: the result is then never [is_ready] true, and no
    [RequestException] leaves the prober. *)
Theorem status_probe_outcomes {E : Env} (ip : string) (s : St)
    (r1 r2 r3 : result (Z * string * result Payload)) (w1 w2 w3 : World) :
  requests_get (endpoint ip "setup-complete") 10 (world s) = (r1, w1) ->
  requests_get (endpoint ip "tailscale-ip.txt") 5 w1 = (r2, w2) ->
  requests_get (endpoint ip "tailscale-status.json") 5 w2 = (r3, w3) ->
  let outcome := fst (_get_status_via_http ip s) in
  (forall e, outcome = Raise e -> is_RequestException e = false) /\
  ((exists c, answered c r1 /\ c <> 200) -> outcome = Ok NotReady) /\
  (network_failure r1 -> forall ts_ip data, outcome <> Ok (Ready ts_ip data)) /\
  (answered 200 r1 -> network_failure r2 ->
   forall ts_ip data, outcome <> Ok (Ready ts_ip data)) /\
  (answered 200 r1 -> (exists c, answered c r2) -> network_failure r3 ->
   forall ts_ip data, outcome <> Ok (Ready ts_ip data)) /\
  (answered 200 r1 -> (exists c, answered c r2) ->
   (exists c, answered c r3 /\ c <> 200) ->
   outcome = Ok (Ready (overlay_text r2) empty_payload)) /\
  (answered 200 r1 -> (exists c, answered c r2 /\ c <> 200) ->
   (exists c, answered c r3 /\ c <> 200) ->
   outcome = Ok (Ready EmptyString empty_payload)) /\
  (answered 200 r1 -> (exists c, answered c r2 /\ c <> 200) ->
   forall data, (exists text, r3 = Ok (200, text, Ok data)) ->
   outcome = Ok (Ready EmptyString data)).
Proof.
  intros G1 G2 G3 outcome. subst outcome.
  unfold _get_status_via_http, http_get, matmul_decorator.
  rewrite run_try, run_bind, run_call. cbn [world]. rewrite G1. cbn [fst snd].
  destruct r1 as [resp1 | e1]; cbn [answered network_failure].
  2:{ destruct (is_RequestException e1) eqn:Re; cbn [fst ret raise]; outcome_cases. }
  destruct (Z.eqb_spec (fst (fst resp1)) 200) as [C1 | C1]; cbn [negb ret fst].
  2:{ outcome_cases. }
  rewrite run_bind, run_call. cbn [world]. rewrite G2. cbn [fst snd].
  destruct r2 as [resp2 | e2]; cbn [answered network_failure overlay_text].
  2:{ destruct (is_RequestException e2) eqn:Re; cbn [fst ret raise]; outcome_cases. }
  rewrite run_bind, run_call. cbn [world]. rewrite G3. cbn [fst snd].
  destruct r3 as [resp3 | e3]; cbn [answered network_failure].
  2:{ destruct (is_RequestException e3) eqn:Re; cbn [fst ret raise]; outcome_cases. }
  rewrite run_bind.
  destruct (Z.eqb_spec (fst (fst resp3)) 200) as [C3 | C3].
  - destruct (snd resp3) as [data | e] eqn:J; cbn [ret raise fst].
    + outcome_cases.
      match goal with H : Ok _ = Ok _ |- _ => injection H as -> end.
      cbn [snd] in J. injection J as ->.
      destruct (Z.eqb_spec (fst (fst resp2)) 200); [congruence | reflexivity].
    + destruct (is_RequestException e) eqn:Re; cbn [fst ret raise]; outcome_cases;
        match goal with H : Ok _ = Ok _ |- _ => injection H as -> end;
        cbn [snd] in J; discriminate.
  - cbn [ret fst]. outcome_cases.
    + destruct (Z.eqb_spec (fst (fst resp2)) 200); [congruence | reflexivity].
    + match goal with H : Ok _ = Ok _ |- _ => injection H as -> end.
      cbn [fst] in C3. contradiction.
Qed.

(** ** The health check of one node, and a failed listing *)

(** C8 (amended).  A turn of the health check returns.  With the droplet
    of the node listed as active the probe is run: when the probe returns,
    the instance reachable or not, [last_checked] of the node is the time
    read after it; when the probe raises, the node gets the status 'error'
    and its [last_checked] is left as it was.  With the droplet listed under
    another status the node is marked unhealthy and its [last_checked] is
    left as it was.  [probe] is any implementation of the method the turn
    calls; the turn of the program calls [_get_node_status], which does not
    raise. *)
Theorem last_checked_set_when_probed {E : Env}
    (probe : Droplet.t -> M (option NodeStatus))
    (current : list Droplet.t) (node_info : ExitNodeInfo.t) (s : St) :
  (exists c s',
     check_node_with probe current node_info s = (Ok c, s') /\
     match find_droplet (ExitNodeInfo.droplet_id node_info) current with
     | None => c = (node_info, Vanished)
     | Some droplet =>
         if String.eqb (Droplet.status droplet) "active" then
           match probe droplet s with
           | (Ok _, s1) =>
               ExitNodeInfo.last_checked (fst c) = fst (datetime_now (world s1))
           | (Raise _, s1) =>
               c = (ExitNodeInfo.set_status node_info "error", Kept) /\
               ExitNodeInfo.last_checked (fst c) = ExitNodeInfo.last_checked node_info /\
               s' = s1
           end
         else
           c = (ExitNodeInfo.set_status node_info "unhealthy", Kept) /\
           ExitNodeInfo.last_checked (fst c) = ExitNodeInfo.last_checked node_info
     end) /\
  check_node current node_info = check_node_with _get_node_status current node_info /\
  (forall droplet s0, exists o, fst (_get_node_status droplet s0) = Ok o).
Proof.
  split; [| split; [reflexivity | intros droplet s0; apply never_get_node_status]].
  unfold check_node_with. rewrite run_try.
  destruct (find_droplet (ExitNodeInfo.droplet_id node_info) current) as [d |].
  - destruct (String.eqb (Droplet.status d) "active").
    + rewrite run_bind.
      destruct (probe d s) as [[o | e] s1].
      * destruct o as [[ip | ip ts data] |]; rewrite run_bind, run_observe; cbn [ret];
          eexists _, _; (split; [reflexivity |]); reflexivity.
      * cbn [ret]. eexists _, _. repeat split.
    + cbn [ret]. eexists _, _. repeat split.
  - cbn [ret]. eexists _, _. repeat split.
Qed.

Section Listing.
Context {E : Env}.

Lemma check_nodes_nothing_listed nodes s :
  check_nodes [] nodes s = (Ok (map (fun n => (n, Vanished)) nodes), s).
Proof.
  induction nodes as [| n nodes IH]; cbn [check_nodes map]; [reflexivity |].
  rewrite run_bind. unfold check_node at 1, check_node_with. rewrite run_try.
  cbn [find_droplet ret].
  rewrite run_bind, IH. reflexivity.
Qed.

Lemma filter_all {A} (l : list A) : filter (fun _ => true) l = l.
Proof. induction l as [| a l IH]; cbn; congruence. Qed.

Lemma filter_none {A} (l : list A) : filter (fun _ => negb true) l = [].
Proof. induction l as [| a l IH]; simpl; auto. Qed.

Lemma map_fst_vanished nodes :
  map fst (filter is_vanished (map (fun n : ExitNodeInfo.t => (n, Vanished)) nodes)) = nodes.
Proof. induction nodes as [| n nodes IH]; cbn; congruence. Qed.

Lemma map_fst_healthy nodes :
  map fst (filter is_healthy_verdict (map (fun n : ExitNodeInfo.t => (n, Vanished)) nodes)) = [].
Proof. induction nodes as [| n nodes IH]; cbn; congruence. Qed.

Lemma map_fst_pair nodes :
  map fst (map (fun n : ExitNodeInfo.t => (n, Vanished)) nodes) = nodes.
Proof. induction nodes as [| n nodes IH]; cbn; congruence. Qed.

(** With an empty listing every tracked node is dropped and nothing else
    happens. *)
Lemma check_after_empty_listing s s1 :
  DigitalOceanClient.get_droplets false s = (Ok [], s1) ->
  _check_existing_nodes s =
  (Ok [], mkSt (world s1) (trace s1) [] (droplets_cache s1) (cache_time s1)).
Proof.
  intros G. unfold _check_existing_nodes.
  rewrite run_bind, G, run_bind. unfold get_exit_nodes at 1.
  rewrite run_bind, check_nodes_nothing_listed, run_bind. unfold set_exit_nodes at 1.
  rewrite run_bind, map_fst_vanished, map_fst_pair, map_fst_healthy.
  set (s2 := mkSt _ _ (exit_nodes s1) _ _).
  rewrite <- (filter_all (exit_nodes s1)).
  change (filter (fun _ => true) (exit_nodes s1))
    with (filter (fun _ : ExitNodeInfo.t => true) (exit_nodes s2)).
  rewrite (remove_all_filter (fun _ => true) (fun _ _ _ => eq_refl) s2).
  rewrite filter_none. reflexivity.
Qed.

End Listing.

(** C10.  When the cached listing is empty or absent and fetching the
    inventory fails, [get_droplets] returns the empty list instead of
    raising; the existing-node health check then returns no healthy node and
    leaves nothing tracked, having made no destroy call, and the cleanup that
    follows finds nothing to do. *)
Theorem failed_listing_drops_all_tracked {E : Env} (s : St) (e : exn) (w : World) :
  droplets_cache s = None \/ droplets_cache s = Some [] ->
  get_all_droplets (snd (time_time (world s))) = (Raise e, w) ->
  (forall force_refresh,
     exists s1 events,
       DigitalOceanClient.get_droplets force_refresh s = (Ok [], s1) /\
       trace s1 = trace s ++ events /\
       (events = [] \/ events = [EvListDroplets])) /\
  (exists s' events,
     _check_existing_nodes s = (Ok [], s') /\
     exit_nodes s' = [] /\
     trace s' = trace s ++ events /\
     forallb (fun ev => negb (is_destroy ev)) events = true /\
     _cleanup_failed_nodes s' = (Ok tt, s')).
Proof.
  intros Hcache Hfetch.
  assert (G : forall force_refresh,
     exists s1 events,
       DigitalOceanClient.get_droplets force_refresh s = (Ok [], s1) /\
       trace s1 = trace s ++ events /\
       (events = [] \/ events = [EvListDroplets])).
  { intros force. unfold DigitalOceanClient.get_droplets.
    rewrite run_bind, run_observe, run_bind. unfold get_cache at 1.
    cbn [fst snd droplets_cache cache_time].
    set (stale := match droplets_cache s with None => true | Some _ => _ end).
    rewrite run_bind.
    destruct (force || stale).
    - rewrite run_try, run_bind, run_call. cbn [world]. rewrite Hfetch. cbn [fst snd ret].
      exists (mkSt w (trace s ++ [EvListDroplets]) (exit_nodes s) (droplets_cache s)
                   (cache_time s)), [EvListDroplets].
      destruct Hcache as [-> | ->]; cbn [trace]; auto.
    - cbn [ret]. rewrite run_bind. unfold get_cache. cbn [fst droplets_cache ret].
      destruct Hcache as [Hc | Hc]; rewrite Hc; eexists _, []; rewrite app_nil_r;
        (split; [reflexivity |]); cbn [trace]; auto. }
  split; [exact G |].
  destruct (G false) as (s1 & events & R & T & Hev).
  rewrite (check_after_empty_listing s s1 R).
  eexists _, events. split; [reflexivity |]. cbn [exit_nodes trace].
  repeat split; try assumption.
  destruct Hev as [-> | ->]; reflexivity.
Qed.

(** ** The payload template *)

Section Templates.
Context {E : Env}.
Variable kwargs : list (string * string).

Lemma append_assoc (a b c : string) : ((a ++ b) ++ c = a ++ (b ++ c))%string.
Proof. induction a as [| x a IH]; cbn; congruence. Qed.

Lemma append_nil_r (a : string) : (a ++ "" = a)%string.
Proof. induction a as [| x a IH]; cbn; congruence. Qed.

Lemma format_field name : forall acc rest,
  plain_name_chars name = true ->
  format_from kwargs (Some acc) (name ++ String "}" rest)%string =
  match field_value (acc ++ name)%string kwargs with
  | Raise e => Raise e
  | Ok v =>
      match format_from kwargs None rest with
      | Ok out => Ok (v ++ out)%string
      | Raise e => Raise e
      end
  end.
Proof.
  induction name as [| c name IH]; intros acc rest H.
  - cbn [String.append format_from Ascii.eqb Bool.eqb]. rewrite append_nil_r. reflexivity.
  - cbn [plain_name_chars] in H.
    apply andb_prop in H. destruct H as [H Hn]. apply andb_prop in H. destruct H as [Hc Hs].
    apply negb_true_iff in Hc, Hs.
    cbn [String.append format_from]. rewrite Hc, Hs, IH by assumption.
    rewrite append_assoc. reflexivity.
Qed.

Lemma plain_name_head name :
  plain_name name = true ->
  exists c r, name = String c r /\ Ascii.eqb c "{" = false.
Proof.
  unfold plain_name. destruct name as [| c r]; cbn [plain_name_chars all_digits];
    [discriminate |].
  intros H. apply andb_prop in H. destruct H as [H _].
  apply andb_prop in H. destruct H as [H _]. apply andb_prop in H. destruct H as [_ H].
  apply negb_true_iff in H. unfold is_field_special in H.
  exists c, r. split; [reflexivity |].
  destruct (Ascii.eqb c "{"); [discriminate | reflexivity].
Qed.

Lemma format_open c r :
  Ascii.eqb c "{" = false ->
  format_from kwargs None (String "{" (String c r)) =
  format_from kwargs (Some EmptyString) (String c r).
Proof. intros H. cbn [format_from Ascii.eqb Bool.eqb]. rewrite H. reflexivity. Qed.

Example format_wrapper :
  format "export TS_AUTHKEY={ts_authkey} # {{literal}}" [("ts_authkey", "tskey-1")]
  = Ok "export TS_AUTHKEY=tskey-1 # {literal}".
Proof. reflexivity. Qed.

Example format_unknown_name : format "{ts_authkey} {other}" [("ts_authkey", "k")] = Raise KeyError.
Proof. reflexivity. Qed.

Example format_single_brace : format "f() { true; }" [("ts_authkey", "k")] = Raise KeyError.
Proof. reflexivity. Qed.

Example format_closing_brace : format "a } b" [("ts_authkey", "k")] = Raise ValueError.
Proof. reflexivity. Qed.

Lemma format_pieces pieces :
  known_pieces kwargs pieces = true ->
  format (template_text pieces) kwargs = Ok (substitute kwargs pieces).
Proof.
  unfold format. induction pieces as [| p pieces IH]; intros H; [reflexivity |].
  cbn [known_pieces forallb] in H. apply andb_prop in H. destruct H as [Hp H].
  specialize (IH H). destruct p as [c | name]; cbn [template_text substitute].
  - destruct (Ascii.eqb_spec c "{") as [-> | Ho].
    + cbn [format_from Ascii.eqb Bool.eqb]. rewrite IH. reflexivity.
    + destruct (Ascii.eqb_spec c "}") as [-> | Hc].
      * cbn [format_from Ascii.eqb Bool.eqb]. rewrite IH. reflexivity.
      * cbn [format_from].
        destruct (Ascii.eqb_spec c "{"); [contradiction |].
        destruct (Ascii.eqb_spec c "}"); [contradiction |].
        rewrite IH. reflexivity.
  - apply andb_prop in Hp. destruct Hp as [Hn Hl].
    destruct (plain_name_head name Hn) as (c & r & -> & Hc).
    cbn [String.append]. rewrite (format_open c _ Hc).
    change (String c (r ++ String "}" (template_text pieces))%string)
      with ((String c r) ++ String "}" (template_text pieces))%string.
    unfold plain_name in Hn. apply andb_prop in Hn. destruct Hn as [Hchars Hdig].
    rewrite (format_field (String c r) "" (template_text pieces) Hchars).
    cbn [String.append]. unfold field_value.
    apply negb_true_iff in Hdig. rewrite Hdig.
    destruct (lookup (String c r) kwargs); [| discriminate].
    rewrite IH. reflexivity.
Qed.

Lemma prefix_append (a b : string) : String.prefix a (a ++ b) = true.
Proof.
  induction a as [| x a IH]; cbn.
  - destruct b; reflexivity.
  - destruct (Ascii.ascii_dec x x); [assumption | contradiction].
Qed.

Lemma contains_prefix (a h : string) : String.prefix a h = true -> contains a h = true.
Proof. intros H. destruct h; cbn [contains]; rewrite H; reflexivity. Qed.

Lemma contains_here (a b : string) : contains a (a ++ b) = true.
Proof. apply contains_prefix, prefix_append. Qed.

Lemma contains_later (a pre post : string) :
  contains a post = true -> contains a (pre ++ post) = true.
Proof.
  intros H. induction pre as [| x pre IH]; [assumption |].
  cbn [String.append contains]. rewrite IH.
  destruct (String.prefix a (String x (pre ++ post))); reflexivity.
Qed.

(** The value of a placeholder the template uses is part of the output as
    it is. *)
Lemma substitute_contains pieces name v :
  In (Placeholder name) pieces -> lookup name kwargs = Some v ->
  contains v (substitute kwargs pieces) = true.
Proof.
  intros Hin Hv. induction pieces as [| p pieces IH]; [contradiction |].
  destruct Hin as [-> | Hin].
  - cbn [substitute]. rewrite Hv. apply contains_here.
  - specialize (IH Hin). destruct p as [c | name']; cbn [substitute].
    + apply (contains_later v (String c "") _ IH).
    + apply contains_later. exact IH.
Qed.

Lemma mentions_append c (a b : string) :
  mentions c (a ++ b) = mentions c a || mentions c b.
Proof.
  induction a as [| x a IH]; cbn [String.append mentions]; [reflexivity |].
  rewrite IH, orb_assoc. reflexivity.
Qed.

Lemma lookup_in name v : lookup name kwargs = Some v -> In (name, v) kwargs.
Proof.
  induction kwargs as [| [k w] rest IH]; cbn [lookup]; [discriminate |].
  destruct (String.eqb_spec k name) as [-> | _].
  - intros [= ->]. left. reflexivity.
  - intros H. right. exact (IH H).
Qed.

(** Without an opening brace in the literal text or in the values there is
    none in the output. *)
Lemma substitute_brace_free pieces :
  no_literal_brace pieces = true ->
  (forall name v, In (name, v) kwargs -> mentions "{" v = false) ->
  mentions "{" (substitute kwargs pieces) = false.
Proof.
  intros Hp Hv. induction pieces as [| p pieces IH]; [reflexivity |].
  cbn [no_literal_brace forallb] in Hp. apply andb_prop in Hp. destruct Hp as [Hc Hp].
  specialize (IH Hp). destruct p as [c | name]; cbn [substitute mentions].
  - apply negb_true_iff in Hc. rewrite Hc, IH. reflexivity.
  - rewrite mentions_append, IH.
    destruct (lookup name kwargs) as [v |] eqn:L; [| reflexivity].
    rewrite (Hv name v (lookup_in name v L)). reflexivity.
Qed.

Lemma prefix_mentions c (n s : string) :
  String.prefix (String c n) s = true -> mentions c s = true.
Proof.
  destruct s as [| a s]; cbn [String.prefix mentions]; [discriminate |].
  destruct (Ascii.ascii_dec c a) as [-> | _]; [| discriminate].
  rewrite Ascii.eqb_refl. reflexivity.
Qed.

Lemma contains_mentions c (n s : string) :
  contains (String c n) s = true -> mentions c s = true.
Proof.
  induction s as [| a s IH]; cbn [contains].
  - destruct (String.prefix (String c n) "") eqn:P; [| discriminate].
    intros _. exact (prefix_mentions c n _ P).
  - destruct (String.prefix (String c n) (String a s)) eqn:P.
    + intros _. exact (prefix_mentions c n _ P).
    + intros H. cbn [mentions]. rewrite (IH H). apply orb_true_r.
Qed.

End Templates.

(** C9 (amended).  For a wrapper made of literal text (its braces doubled)
    and plain occurrences of the three placeholders, the payload builder
    returns the wrapper with every placeholder replaced by its value,
    character for character, and the doubled braces single; the join secret
    and the control-server URL are part of the output as they are wherever
    the wrapper names them.  No text spelled like a placeholder is in the
    output when neither the literal text nor the three values hold an
    opening brace.  Constructing the builder raises [FileNotFoundError] when
    either template file is absent. *)
Theorem payload_substitutes_plain_placeholders {E : Env}
    (self : CloudInitScriptGenerator.t) (ts_authkey login_server : string)
    (setup_script_content : string) (pieces : list Piece) (s : St) (w1 w2 : World) :
  let kwargs := [ ("ts_authkey", ts_authkey);
                  ("login_server", login_server);
                  ("setup_script_content", setup_script_content) ] in
  read_text (CloudInitScriptGenerator.setup_script_path self) (world s)
    = (Ok setup_script_content, w1) ->
  read_text (CloudInitScriptGenerator.cloud_init_wrapper_path self) w1
    = (Ok (template_text pieces), w2) ->
  known_pieces kwargs pieces = true ->
  fst (CloudInitScriptGenerator.generate_tailscale_script self ts_authkey login_server s)
    = Ok (substitute kwargs pieces) /\
  (In (Placeholder "ts_authkey") pieces ->
   contains ts_authkey (substitute kwargs pieces) = true) /\
  (In (Placeholder "login_server") pieces ->
   contains login_server (substitute kwargs pieces) = true) /\
  (no_literal_brace pieces = true ->
   mentions "{" ts_authkey = false -> mentions "{" login_server = false ->
   mentions "{" setup_script_content = false ->
   forall name, contains (String "{" name) (substitute kwargs pieces) = false) /\
  (forall shells_path s0,
     let dir := CloudInitScriptGenerator.resolve_shells_path shells_path in
     let setup_found :=
       path_exists (CloudInitScriptGenerator.join dir "tailscale-exit-node-setup.bash")
                   (world s0) in
     let wrapper_found :=
       path_exists (CloudInitScriptGenerator.join dir "cloud-init-wrapper.bash")
                   (snd setup_found) in
     fst setup_found = false \/ fst wrapper_found = false ->
     fst (CloudInitScriptGenerator.__init__ shells_path s0) = Raise FileNotFoundError).
Proof.
  intros kwargs R1 R2 K. repeat split.
  - unfold CloudInitScriptGenerator.generate_tailscale_script.
    rewrite run_bind, run_call, R1. cbn [fst snd].
    rewrite run_bind, run_call. cbn [world]. rewrite R2. cbn [fst snd].
    fold kwargs. rewrite (format_pieces kwargs pieces K). reflexivity.
  - intros H. apply (substitute_contains kwargs pieces "ts_authkey"); [exact H | reflexivity].
  - intros H. apply (substitute_contains kwargs pieces "login_server"); [exact H | reflexivity].
  - intros Hp Hk Hl Hs name.
    destruct (contains (String "{" name) (substitute kwargs pieces)) eqn:C; [| reflexivity].
    apply contains_mentions in C.
    rewrite (substitute_brace_free kwargs pieces Hp) in C; [discriminate |].
    intros n v [[= <- <-] | [[= <- <-] | [[= <- <-] | []]]]; assumption.
  - intros shells_path s0 dir setup_found wrapper_found H.
    unfold CloudInitScriptGenerator.__init__. fold dir.
    cbn [CloudInitScriptGenerator.setup_script_path
         CloudInitScriptGenerator.cloud_init_wrapper_path].
    unfold CloudInitScriptGenerator.exists_.
    rewrite run_bind, run_call. fold setup_found.
    destruct (path_exists _ (world s0)) as [f1 w3] eqn:P1. subst setup_found.
    cbn [fst snd] in *.
    destruct f1; cbn [negb raise fst]; [| reflexivity].
    rewrite run_bind, run_call. cbn [world]. fold wrapper_found.
    destruct (path_exists _ w3) as [f2 w4] eqn:P2. subst wrapper_found.
    cbn [fst snd] in *.
    destruct f2; cbn [negb raise fst]; [| reflexivity].
    destruct H; discriminate.
Qed.

(** ** The state file *)

Section StateFile.
Context {E : Env}.

Lemma py_fromisoformat_isoformat d :
  Datetime.valid d = true -> py_fromisoformat (Datetime.isoformat d) = Ok d.
Proof.
  intros H. unfold py_fromisoformat, Datetime.fromisoformat_with.
  rewrite (fromisoformat_isoformat d H). reflexivity.
Qed.

(** Whatever the version, a timestamp that was read is a valid one. *)
Lemma py_fromisoformat_valid txt d :
  py_fromisoformat txt = Ok d -> Datetime.valid d = true.
Proof.
  unfold py_fromisoformat, Datetime.fromisoformat_with.
  destruct (Datetime.fromisoformat txt) as [d0 | e] eqn:F.
  - intros [= <-]. revert F. unfold Datetime.fromisoformat.
    destruct (Datetime.parse_isoformat_date txt) as [[[[y m] dd] rest] |]; [| discriminate].
    destruct (match rest with
              | "" => _
              | String _ _ => _
              end) as [[[[[hh mi] ss] ff] tz] |]; [| discriminate].
    destruct (Datetime.valid _) eqn:Hv; [| discriminate]. intros [= <-]. exact Hv.
  - destruct (fromisoformat_more txt) as [d1 |]; [| discriminate].
    destruct (Datetime.valid d1) eqn:Hv; [| discriminate]. intros [= <-]. exact Hv.
Qed.

Lemma from_dict_to_dict n :
  ExitNodeInfo.valid n = true ->
  ExitNodeInfo.from_dict py_fromisoformat (ExitNodeInfo.to_dict n) = Ok n.
Proof.
  unfold ExitNodeInfo.valid. intros H. apply andb_prop in H. destruct H as [Hc Hl].
  unfold ExitNodeInfo.from_dict, ExitNodeInfo.to_dict.
  cbn [subscript lookup String.eqb Ascii.eqb Bool.eqb].
  rewrite !py_fromisoformat_isoformat by assumption.
  destruct n; reflexivity.
Qed.

Lemma traverse_from_dict nodes :
  forallb ExitNodeInfo.valid nodes = true ->
  traverse (ExitNodeInfo.from_dict py_fromisoformat) (map ExitNodeInfo.to_dict nodes)
    = Ok nodes.
Proof.
  induction nodes as [| n nodes IH]; [reflexivity |].
  cbn [forallb map traverse]. intros H. apply andb_prop in H. destruct H as [Hn H].
  rewrite (from_dict_to_dict n Hn), (IH H). reflexivity.
Qed.

(** What was saved decodes to what was tracked. *)
Lemma decode_saved nodes :
  forallb ExitNodeInfo.valid nodes = true ->
  decode_exit_nodes (Ok (JArray (map ExitNodeInfo.to_dict nodes))) = nodes.
Proof.
  intros H. unfold decode_exit_nodes. cbn [iterate]. rewrite (traverse_from_dict nodes H).
  reflexivity.
Qed.

(** [_save_exit_nodes] in full: one [json.dump] of the tracked list, whose
    failure is swallowed. *)
Lemma save_run self s :
  _save_exit_nodes self s =
  (Ok tt,
   mkSt (snd (json_dump (exit_nodes_file self)
                (JArray (map ExitNodeInfo.to_dict (exit_nodes s))) (world s)))
        (trace s ++ [EvSaveState (exit_nodes_file self)
                       (JArray (map ExitNodeInfo.to_dict (exit_nodes s)))])
        (exit_nodes s) (droplets_cache s) (cache_time s)).
Proof.
  unfold _save_exit_nodes. rewrite run_try, run_bind. unfold get_exit_nodes at 1.
  rewrite run_call.
  destruct (json_dump _ _ (world s)) as [[[] | e] w]; reflexivity.
Qed.

(** [_load_exit_nodes] in full. *)
Lemma load_run path s :
  fst (_load_exit_nodes path s) =
  Ok (if fst (path_exists path (world s))
      then decode_exit_nodes (fst (json_load path (snd (path_exists path (world s)))))
      else []).
Proof.
  unfold _load_exit_nodes, CloudInitScriptGenerator.exists_.
  rewrite run_bind, run_call.
  destruct (path_exists path (world s)) as [f w1]. cbn [fst snd].
  destruct f; [| reflexivity].
  rewrite run_call. cbn [world].
  destruct (json_load path w1) as [r w2]. reflexivity.
Qed.

End StateFile.

(** C7.  On a file system that keeps what [json.dump] writes, for every
    tracked list whose timestamps are valid datetimes: when
    [_save_exit_nodes] has written the list, [_load_exit_nodes] run next
    returns the same list, every field of every node equal, timestamps to
    the microsecond and with their offset.  [_load_exit_nodes] never raises:
    a missing file, a file [json.load] cannot read, and a document with an
    entry that cannot be converted, all load as the empty list. *)
Theorem state_file_round_trip {E : Env} (self : t) (s : St) :
  let file := exit_nodes_file self in
  let document := JArray (map ExitNodeInfo.to_dict (exit_nodes s)) in
  let saved := snd (_save_exit_nodes self s) in
  forallb ExitNodeInfo.valid (exit_nodes s) = true ->
  (forall doc w w', json_dump file doc w = (Ok tt, w') ->
     fst (path_exists file w') = true /\
     fst (json_load file (snd (path_exists file w'))) = Ok doc) ->
  fst (json_dump file document (world s)) = Ok tt ->
  (fst (_save_exit_nodes self s) = Ok tt /\
   trace saved = trace s ++ [EvSaveState file document] /\
   fst (_load_exit_nodes file saved) = Ok (exit_nodes s)) /\
  (forall path s0,
     let found := path_exists path (world s0) in
     let loaded := json_load path (snd found) in
     let nodes := fst (_load_exit_nodes path s0) in
     (exists l, nodes = Ok l) /\
     (fst found = false -> nodes = Ok []) /\
     (fst found = true -> (exists e, fst loaded = Raise e) -> nodes = Ok []) /\
     (fst found = true ->
      (exists data e, fst loaded = Ok data /\
                      traverse (ExitNodeInfo.from_dict py_fromisoformat) (iterate data)
                        = Raise e) ->
      nodes = Ok [])).
Proof.
  intros file document saved V Law D. split.
  - subst saved. rewrite (save_run self s). cbn [fst snd trace].
    split; [reflexivity |]. split; [reflexivity |].
    rewrite load_run. cbn [world]. fold file. fold document.
    destruct (json_dump file document (world s)) as [r w'] eqn:J. cbn [fst snd] in *.
    subst r. destruct (Law document (world s) w' J) as [F L].
    rewrite F, L. unfold document. rewrite (decode_saved _ V). reflexivity.
  - intros path s0 found loaded nodes. subst nodes. rewrite load_run.
    fold found. fold loaded.
    split; [eexists; reflexivity |].
    split; [intros ->; reflexivity |].
    split.
    + intros -> (e & ->). reflexivity.
    + intros -> (data & e & -> & T). unfold decode_exit_nodes. rewrite T. reflexivity.
Qed.

(** ** Runs of the model *)

(** C1, counterexample.  Max is 3 and four healthy nodes are tracked, all of
    them listed by the provider as active and answering their probes: the
    cycle completes and four nodes are tracked after it. *)
Lemma cycle_keeps_fleet_over_max :
  let s' := snd (run_cycle (manager 1 3) crowded) in
  fst (run_cycle (manager 1 3) crowded) = Ok tt /\
  Config.max_nodes (config (manager 1 3)) = 3 /\
  Z.of_nat (List.length (exit_nodes s')) = 4 /\
  ~ Z.of_nat (List.length (exit_nodes s')) <= Config.max_nodes (config (manager 1 3)).
Proof. vm_compute. repeat split; try reflexivity. intros H. apply H. reflexivity. Qed.

(** C3, at the failing input.  The provider creates droplet 7, the droplet
    gets the address 203.0.113.7, and the instance there never answers.  The
    readiness wait on that address sends one probe and raises
    [NodeHealthCheckError], without a sleep: nothing retries it.  The
    single-node provisioning does not get as far: the droplet is created and
    fetched with its address, [_create_droplet] then raises [TypeError] at
    its [return], and the routine returns no instance, having probed
    nothing and destroyed nothing. *)
Lemma readiness_wait_is_not_retried :
  let waited := _wait_for_http_ready "203.0.113.7" 20 provisioning in
  let created := _create_droplet (manager 1 3) provisioning in
  let provisioned := _provision_single_node (manager 1 3) provisioning in
  requests_get (endpoint "203.0.113.7" "setup-complete") 20 (world provisioning)
    = (Raise RequestException, world provisioning) /\
  fst waited = Raise NodeHealthCheckError /\
  trace (snd waited) = [EvHttpGet (endpoint "203.0.113.7" "setup-complete") 20] /\
  manager_get_droplet "7" (world provisioning)
    = (Ok (droplet 7 "active"), world provisioning) /\
  fst created = Raise TypeError /\
  fst provisioned = Ok None /\
  trace (snd provisioned) = trace (snd created) /\
  map (fun ev => match ev with EvCreate request => req_image request | _ => 0 end)
      (filter is_create (trace (snd provisioned))) = [1] /\
  filter is_http_get (trace (snd provisioned)) = [] /\
  filter is_destroy (trace (snd provisioned)) = [].
Proof. vm_compute. repeat split; reflexivity. Qed.

(** C4, witness: an environment without [DO_TOKEN]. *)
Lemma startup_rejects_witness :
  @py_int (env no_token) (@getenv_default (env no_token) "TARGET_EXIT_NODES" "1") = Some 1 /\
  @py_int (env no_token) (@getenv_default (env no_token) "MAX_EXIT_NODES" "3") = Some 3 /\
  @py_int (env no_token) (@getenv_default (env no_token) "HEALTH_CHECK_INTERVAL" "300")
    = Some 300 /\
  (@getenv_default (env no_token) "DO_TOKEN" "" = "" \/
   @getenv_default (env no_token) "TS_AUTHKEY" "" = "" \/ 1 > 3) /\
  @from_env (env no_token) = Raise ConfigurationError /\
  @main (env no_token) 5 (start no_token quiet [])
    = (Ok (Exited 1 ConfigurationError), start no_token quiet []) /\
  filter is_provider_call (trace (snd (@main (env no_token) 5 (start no_token quiet []))))
    = filter is_provider_call (trace (start no_token quiet [])).
Proof.
  split; [reflexivity |]. split; [reflexivity |]. split; [reflexivity |].
  split; [left; reflexivity |].
  apply (@startup_rejects_bad_configuration (env no_token) 5 (start no_token quiet []) 1 3 300);
    try reflexivity.
  left. reflexivity.
Defined.

(** C6, counterexample.  The marker endpoint answers 200 and the request to
    the overlay-address endpoint times out: the result is not [is_ready]
    true with empty values; the prober raises. *)
Lemma secondary_timeout_is_fatal :
  requests_get (endpoint "203.0.113.4" "setup-complete") 10 (world half_answering)
    = (Ok (200, "", Ok ""), world half_answering) /\
  requests_get (endpoint "203.0.113.4" "tailscale-ip.txt") 5 (world half_answering)
    = (Raise RequestException, world half_answering) /\
  fst (_get_status_via_http "203.0.113.4" half_answering) = Raise TypeError /\
  fst (_get_status_via_http "203.0.113.4" half_answering)
    <> Ok (Ready EmptyString empty_payload).
Proof. vm_compute. repeat split; try reflexivity. discriminate. Qed.

(** C6, witness: the marker endpoint answers and the two others time out. *)
Lemma status_probe_witness :
  let answer := (Ok (200, "", Ok ""), world half_answering) in
  let timeout := (Raise RequestException, world half_answering) in
  requests_get (endpoint "203.0.113.4" "setup-complete") 10 (world half_answering) = answer /\
  requests_get (endpoint "203.0.113.4" "tailscale-ip.txt") 5 (world half_answering) = timeout /\
  requests_get (endpoint "203.0.113.4" "tailscale-status.json") 5 (world half_answering)
    = timeout /\
  forall ts_ip data,
    fst (_get_status_via_http "203.0.113.4" half_answering) <> Ok (Ready ts_ip data).
Proof.
  intros answer timeout.
  split; [reflexivity |]. split; [reflexivity |]. split; [reflexivity |].
  destruct (status_probe_outcomes "203.0.113.4" half_answering
              (fst answer) (fst timeout) (fst timeout)
              (world half_answering) (world half_answering) (world half_answering)
              eq_refl eq_refl eq_refl) as (_ & _ & _ & H & _).
  apply H; reflexivity.
Defined.

(** C7, witness: four nodes stamped at noon UTC, on the scripted file
    system, which keeps the document it is given. *)
Lemma state_file_round_trip_witness :
  forallb ExitNodeInfo.valid (exit_nodes crowded) = true /\
  fst (json_dump "exit_nodes.json"
         (JArray (map ExitNodeInfo.to_dict (exit_nodes crowded))) (world crowded)) = Ok tt /\
  fst (_load_exit_nodes "exit_nodes.json" (snd (_save_exit_nodes (manager 1 3) crowded)))
    = Ok (exit_nodes crowded).
Proof.
  split; [reflexivity |]. split; [reflexivity |].
  destruct (state_file_round_trip (manager 1 3) crowded) as ((_ & _ & H) & _);
    [reflexivity | | reflexivity | exact H].
  intros doc w w' J. injection J as <-. split; reflexivity.
Defined.

(** C8, counterexample.  Droplet 4 is listed with status 'off' and the clock
    reads five minutes past noon: the health check marks node 4 unhealthy
    and its [last_checked] is still noon. *)
Lemma inactive_droplet_keeps_last_checked :
  let s' := snd (_check_existing_nodes switched_off) in
  map ExitNodeInfo.status (exit_nodes s') = ["unhealthy"] /\
  map ExitNodeInfo.last_checked (exit_nodes s') = [noon] /\
  fst (datetime_now (world s')) = later /\
  noon <> later.
Proof. vm_compute. repeat split; try reflexivity. discriminate. Qed.

(** A probe that raises, on droplet 4 listed as active: node 4 is marked in
    error and its [last_checked] is still noon. *)
Example raising_probe_marks_error :
  let s := start no_environ quiet [node 4 "healthy"] in
  let checked := check_node_with (fun _ => raise OtherException)
                   [droplet 4 "active"] (node 4 "healthy") s in
  fst checked = Ok (node 4 "error", Kept) /\
  ExitNodeInfo.last_checked (node 4 "error") = noon /\
  fst (datetime_now (world s)) = later.
Proof. vm_compute. repeat split; reflexivity. Qed.

(** C9, counterexample.  The wrapper is [{setup_script_content}] and the
    inner script is [echo ${ts_authkey}]: the output still contains the text
    [{ts_authkey}].  With the wrapper file absent the constructor raises
    [FileNotFoundError]. *)
Lemma payload_keeps_marker_and_raises_file_not_found :
  fst (CloudInitScriptGenerator.generate_tailscale_script generator "tskey-123"
         "https://controlplane.tailscale.com" shell_variable)
    = Ok "echo ${ts_authkey}" /\
  contains "{ts_authkey}" "echo ${ts_authkey}" = true /\
  fst (CloudInitScriptGenerator.__init__ None no_wrapper) = Raise FileNotFoundError.
Proof. vm_compute. repeat split; reflexivity. Qed.

(** C9, witness: a wrapper with the three placeholders and a pair of literal
    braces. *)
Lemma payload_substitutes_witness :
  let kwargs := [ ("ts_authkey", "tskey-123");
                  ("login_server", "https://controlplane.tailscale.com");
                  ("setup_script_content", "echo setup") ] in
  read_text (CloudInitScriptGenerator.setup_script_path generator) (world provisioning)
    = (Ok "echo setup", world provisioning) /\
  read_text (CloudInitScriptGenerator.cloud_init_wrapper_path generator) (world provisioning)
    = (Ok (template_text wrapper_pieces), world provisioning) /\
  known_pieces kwargs wrapper_pieces = true /\
  fst (CloudInitScriptGenerator.generate_tailscale_script generator "tskey-123"
         "https://controlplane.tailscale.com" provisioning)
    = Ok "K=tskey-123 {} https://controlplane.tailscale.com echo setup".
Proof.
  intros kwargs.
  split; [reflexivity |]. split; [reflexivity |]. split; [reflexivity |].
  destruct (payload_substitutes_plain_placeholders generator "tskey-123"
              "https://controlplane.tailscale.com" "echo setup" wrapper_pieces provisioning
              (world provisioning) (world provisioning) eq_refl eq_refl eq_refl)
    as (H & _).
  exact H.
Defined.

(** C10, witness: two tracked nodes and a provider that cannot be
    reached. *)
Lemma failed_listing_witness :
  (droplets_cache unreachable_provider = None \/
   droplets_cache unreachable_provider = Some []) /\
  get_all_droplets (snd (time_time (world unreachable_provider)))
    = (Raise RequestException, world unreachable_provider) /\
  exists s' events,
    _check_existing_nodes unreachable_provider = (Ok [], s') /\
    exit_nodes s' = [] /\
    trace s' = trace unreachable_provider ++ events /\
    forallb (fun ev => negb (is_destroy ev)) events = true /\
    _cleanup_failed_nodes s' = (Ok tt, s').
Proof.
  split; [left; reflexivity |]. split; [reflexivity |].
  destruct (failed_listing_drops_all_tracked unreachable_provider RequestException
              (world unreachable_provider) (or_introl eq_refl) eq_refl) as (_ & H).
  exact H.
Defined.

(** Scenario D on a run: target 5, max 2, nothing tracked, and the provider
    refuses every creation; two tasks are submitted, not five. *)
Example two_attempts_when_two_slots_remain :
  count_submits (trace (snd (run_cycle (manager 5 2) (start no_environ quiet [])))) = 2.
Proof. vm_compute. reflexivity. Qed.

(** Scenario C on a run: the provider returns the droplet of an unhealthy
    node and then fails to destroy it; the node leaves the tracked list all
    the same. *)
Example failed_destroy_still_untracks :
  let s := start no_environ
             (with_provider quiet (fun _ => Ok (droplet 4 "off")) (Raise OtherException)
                            (Raise OtherException))
             [node 3 "healthy"; node 4 "unhealthy"] in
  droplet_destroy (droplet 4 "off") (world s) = (Raise OtherException, world s) /\
  trace (snd (_cleanup_failed_nodes s)) = [EvGetDroplet "4"; EvDestroy 4] /\
  exit_nodes (snd (_cleanup_failed_nodes s)) = [node 3 "healthy"].
Proof. vm_compute. repeat split; reflexivity. Qed.

(** * Further properties *)

(** What follows is read off the functions of the program beyond the
    properties above. *)

(** ** Counting events *)

Section Counting.
Context {E : Env}.

Lemma count_events_app kind a b :
  count_events kind (a ++ b) = (count_events kind a + count_events kind b)%nat.
Proof. unfold count_events. rewrite filter_app, length_app. reflexivity. Qed.

Lemma count_events_none kind evs :
  forallb (fun e => negb (kind e)) evs = true -> count_events kind evs = 0%nat.
Proof.
  unfold count_events. induction evs as [| e evs IH]; cbn; [reflexivity |].
  intros H. apply andb_prop in H. destruct H as [He H].
  destruct (kind e); [discriminate | auto].
Qed.

Lemma filter_none_of (kind : Event -> bool) evs :
  forallb (fun e => negb (kind e)) evs = true -> filter kind evs = [].
Proof.
  induction evs as [| e evs IH]; cbn; [reflexivity |].
  intros H. apply andb_prop in H. destruct H as [He H].
  destruct (kind e); [discriminate | auto].
Qed.

(** What a computation adds to the trace is determined by the state. *)
Lemma adds_both {A} (P P' : list Event -> Prop) (m : M A) :
  adds P m -> adds P' m -> adds (fun evs => P evs /\ P' evs) m.
Proof.
  intros H H' s. destruct (H s) as (evs & T & HP). destruct (H' s) as (evs' & T' & HP').
  exists evs. split; [exact T |]. split; [exact HP |].
  rewrite T in T'. apply app_inv_head in T'. subst evs'. exact HP'.
Qed.

Lemma adds_of_emits {A} Q (m : M A) :
  emits Q m -> adds (fun evs => forallb Q evs = true) m.
Proof. intros H s. exact (H s). Qed.

Lemma at_most_emits {A} kind (m : M A) :
  emits (fun e => negb (kind e)) m -> at_most kind 0 m.
Proof.
  intros H s. destruct (H s) as (evs & T & Q). exists evs. split; [exact T |].
  rewrite (count_events_none kind evs Q). lia.
Qed.

Lemma at_most_more {A} kind n n' (m : M A) :
  (n <= n')%nat -> at_most kind n m -> at_most kind n' m.
Proof.
  intros L H s. destruct (H s) as (evs & T & C). exists evs. split; [exact T | lia].
Qed.

Lemma at_most_bind {A B} kind a b (m : M A) (k : A -> M B) :
  at_most kind a m -> (forall x, at_most kind b (k x)) -> at_most kind (a + b) (bind m k).
Proof.
  intros Hm Hk s. rewrite run_bind. destruct (Hm s) as (e1 & T1 & C1).
  destruct (m s) as [[x | e] s1]; cbn [snd] in *.
  - destruct (Hk x s1) as (e2 & T2 & C2). exists (e1 ++ e2).
    rewrite T2, T1, app_assoc, count_events_app. split; [reflexivity | lia].
  - exists e1. split; [exact T1 | lia].
Qed.

Lemma at_most_call {A} kind ev (op : World -> result A * World) :
  at_most kind 1 (call ev op).
Proof.
  intros s. rewrite run_call. exists [ev]. split; [reflexivity |].
  unfold count_events. cbn. destruct (kind ev); cbn; lia.
Qed.

Lemma at_most_raise {A} kind n e : at_most kind n (@raise E A e).
Proof. intros s. exists []. cbn. rewrite app_nil_r. split; [reflexivity | lia]. Qed.

Lemma at_most_ret {A} kind n (a : A) : at_most kind n (ret a).
Proof. intros s. exists []. cbn. rewrite app_nil_r. split; [reflexivity | lia]. Qed.

End Counting.

(** ** The readiness wait, the creation and the provisioning of one node *)

Section Creating.
Context {E : Env}.

(** A value bound in a computation that returned was returned by the first
    part. *)
Lemma bind_returned {A B} (m : M A) (k : A -> M B) s b :
  fst (bind m k s) = Ok b ->
  exists a s1, m s = (Ok a, s1) /\ fst (k a s1) = Ok b.
Proof.
  rewrite run_bind. destruct (m s) as [[a | e] s1]; cbn [fst]; [eauto | discriminate].
Qed.

(** The wait in full. *)
Lemma wait_run ip timeout s :
  _wait_for_http_ready ip timeout s =
  (match fst (requests_get (endpoint ip "setup-complete") timeout (world s)) with
   | Ok response =>
       if fst (fst response) =? 200 then Ok true else Raise NodeHealthCheckError
   | Raise e => if is_RequestException e then Raise NodeHealthCheckError else Raise e
   end,
   mkSt (snd (requests_get (endpoint ip "setup-complete") timeout (world s)))
        (trace s ++ [EvHttpGet (endpoint ip "setup-complete") timeout])
        (exit_nodes s) (droplets_cache s) (cache_time s)).
Proof.
  unfold _wait_for_http_ready, http_get.
  rewrite run_bind, run_try, run_bind, run_call.
  destruct (requests_get _ _ (world s)) as [[resp | e] w1]; cbn [fst snd ret].
  - destruct (fst (fst resp) =? 200); reflexivity.
  - destruct (is_RequestException e); reflexivity.
Qed.

(** No path through [_create_droplet] returns. *)
Lemma create_never_returns self s d : fst (_create_droplet self s) <> Ok d.
Proof.
  unfold _create_droplet. intros H.
  apply bind_returned in H. destruct H as (now & s1 & _ & H).
  apply bind_returned in H. destruct H as (script & s2 & _ & H).
  destruct (find_image _ _) as [[img |] | e]; try discriminate.
  apply bind_returned in H. destruct H as (droplet & s3 & _ & H).
  destruct (last_opt _) as [action_id |]; try discriminate.
  apply bind_returned in H. destruct H as (action & s4 & _ & H).
  apply bind_returned in H. destruct H as (waited & s5 & _ & H).
  apply bind_returned in H. destruct H as (created & s6 & _ & H).
  destruct (ip_missing created); discriminate.
Qed.

Lemma create_raises self s : exists e, fst (_create_droplet self s) = Raise e.
Proof.
  pose proof (create_never_returns self s) as H.
  destruct (fst (_create_droplet self s)) as [d | e]; [destruct (H d); reflexivity | eauto].
Qed.

(** It sleeps, probes, destroys and submits nothing. *)
Lemma create_quiet self :
  emits (fun e => negb (is_sleep e || is_destroy e || is_http_get e || is_submit e))
        (_create_droplet self).
Proof.
  unfold _create_droplet, CloudInitScriptGenerator.generate_tailscale_script,
    DigitalOceanClient.get_action, DigitalOceanClient.get_droplet.
  frames.
Qed.

Lemma create_one_create self : at_most is_create 1 (_create_droplet self).
Proof.
  unfold _create_droplet.
  apply (at_most_bind is_create 0 1); [apply at_most_emits; frames | intros now].
  apply (at_most_bind is_create 0 1).
  { apply at_most_emits.
    unfold CloudInitScriptGenerator.generate_tailscale_script. frames. }
  intros script.
  destruct (find_image _ _) as [[img |] | e];
    [| apply at_most_raise | apply at_most_raise].
  apply (at_most_bind is_create 1 0); [apply at_most_call | intros d].
  apply at_most_emits.
  unfold DigitalOceanClient.get_action, DigitalOceanClient.get_droplet. frames.
Qed.

(** So the provisioning of one node is the creation with its exception
    dropped: [droplet] is not bound when the handler runs. *)
Lemma provision_single_run self s :
  _provision_single_node self s = (Ok None, snd (_create_droplet self s)).
Proof.
  unfold _provision_single_node. rewrite run_try, run_bind.
  pose proof (create_never_returns self s) as H.
  destruct (_create_droplet self s) as [[d | e] s1]; cbn [fst snd] in *.
  - destruct (H d). reflexivity.
  - reflexivity.
Qed.

(** What a quiet run leaves out of the trace. *)
Lemma quiet_filters evs :
  forallb (fun e => negb (is_sleep e || is_destroy e || is_http_get e || is_submit e)) evs
    = true ->
  filter is_sleep evs = [] /\ filter is_destroy evs = [] /\
  filter is_http_get evs = [] /\ count_submits evs = 0.
Proof.
  induction evs as [| ev evs IH]; [repeat split |].
  cbn [forallb]. intros H. apply andb_prop in H. destruct H as [Hev H].
  destruct (IH H) as (I1 & I2 & I3 & I4).
  unfold count_submits in *. cbn [filter].
  destruct ev; cbn in Hev; try discriminate; cbn [is_sleep is_destroy is_http_get is_submit];
    repeat split; assumption.
Qed.

End Creating.

(** X1.  [_wait_for_http_ready] sends one probe to the marker endpoint and
    nothing else; it does not sleep.  An answer 200 makes it return [True];
    any other answer, and a [RequestException], make it raise
    [NodeHealthCheckError] at once; another exception of the probe is raised
    as it is.  It returns nothing but [True]. *)
Theorem readiness_wait_is_one_probe {E : Env} (ip : string) (timeout : Z) (s : St) :
  let probe := requests_get (endpoint ip "setup-complete") timeout (world s) in
  let outcome := _wait_for_http_ready ip timeout s in
  snd outcome = mkSt (snd probe)
                     (trace s ++ [EvHttpGet (endpoint ip "setup-complete") timeout])
                     (exit_nodes s) (droplets_cache s) (cache_time s) /\
  (answered 200 (fst probe) -> fst outcome = Ok true) /\
  (probe_failed (fst probe) -> fst outcome = Raise NodeHealthCheckError) /\
  (forall e, fst probe = Raise e -> is_RequestException e = false ->
     fst outcome = Raise e) /\
  (forall b, fst outcome = Ok b -> b = true).
Proof.
  intros probe outcome. subst outcome. rewrite wait_run. fold probe. cbn [fst snd].
  split; [reflexivity |].
  destruct (fst probe) as [resp | e]; cbn [answered probe_failed].
  - destruct (Z.eqb_spec (fst (fst resp)) 200) as [C | C];
      repeat split; intros;
      try reflexivity; try discriminate; try contradiction; try congruence.
  - destruct (is_RequestException e) eqn:R;
      repeat split; intros;
      repeat match goal with H : Raise _ = Raise _ |- _ => injection H as <- end;
      try reflexivity; try discriminate; try contradiction; try congruence.
Qed.

(** X2.  [_create_droplet] never returns a droplet: every path through it
    raises.  It makes at most one create call, sleeps, probes and destroys
    nothing, and leaves the tracked list as it is. *)
Theorem create_droplet_never_returns {E : Env} (self : t) (s : St) :
  let outcome := _create_droplet self s in
  exists e evs,
    fst outcome = Raise e /\
    trace (snd outcome) = trace s ++ evs /\
    exit_nodes (snd outcome) = exit_nodes s /\
    (count_events is_create evs <= 1)%nat /\
    filter is_sleep evs = [] /\
    filter is_destroy evs = [] /\
    filter is_http_get evs = [].
Proof.
  intros outcome. subst outcome.
  destruct (create_raises self s) as (e & He).
  destruct (adds_both _ _ _ (create_one_create self)
              (adds_of_emits _ _ (create_quiet self)) s) as (evs & T & C & Q).
  destruct (quiet_filters evs Q) as (Q1 & Q2 & Q3 & _).
  exists e, evs. split; [exact He |]. split; [exact T |].
  split; [apply keeps_create |]. auto.
Qed.

(** X3.  [_provision_single_node] always returns [None]: it is
    [_create_droplet] with its exception dropped.  It does not probe the
    instance and does not destroy the droplet, whatever the provider did: a
    droplet that was created stays with the provider and is not tracked. *)
Theorem provision_single_never_tracks {E : Env} (self : t) (s : St) :
  let created := _create_droplet self s in
  let outcome := _provision_single_node self s in
  outcome = (Ok None, snd created) /\
  exit_nodes (snd outcome) = exit_nodes s /\
  exists evs,
    trace (snd outcome) = trace s ++ evs /\
    (count_events is_create evs <= 1)%nat /\
    filter is_http_get evs = [] /\
    filter is_destroy evs = [].
Proof.
  intros created outcome. subst created outcome.
  rewrite provision_single_run. cbn [snd].
  split; [reflexivity |]. split; [apply keeps_create |].
  destruct (adds_both _ _ _ (create_one_create self)
              (adds_of_emits _ _ (create_quiet self)) s) as (evs & T & C & Q).
  destruct (quiet_filters evs Q) as (Q1 & Q2 & Q3 & _).
  exists evs. auto.
Qed.

(** X11.  When every step of [_create_droplet] succeeds (the payload is
    built, an image is found, the provider creates the droplet, the action
    is fetched and waited for, and the droplet is fetched again with an
    address), [_create_droplet] raises [TypeError] at its [return], after
    the create call. *)
Theorem creation_ends_in_type_error {E : Env} (self : t) (s : St)
    (script : string) (image_obj : Image.t) (droplet created : Droplet.t)
    (action_id action : Z) (waited : bool) (s1 : St) (w2 w3 w4 w5 : World) :
  let now := fst (time_time (world s)) in
  let started := mkSt (snd (time_time (world s))) (trace s) (exit_nodes s)
                      (droplets_cache s) (cache_time s) in
  let request :=
    {| req_name := (Config.name_prefix (config self) ++ "-" ++ Region.slug (region self)
                      ++ "-" ++ py_str_int now)%string;
       req_region := Region.slug (region self);
       req_image := Image.id image_obj;
       req_size_slug := Size.slug (size self);
       req_user_data := script |} in
  CloudInitScriptGenerator.generate_tailscale_script (cloud_init_generator self)
    (Config.ts_authkey (config self)) (Config.login_server (config self)) started
    = (Ok script, s1) ->
  find_image (Config.image_name (config self)) (images self) = Ok (Some image_obj) ->
  droplet_create request (world s1) = (Ok droplet, w2) ->
  last_opt (Droplet.action_ids droplet) = Some action_id ->
  manager_get_action action_id w2 = (Ok action, w3) ->
  action_wait action w3 = (Ok waited, w4) ->
  manager_get_droplet (py_str_int (Droplet.id droplet)) w4 = (Ok created, w5) ->
  ip_missing created = false ->
  fst (_create_droplet self s) = Raise TypeError /\
  trace (snd (_create_droplet self s))
    = trace s1 ++ [EvCreate request; EvGetAction action_id; EvActionWait action;
                   EvGetDroplet (py_str_int (Droplet.id droplet))].
Proof.
  intros now started request G F C L A W D I.
  unfold _create_droplet. rewrite run_bind, run_observe. fold now. fold started.
  rewrite run_bind, G, F. fold request.
  rewrite run_bind, run_call, C. cbn [fst snd]. rewrite L.
  unfold DigitalOceanClient.get_action, DigitalOceanClient.get_droplet.
  rewrite run_bind, run_call. cbn [world]. rewrite A. cbn [fst snd].
  rewrite run_bind, run_call. cbn [world]. rewrite W. cbn [fst snd].
  rewrite run_bind, run_call. cbn [world]. rewrite D. cbn [fst snd]. rewrite I.
  unfold matmul_decorator. cbn [raise fst snd trace]. rewrite <- !app_assoc.
  split; reflexivity.
Qed.

(** X11, witness: the provider creates droplet 7 and returns it with its
    address. *)
Lemma creation_ends_in_type_error_witness :
  manager_get_droplet "7" (world provisioning)
    = (Ok (droplet 7 "active"), world provisioning) /\
  ip_missing (droplet 7 "active") = false /\
  fst (_create_droplet (manager 1 3) provisioning) = Raise TypeError.
Proof.
  split; [reflexivity |]. split; [reflexivity |].
  destruct (creation_ends_in_type_error (manager 1 3) provisioning
              "K=ts-key {} https://controlplane.tailscale.com echo setup"
              (Image.mk 1 (Some "ubuntu-22-04-x64")) (droplet 7 "new") (droplet 7 "active")
              7 7 true
              (snd (CloudInitScriptGenerator.generate_tailscale_script
                      (cloud_init_generator (manager 1 3)) "ts-key"
                      "https://controlplane.tailscale.com" provisioning))
              (world provisioning) (world provisioning) (world provisioning)
              (world provisioning)
              eq_refl eq_refl eq_refl eq_refl eq_refl eq_refl eq_refl eq_refl) as [H _].
  exact H.
Defined.

(** ** What the health check leaves *)

Section Health.
Context {E : Env}.

Lemma failed_not_healthy n : is_failed n = true -> is_healthy n = false.
Proof.
  unfold is_failed, is_healthy. intros H. apply orb_prop in H.
  destruct H as [H | H]; apply String.eqb_eq in H; rewrite H; reflexivity.
Qed.

Lemma is_gone_listed current n :
  is_gone current n = negb (listed current (ExitNodeInfo.droplet_id n)).
Proof. unfold is_gone, listed. destruct (find_droplet _ _); reflexivity. Qed.

Lemma check_node_checked current node_info s :
  exists c s',
    check_node current node_info s = (Ok c, s') /\
    exit_nodes s' = exit_nodes s /\
    checked_as current node_info c.
Proof.
  unfold check_node, check_node_with, try_except, checked_as, listed.
  destruct (find_droplet (ExitNodeInfo.droplet_id node_info) current) as [d |] eqn:F.
  - destruct (String.eqb (Droplet.status d) "active").
    + rewrite run_bind.
      pose proof (keeps_get_node_status d s) as K.
      destruct (_get_node_status d s) as [[o | e] s1]; cbn [snd] in K.
      * unfold observe.
        destruct o as [[ip | ip ts data] |]; unfold bind, observe;
          destruct (datetime_now (world s1)) as [now w2]; cbn [ret];
          eexists _, _; (split; [reflexivity |]); cbn; auto.
      * eexists _, _. split; [reflexivity |]. cbn. auto.
    + eexists _, _. split; [reflexivity |]. cbn. auto.
  - eexists _, _. split; [reflexivity |]. cbn. auto.
Qed.

Lemma check_nodes_checked current nodes : forall s,
  exists checked s',
    check_nodes current nodes s = (Ok checked, s') /\
    exit_nodes s' = exit_nodes s /\
    Forall2 (checked_as current) nodes checked.
Proof.
  induction nodes as [| n nodes IH]; intros s; cbn [check_nodes].
  - exists [], s. auto.
  - rewrite run_bind.
    destruct (check_node_checked current n s) as (c & s1 & R1 & N1 & V1). rewrite R1.
    rewrite run_bind.
    destruct (IH s1) as (cs & s2 & R2 & N2 & V2). rewrite R2.
    exists (c :: cs), s2. cbn [ret]. repeat split; [congruence |].
    constructor; assumption.
Qed.

Lemma checked_vanished current nodes checked :
  Forall2 (checked_as current) nodes checked ->
  map fst (filter is_vanished checked) = filter (is_gone current) (map fst checked).
Proof.
  induction 1 as [| n c nodes checked [Hid Hc] _ IH]; [reflexivity |].
  cbn [filter map]. rewrite is_gone_listed, Hid. unfold is_vanished at 1.
  destruct (snd c); destruct Hc as [H1 H2]; rewrite H2; cbn [negb map];
    fold is_vanished; congruence.
Qed.

Lemma checked_ids current nodes checked :
  Forall2 (checked_as current) nodes checked ->
  map ExitNodeInfo.droplet_id
      (filter (fun n => negb (is_gone current n)) (map fst checked))
  = filter (listed current) (map ExitNodeInfo.droplet_id nodes).
Proof.
  induction 1 as [| n c nodes checked [Hid Hc] _ IH]; [reflexivity |].
  cbn [filter map]. rewrite is_gone_listed, Hid, negb_involutive.
  destruct (listed current (ExitNodeInfo.droplet_id n)); cbn [map]; congruence.
Qed.

Lemma checked_statuses current nodes checked :
  Forall2 (checked_as current) nodes checked ->
  Forall (fun n => is_healthy n = true \/ is_failed n = true)
         (filter (fun n => negb (is_gone current n)) (map fst checked)).
Proof.
  induction 1 as [| n c nodes checked [Hid Hc] _ IH]; [constructor |].
  cbn [filter map]. rewrite is_gone_listed, Hid, negb_involutive.
  destruct (snd c); destruct Hc as [H1 H2]; rewrite H2; auto.
Qed.

Lemma checked_healthy current nodes checked :
  Forall2 (checked_as current) nodes checked ->
  map fst (filter is_healthy_verdict checked)
  = filter is_healthy (filter (fun n => negb (is_gone current n)) (map fst checked)).
Proof.
  induction 1 as [| n c nodes checked [Hid Hc] _ IH]; [reflexivity |].
  cbn [filter map]. rewrite is_gone_listed, Hid, negb_involutive.
  unfold is_healthy_verdict at 1.
  destruct (snd c); destruct Hc as [H1 H2]; rewrite H2; cbn [filter map].
  - rewrite H1. cbn [map]. congruence.
  - rewrite (failed_not_healthy _ H1). exact IH.
  - exact IH.
Qed.

(** The health check in full. *)
Lemma check_existing_outcome s :
  exists current healthy s0 s',
    DigitalOceanClient.get_droplets false s = (Ok current, s0) /\
    _check_existing_nodes s = (Ok healthy, s') /\
    map ExitNodeInfo.droplet_id (exit_nodes s')
      = filter (listed current) (map ExitNodeInfo.droplet_id (exit_nodes s)) /\
    Forall (fun n => is_healthy n = true \/ is_failed n = true) (exit_nodes s') /\
    healthy = filter is_healthy (exit_nodes s').
Proof.
  unfold _check_existing_nodes. rewrite run_bind.
  destruct (never_get_droplets false s) as (current & Hc).
  pose proof (keeps_get_droplets false s) as K.
  destruct (DigitalOceanClient.get_droplets false s) as [[current' | e] s1];
    cbn [fst snd] in *; [| discriminate].
  injection Hc as ->.
  rewrite run_bind. unfold get_exit_nodes at 1. rewrite run_bind.
  destruct (check_nodes_checked current (exit_nodes s1) s1) as (cs & s2 & R2 & N2 & V2).
  rewrite R2. rewrite run_bind. unfold set_exit_nodes at 1. rewrite run_bind.
  rewrite (checked_vanished _ _ _ V2).
  set (s3 := mkSt (world s2) (trace s2) (map fst cs) (droplets_cache s2) (cache_time s2)).
  change (map fst cs) with (exit_nodes s3).
  rewrite (remove_all_filter (is_gone current) (is_gone_eqb current) s3).
  exists current. eexists _, s1, _. split; [reflexivity |]. split; [reflexivity |].
  cbn [exit_nodes]. subst s3. cbn [exit_nodes].
  rewrite <- K. split; [apply checked_ids; exact V2 |].
  split; [apply (checked_statuses _ _ _ V2) | apply (checked_healthy _ _ _ V2)].
Qed.

Lemma filter_not_failed l :
  Forall (fun n => is_healthy n = true \/ is_failed n = true) l ->
  filter (fun n => negb (is_failed n)) l = filter is_healthy l.
Proof.
  induction 1 as [| n l [H | H] _ IH]; [reflexivity | |]; cbn [filter].
  - rewrite H. destruct (is_failed n) eqn:Fn.
    + rewrite (failed_not_healthy _ Fn) in H. discriminate.
    + cbn [negb]. congruence.
  - rewrite H, (failed_not_healthy _ H). exact IH.
Qed.

Lemma filter_all_healthy (l : list ExitNodeInfo.t) :
  forallb is_healthy (filter is_healthy l) = true.
Proof.
  induction l as [| n l IH]; [reflexivity |]. cbn [filter].
  destruct (is_healthy n) eqn:H; [cbn [forallb]; rewrite H |]; exact IH.
Qed.

(** The two passes that open a cycle: what stays tracked is the list the
    health check returned. *)
Lemma passes_outcome s :
  exists healthy s0 s1,
    _check_existing_nodes s = (Ok healthy, s0) /\
    _cleanup_failed_nodes s0 = (Ok tt, s1) /\
    exit_nodes s1 = healthy /\
    forallb is_healthy healthy = true /\
    (List.length healthy <= List.length (exit_nodes s))%nat.
Proof.
  destruct (check_existing_outcome s) as (current & healthy & sl & s0 & _ & R0 & I0 & F0 & H0).
  destruct (cleanup_spec s0) as (s1 & segs & R1 & N1 & _).
  exists healthy, s0, s1. split; [exact R0 |]. split; [exact R1 |].
  rewrite N1, (filter_not_failed _ F0), <- H0.
  split; [reflexivity |]. split; [subst healthy; apply filter_all_healthy |].
  subst healthy. etransitivity; [apply filter_length_le |].
  rewrite <- (length_map ExitNodeInfo.droplet_id), I0.
  etransitivity; [apply filter_length_le |]. rewrite length_map. lia.
Qed.

End Health.

(** X4.  [_check_existing_nodes] returns whatever the provider and the
    instances answer.  The ids it leaves tracked are the ids tracked before
    whose droplet is in the listing, in their order; every node left tracked
    has the status 'healthy', 'unhealthy' or 'error'; and the list it returns
    is the list of the nodes left tracked that are healthy. *)
Theorem health_check_outcome {E : Env} (s : St) :
  exists current healthy s',
    fst (DigitalOceanClient.get_droplets false s) = Ok current /\
    _check_existing_nodes s = (Ok healthy, s') /\
    map ExitNodeInfo.droplet_id (exit_nodes s')
      = filter (listed current) (map ExitNodeInfo.droplet_id (exit_nodes s)) /\
    Forall (fun n => is_healthy n = true \/ is_failed n = true) (exit_nodes s') /\
    healthy = filter is_healthy (exit_nodes s').
Proof.
  destruct (check_existing_outcome s) as (current & healthy & s0 & s' & R & H).
  exists current, healthy, s'. rewrite R. split; [reflexivity | exact H].
Qed.

(** X5.  After [_check_existing_nodes] and [_cleanup_failed_nodes] the
    tracked list is the list the health check returned: every tracked node is
    healthy, so the count of healthy nodes [run] takes is the length of the
    tracked list. *)
Theorem tracked_after_cleanup_is_healthy_list {E : Env} (s : St) :
  exists healthy s0 s1,
    _check_existing_nodes s = (Ok healthy, s0) /\
    _cleanup_failed_nodes s0 = (Ok tt, s1) /\
    exit_nodes s1 = healthy /\
    forallb is_healthy healthy = true /\
    healthy_count (exit_nodes s1) = Z.of_nat (List.length (exit_nodes s1)).
Proof.
  destruct (passes_outcome s) as (healthy & s0 & s1 & R0 & R1 & N & H & _).
  exists healthy, s0, s1. repeat split; try assumption.
  rewrite N. unfold healthy_count. f_equal. f_equal.
  clear - H. induction healthy as [| n l IH]; [reflexivity |].
  cbn [forallb] in H. apply andb_prop in H. destruct H as [Hn Hl].
  cbn [filter]. unfold is_healthy in Hn. rewrite Hn. cbn [List.length]. f_equal. auto.
Qed.

(** ** A cycle under a configuration that passed its validation *)

Section ValidCycle.
Context {E : Env}.

Lemma provision_single_healthy self s n :
  fst (_provision_single_node self s) = Ok (Some n) -> is_healthy n = true.
Proof. rewrite provision_single_run. discriminate. Qed.

Lemma collect_healthy self k : forall s nodes,
  fst (collect_results self k s) = Ok nodes -> forallb is_healthy nodes = true.
Proof.
  induction k as [| k IH]; intros s nodes; cbn [collect_results].
  - intros [= <-]. reflexivity.
  - rewrite run_bind, run_try.
    pose proof (provision_single_healthy self s) as P.
    destruct (_provision_single_node self s) as [[o | e] s1]; cbn [fst] in P.
    + rewrite run_bind. specialize (IH s1).
      destruct (collect_results self k s1) as [[rest | e] s2]; [| discriminate].
      cbn [ret fst]. intros [= <-]. specialize (IH rest eq_refl).
      destruct o as [n |]; [| exact IH]. cbn [forallb]. rewrite (P n eq_refl). exact IH.
    + cbn [ret]. rewrite run_bind. specialize (IH s1).
      destruct (collect_results self k s1) as [[rest | e'] s2]; [| discriminate].
      cbn [ret fst]. intros [= <-]. exact (IH rest eq_refl).
Qed.

Lemma provision_nodes_healthy self count s : 0 < count ->
  exists added evs s',
    _provision_nodes self count s = (Ok tt, s') /\
    exit_nodes s' = exit_nodes s ++ added /\
    Z.of_nat (List.length added) <= count /\
    forallb is_healthy added = true /\
    trace s' = trace s ++ evs /\
    count_submits evs = count.
Proof.
  intros Hc. unfold _provision_nodes.
  destruct (Z.leb_spec count 0) as [L | _]; [lia |].
  rewrite run_bind, submit_all_spec.
  set (s1 := mkSt _ _ _ _ _).
  rewrite run_bind.
  pose proof (collect_length self (Z.to_nat count) s1) as (nodes & Hn & Hl).
  pose proof (keeps_collect self (Z.to_nat count) s1) as Hk.
  pose proof (collect_healthy self (Z.to_nat count) s1) as Hh.
  destruct (emits_collect _ not_submit_ok self (Z.to_nat count) s1) as (evs & Ht & Hq).
  destruct (collect_results self (Z.to_nat count) s1) as [[nodes' | e] s2];
    cbn [fst snd] in *; [| discriminate].
  injection Hn as ->. specialize (Hh nodes eq_refl).
  assert (Hs : count_submits (map EvSubmit (seq 0 (Z.to_nat count)) ++ evs) = count).
  { rewrite count_submits_app, count_submits_seq, (count_submits_none _ Hq). lia. }
  assert (Htr : trace s2 = trace s ++ map EvSubmit (seq 0 (Z.to_nat count)) ++ evs).
  { rewrite Ht. subst s1. cbn [trace]. rewrite app_assoc. reflexivity. }
  destruct nodes as [| n nodes].
  - exists [], (map EvSubmit (seq 0 (Z.to_nat count)) ++ evs), s2. cbn [ret].
    rewrite app_nil_r. repeat split; try assumption; try (cbn; lia).
  - exists (n :: nodes), (map EvSubmit (seq 0 (Z.to_nat count)) ++ evs),
      (mkSt (world s2) (trace s2) (exit_nodes s2 ++ n :: nodes)
            (droplets_cache s2) (cache_time s2)).
    cbn [exit_nodes trace]. repeat split; try assumption; try lia.
    rewrite Hk. reflexivity.
Qed.

Lemma save_outcome self s :
  exists s', _save_exit_nodes self s = (Ok tt, s') /\ exit_nodes s' = exit_nodes s /\
    trace s' = trace s ++ [EvSaveState (exit_nodes_file self)
                             (JArray (map ExitNodeInfo.to_dict (exit_nodes s)))].
Proof.
  unfold _save_exit_nodes, try_except, bind, get_exit_nodes, call.
  destruct (json_dump _ _ (world s)) as [[[] | e] w]; eexists; repeat split; reflexivity.
Qed.

Lemma forallb_healthy_app (a b : list ExitNodeInfo.t) :
  forallb is_healthy a = true -> forallb is_healthy b = true ->
  forallb is_healthy (a ++ b) = true.
Proof. intros Ha Hb. rewrite forallb_app, Ha, Hb. reflexivity. Qed.

Lemma healthy_count_all l :
  forallb is_healthy l = true -> healthy_count l = Z.of_nat (List.length l).
Proof.
  intros H. unfold healthy_count. f_equal. f_equal.
  induction l as [| n l IH]; [reflexivity |].
  cbn [forallb] in H. apply andb_prop in H. destruct H as [Hn Hl].
  cbn [filter]. unfold is_healthy in Hn. rewrite Hn. cbn [List.length]. f_equal. auto.
Qed.

End ValidCycle.

(** X6.  Under a configuration that [Config.__post_init__] accepts, a cycle
    of [run] returns; it submits [max(0, target - healthy)] provisioning
    tasks, [healthy] being the number of nodes the health check returned (the
    clamp to [max_nodes] is not reached); the tracked list it ends with is
    that healthy list followed by at most that many new nodes, all healthy;
    and its last event is the save of that list. *)
Theorem cycle_with_valid_configuration {E : Env} (self : t) (s : St) :
  Config.__post_init__ (config self) = Ok tt ->
  exists healthy s0 added evs s',
    _check_existing_nodes s = (Ok healthy, s0) /\
    run_cycle self s = (Ok tt, s') /\
    exit_nodes s' = healthy ++ added /\
    forallb is_healthy (exit_nodes s') = true /\
    Z.of_nat (List.length added)
      <= Z.max 0 (Config.target_nodes (config self) - Z.of_nat (List.length healthy)) /\
    count_submits evs
      = Z.max 0 (Config.target_nodes (config self) - Z.of_nat (List.length healthy)) /\
    trace s' = trace s ++ evs ++
                 [EvSaveState (exit_nodes_file self)
                    (JArray (map ExitNodeInfo.to_dict (exit_nodes s')))].
Proof.
  intros Hv.
  assert (Hm : Config.target_nodes (config self) <= Config.max_nodes (config self)).
  { unfold Config.__post_init__ in Hv.
    destruct (Config.falsy _); [discriminate |].
    destruct (Config.falsy _); [discriminate |].
    destruct (Z.gtb_spec (Config.target_nodes (config self))
                (Config.max_nodes (config self))); [discriminate | lia]. }
  destruct (passes_outcome s) as (healthy & s0 & s1 & R0 & R1 & N1 & H1 & _).
  destruct (emits_check_existing _ not_submit_ok s) as (e0 & T0 & Q0).
  destruct (emits_cleanup _ not_submit_ok s0) as (e1 & T1 & Q1).
  rewrite R0 in T0. rewrite R1 in T1. cbn [snd] in T0, T1.
  exists healthy, s0.
  unfold run_cycle. rewrite run_bind, R0, run_bind, R1, run_bind.
  unfold get_exit_nodes at 1. cbv beta iota. rewrite N1, (healthy_count_all _ H1).
  set (needed := Z.max 0 (Config.target_nodes (config self) - Z.of_nat (List.length healthy))).
  rewrite run_bind.
  destruct (Z.gtb_spec needed 0) as [Hn | Hn].
  - destruct (Z.leb_spec (Z.of_nat (List.length healthy) + needed)
                (Config.max_nodes (config self))) as [_ | Hx]; [| lia].
    destruct (provision_nodes_healthy self needed s1 Hn)
      as (added & e2 & s2 & R2 & N2 & L2 & H2 & T2 & C2).
    rewrite R2. destruct (save_outcome self s2) as (s' & R & N & T).
    exists added, (e0 ++ e1 ++ e2), s'. rewrite N, N2, N1.
    split; [reflexivity |]. split; [exact R |]. split; [reflexivity |].
    split; [apply forallb_healthy_app; assumption |]. split; [exact L2 |].
    split.
    + rewrite !count_submits_app, (count_submits_none _ Q0), (count_submits_none _ Q1). lia.
    + rewrite T, N2, N1, T2, T1, T0, <- !app_assoc. reflexivity.
  - cbn [ret]. destruct (save_outcome self s1) as (s' & R & N & T).
    exists [], (e0 ++ e1), s'. rewrite N, N1, app_nil_r.
    split; [reflexivity |]. split; [exact R |]. split; [reflexivity |].
    split; [exact H1 |]. split; [cbn; lia |].
    split.
    + rewrite !count_submits_app, (count_submits_none _ Q0), (count_submits_none _ Q1). lia.
    + rewrite T, N1, T1, T0, <- !app_assoc. reflexivity.
Qed.

(** X6, witness: the default counts, nothing tracked, and a provider
    whose droplet never answers. *)
Lemma cycle_with_valid_configuration_witness :
  Config.__post_init__ (config (manager 1 3)) = Ok tt /\
  exists s', run_cycle (manager 1 3) provisioning = (Ok tt, s') /\
             forallb is_healthy (exit_nodes s') = true.
Proof.
  split; [reflexivity |].
  destruct (cycle_with_valid_configuration (manager 1 3) provisioning eq_refl)
    as (healthy & s0 & added & evs & s' & _ & R & _ & H & _).
  exists s'. split; [exact R | exact H].
Defined.

(** ** The droplet cache *)

Section Caching.
Context {E : Env}.

Lemma get_droplets_fresh s :
  cache_fresh s = true ->
  exists l, droplets_cache s = Some l /\
    DigitalOceanClient.get_droplets false s
      = (Ok l, mkSt (snd (time_time (world s))) (trace s) (exit_nodes s)
                    (droplets_cache s) (cache_time s)).
Proof.
  unfold cache_fresh, DigitalOceanClient.get_droplets. intros F.
  rewrite run_bind, run_observe, run_bind. unfold get_cache at 1.
  cbn [droplets_cache cache_time fst snd orb].
  destruct (droplets_cache s) as [l |] eqn:C; [| discriminate].
  destruct (cache_time s) as [t |] eqn:T; [| discriminate].
  apply negb_true_iff in F. rewrite F. exists l. split; [reflexivity |].
  rewrite run_bind. reflexivity.
Qed.

Lemma get_droplets_refresh force s :
  force || negb (cache_fresh s) = true ->
  DigitalOceanClient.get_droplets force s =
  match get_all_droplets (snd (time_time (world s))) with
  | (Ok l, w2) =>
      (Ok l, mkSt w2 (trace s ++ [EvListDroplets]) (exit_nodes s) (Some l)
                  (Some (fst (time_time (world s)))))
  | (Raise _, w2) =>
      (Ok (DigitalOceanClient.or_empty (droplets_cache s)),
       mkSt w2 (trace s ++ [EvListDroplets]) (exit_nodes s) (droplets_cache s)
            (cache_time s))
  end.
Proof.
  unfold cache_fresh, DigitalOceanClient.get_droplets. intros F.
  rewrite run_bind, run_observe, run_bind. unfold get_cache at 1.
  cbn [droplets_cache cache_time fst snd].
  replace (force || _) with true.
  2:{ symmetry. destruct force; [reflexivity |]. cbn [orb] in *.
      destruct (droplets_cache s); [| reflexivity].
      destruct (cache_time s); [| reflexivity].
      rewrite negb_involutive in F. exact F. }
  rewrite run_bind, run_try, run_bind, run_call. cbn [world trace fst snd].
  destruct (get_all_droplets (snd (time_time (world s)))) as [[l | e] w2]; reflexivity.
Qed.

(** A forced listing returns and adds the one call. *)
Lemma DigitalOceanClient_get_droplets_forced s :
  exists l s', DigitalOceanClient.get_droplets true s = (Ok l, s') /\
               trace s' = trace s ++ [EvListDroplets].
Proof.
  rewrite (get_droplets_refresh true s eq_refl).
  destruct (get_all_droplets (snd (time_time (world s)))) as [[l | e] w2]; eauto.
Qed.

End Caching.

(** X7.  [DigitalOceanClient.get_droplets] never raises.  Without
    [force_refresh] and with a cache at most sixty seconds old it returns the
    cache, calls nothing and leaves cache and stamp as they are.  Otherwise
    it makes one listing call: when the call returns, the answer is returned
    and cached with the time read at the start; when the call raises, the
    old cache is returned ([[]] when there is none) and cache and stamp stay
    as they were. *)
Theorem droplet_listing_cache {E : Env} (force : bool) (s : St) :
  let now := fst (time_time (world s)) in
  let listing := get_all_droplets (snd (time_time (world s))) in
  let outcome := DigitalOceanClient.get_droplets force s in
  (force = false -> cache_fresh s = true ->
     droplets_cache s = Some (match fst outcome with Ok l => l | Raise _ => [] end) /\
     snd outcome = mkSt (snd (time_time (world s))) (trace s) (exit_nodes s)
                        (droplets_cache s) (cache_time s)) /\
  (force || negb (cache_fresh s) = true ->
     trace (snd outcome) = trace s ++ [EvListDroplets] /\
     exit_nodes (snd outcome) = exit_nodes s /\
     (forall l, fst listing = Ok l ->
        fst outcome = Ok l /\
        droplets_cache (snd outcome) = Some l /\ cache_time (snd outcome) = Some now) /\
     (forall e, fst listing = Raise e ->
        fst outcome = Ok (DigitalOceanClient.or_empty (droplets_cache s)) /\
        droplets_cache (snd outcome) = droplets_cache s /\
        cache_time (snd outcome) = cache_time s)) /\
  (exists l, fst outcome = Ok l).
Proof.
  intros now listing outcome. subst now listing outcome.
  split; [| split].
  - intros -> F. destruct (get_droplets_fresh s F) as (l & C & R).
    rewrite R. cbn [fst snd]. auto.
  - intros F. rewrite (get_droplets_refresh force s F).
    destruct (get_all_droplets (snd (time_time (world s)))) as [[l | e] w2];
      cbn [fst snd trace exit_nodes droplets_cache cache_time].
    + split; [reflexivity |]. split; [reflexivity |]. split.
      * intros l' [= <-]. repeat split.
      * intros e' H. discriminate H.
    + split; [reflexivity |]. split; [reflexivity |]. split.
      * intros l' H. discriminate H.
      * intros e' _. repeat split.
  - destruct (force || negb (cache_fresh s)) eqn:F.
    + rewrite (get_droplets_refresh force s F).
      destruct (get_all_droplets (snd (time_time (world s)))) as [[l | e] w2];
        cbn [fst]; eauto.
    + apply orb_false_iff in F. destruct F as [-> F]. apply negb_false_iff in F.
      destruct (get_droplets_fresh s F) as (l & C & R). rewrite R. cbn [fst]. eauto.
Qed.

(** X8.  When a call of [get_droplets] has listed the droplets and the
    listing returned, a next call without [force_refresh] whose clock reads
    at most sixty seconds more returns the same list and calls nothing. *)
Theorem refreshed_listing_is_reused {E : Env} (force : bool) (s : St) (l : list Droplet.t) :
  let first := DigitalOceanClient.get_droplets force s in
  force || negb (cache_fresh s) = true ->
  fst (get_all_droplets (snd (time_time (world s)))) = Ok l ->
  fst (time_time (world (snd first))) - fst (time_time (world s))
    <= DigitalOceanClient.cache_ttl_seconds ->
  fst first = Ok l /\
  fst (DigitalOceanClient.get_droplets false (snd first)) = Ok l /\
  trace (snd (DigitalOceanClient.get_droplets false (snd first))) = trace (snd first).
Proof.
  intros first F L T. subst first. revert T.
  rewrite (get_droplets_refresh force s F).
  destruct (get_all_droplets (snd (time_time (world s)))) as [[l' | e] w2];
    cbn [fst] in L; [| discriminate].
  injection L as ->. cbn [fst snd world]. intros T.
  set (s1 := mkSt _ _ _ _ _).
  assert (Fr : cache_fresh s1 = true).
  { unfold cache_fresh. subst s1. cbn [droplets_cache cache_time world].
    apply negb_true_iff. destruct (Z.gtb_spec
      (fst (time_time w2) - fst (time_time (world s))) DigitalOceanClient.cache_ttl_seconds);
      [lia | reflexivity]. }
  destruct (get_droplets_fresh s1 Fr) as (l0 & C & R). rewrite R.
  subst s1. cbn [droplets_cache] in C. injection C as <-. auto.
Qed.

(** X8, witness: a forced listing of four droplets on a clock that
    stands still. *)
Lemma refreshed_listing_is_reused_witness :
  true || negb (cache_fresh crowded) = true /\
  fst (get_all_droplets (snd (time_time (world crowded)))) = Ok four_droplets /\
  fst (DigitalOceanClient.get_droplets false
         (snd (DigitalOceanClient.get_droplets true crowded))) = Ok four_droplets.
Proof.
  split; [reflexivity |]. split; [reflexivity |].
  destruct (refreshed_listing_is_reused true crowded four_droplets eq_refl eq_refl)
    as (_ & H & _).
  - vm_compute. discriminate.
  - exact H.
Defined.

(** ** The image of the droplets *)

Section Images.
Context {E : Env}.

(** Over images that all have a slug the lookup of [_create_droplet] is the
    first image whose slug holds the name. *)
Lemma find_image_find name images :
  forallb has_slug images = true ->
  find_image name images = Ok (find (slug_matches name) images).
Proof.
  induction images as [| img images IH]; [reflexivity |].
  cbn [forallb find_image find]. unfold has_slug at 1, slug_matches at 1.
  destruct (Image.slug img) as [slug |]; [| discriminate].
  cbn [andb]. intros H. destruct (contains name slug); [reflexivity | auto].
Qed.

Lemma slug_contains_matches name img :
  slug_contains name img = true -> slug_matches name img = true.
Proof.
  unfold slug_contains, slug_matches. destruct (Image.slug img); [| discriminate].
  intros H. apply andb_prop in H. tauto.
Qed.

Lemma existsb_find {A} (f : A -> bool) l :
  existsb f l = true -> exists a, find f l = Some a.
Proof.
  induction l as [| a l IH]; cbn; [discriminate |].
  destruct (f a); [eauto | exact IH].
Qed.

End Images.

(** X9.  When [_validate_image_availability] passes and every image has
    a slug, the lookup of [_create_droplet] finds an image of the list whose
    slug holds the configured name. *)
Theorem validated_image_is_found (image_name : string) (images : list Image.t) :
  _validate_image_availability image_name images = Ok tt ->
  forallb has_slug images = true ->
  exists img slug,
    find_image image_name images = Ok (Some img) /\
    In img images /\
    Image.slug img = Some slug /\ contains image_name slug = true.
Proof.
  unfold _validate_image_availability. intros V S.
  destruct (existsb (slug_contains image_name) images) eqn:X; [| discriminate].
  assert (X' : existsb (slug_matches image_name) images = true).
  { apply existsb_exists in X. destruct X as (img & I & H).
    apply existsb_exists. exists img. split; [exact I |].
    apply slug_contains_matches. exact H. }
  destruct (existsb_find _ _ X') as (img & F).
  rewrite (find_image_find _ _ S), F.
  apply find_some in F. destruct F as [I M]. unfold slug_matches in M.
  destruct (Image.slug img) as [slug |] eqn:G; [| discriminate].
  exists img, slug. auto.
Qed.

(** X9, witness: the image list of the example manager. *)
Lemma validated_image_is_found_witness :
  _validate_image_availability "ubuntu-22-04" (images (manager 1 3)) = Ok tt /\
  forallb has_slug (images (manager 1 3)) = true /\
  exists img, find_image "ubuntu-22-04" (images (manager 1 3)) = Ok (Some img).
Proof.
  split; [reflexivity |]. split; [reflexivity |].
  destruct (validated_image_is_found "ubuntu-22-04" (images (manager 1 3))
              eq_refl eq_refl) as (img & slug & H & _).
  exists img. exact H.
Defined.

(** X10.  An image without a slug that comes before every image whose
    slug holds the name makes the lookup of [_create_droplet] raise
    [TypeError], while [_validate_image_availability] skips it: the
    validation answers as for the images after it. *)
Theorem slugless_image_breaks_lookup (image_name : string)
    (before : list Image.t) (img : Image.t) (rest : list Image.t) :
  forallb (fun i => has_slug i && negb (slug_matches image_name i)) before = true ->
  Image.slug img = None ->
  find_image image_name (before ++ img :: rest) = Raise TypeError /\
  _validate_image_availability image_name (before ++ img :: rest)
    = _validate_image_availability image_name rest.
Proof.
  intros B N. induction before as [| b before IH]; cbn [app].
  - cbn [find_image]. rewrite N. split; [reflexivity |].
    unfold _validate_image_availability. cbn [existsb]. unfold slug_contains at 1.
    rewrite N. reflexivity.
  - cbn [forallb] in B. apply andb_prop in B. destruct B as [Hb B].
    apply andb_prop in Hb. destruct Hb as [H1 H2].
    destruct (IH B) as [F V]. unfold has_slug in H1. unfold slug_matches in H2.
    cbn [find_image]. destruct (Image.slug b) as [slug |] eqn:G; [| discriminate].
    apply negb_true_iff in H2. rewrite H2. split; [exact F |].
    unfold _validate_image_availability in *. cbn [existsb]. unfold slug_contains at 1.
    rewrite G, H2, andb_false_r. exact V.
Qed.

(** X10, witness: an image without a slug before the image of the
    example manager; the validation passes and the lookup raises. *)
Lemma slugless_image_breaks_lookup_witness :
  find_image "ubuntu-22-04" (Image.mk 9 None :: images (manager 1 3)) = Raise TypeError /\
  _validate_image_availability "ubuntu-22-04" (Image.mk 9 None :: images (manager 1 3))
    = Ok tt.
Proof.
  destruct (slugless_image_breaks_lookup "ubuntu-22-04" [] (Image.mk 9 None)
              (images (manager 1 3)) eq_refl eq_refl) as [F V].
  split; [exact F |]. etransitivity; [exact V | reflexivity].
Defined.

(** ** The resources chosen at startup *)

Section Resources.
Context {E : Env}.

(** [cheapest] leaves the first of the cheapest priced sizes. *)
Lemma cheapest_first sizes : forall best bp,
  Size.price_monthly best = Some bp ->
  exists before after p,
    best :: sizes = before ++ cheapest best bp sizes :: after /\
    Size.price_monthly (cheapest best bp sizes) = Some p /\
    forallb (dearer_than p) before = true /\
    forallb (not_cheaper_than p) after = true.
Proof.
  induction sizes as [| s rest IH]; intros best bp Hb; cbn [cheapest].
  - exists [], [], bp. auto.
  - assert (Keep : (forall q', Size.price_monthly s = Some q' -> bp <= q') ->
      exists before after p,
        best :: s :: rest = before ++ cheapest best bp rest :: after /\
        Size.price_monthly (cheapest best bp rest) = Some p /\
        forallb (dearer_than p) before = true /\
        forallb (not_cheaper_than p) after = true).
    { intros Hq. destruct (IH best bp Hb) as (pre & post & p & S & P & D & C).
      destruct pre as [| b pre].
      - cbn [app] in S. injection S as S1 S2.
        exists [], (s :: rest), p. rewrite <- S1 in *. rewrite Hb in P. injection P as <-.
        split; [reflexivity |]. split; [exact Hb |]. split; [reflexivity |].
        cbn [forallb]. rewrite S2 at 1. rewrite C, andb_true_r.
        unfold not_cheaper_than. destruct (Size.price_monthly s) as [q |]; [| reflexivity].
        apply Z.leb_le. apply Hq. reflexivity.
      - cbn [app] in S. injection S as S1 S2. subst b.
        exists (best :: s :: pre), post, p. cbn [app].
        split; [do 2 f_equal; exact S2 |]. split; [exact P |]. split; [| exact C].
        cbn [forallb] in *. apply andb_prop in D. destruct D as [D1 D2].
        rewrite D1, D2, andb_true_r. cbn [andb].
        unfold dearer_than in *. rewrite Hb in D1. apply Z.ltb_lt in D1.
        destruct (Size.price_monthly s) as [q |]; [| reflexivity].
        apply Z.ltb_lt. specialize (Hq q eq_refl). lia. }
    destruct (Size.price_monthly s) as [q |] eqn:Hs.
    + destruct (Z.ltb_spec q bp) as [Hlt | Hge].
      * destruct (IH s q Hs) as (pre & post & p & S & P & D & C).
        exists (best :: pre), post, p. cbn [app].
        split; [f_equal; exact S |]. split; [exact P |]. split; [| exact C].
        cbn [forallb]. rewrite D, andb_true_r. unfold dearer_than. rewrite Hb.
        apply Z.ltb_lt.
        destruct pre as [| b pre].
        -- cbn [app] in S. injection S as S1 _. rewrite <- S1, Hs in P.
           injection P as <-. exact Hlt.
        -- cbn [app] in S. injection S as S1 _. subst b.
           cbn [forallb] in D. apply andb_prop in D. destruct D as [D1 _].
           unfold dearer_than in D1. rewrite Hs in D1. apply Z.ltb_lt in D1. lia.
      * apply Keep. intros q' [= <-]. exact Hge.
    + apply Keep. discriminate.
Qed.

Lemma filter_priced region sizes :
  forallb (fun s => match Size.price_monthly s with Some _ => true | None => false end)
          (filter (size_qualifies region) sizes) = true.
Proof.
  induction sizes as [| s sizes IH]; [reflexivity |]. cbn [filter].
  destruct (size_qualifies region s) eqn:Q; [| exact IH].
  cbn [forallb]. rewrite IH, andb_true_r. unfold size_qualifies in Q.
  apply andb_prop in Q. tauto.
Qed.

Lemma find_region_outcome regions region_slug :
  match _find_region regions region_slug with
  | Ok r => In r regions /\ Region.slug r = region_slug
  | Raise e => e = ConfigurationError
  end.
Proof.
  induction regions as [| r rest IH]; cbn [_find_region]; [reflexivity |].
  destruct (String.eqb_spec (Region.slug r) region_slug) as [H | H].
  - split; [left; reflexivity | exact H].
  - destruct (_find_region rest region_slug); [| exact IH].
    destruct IH as [I S]. split; [right; exact I | exact S].
Qed.

Lemma select_size_outcome region sizes :
  match _select_optimal_size region sizes with
  | Ok size => In size sizes /\ size_qualifies region size = true
  | Raise e => e = ConfigurationError
  end.
Proof.
  unfold _select_optimal_size. fold (size_qualifies region).
  pose proof (filter_priced region sizes) as P.
  destruct (filter (size_qualifies region) sizes) as [| s rest] eqn:F; [reflexivity |].
  cbn [forallb] in P.
  destruct (Size.price_monthly s) as [p |] eqn:Hs; [| discriminate].
  destruct (cheapest_first rest s p Hs) as (pre & post & q & S & _).
  assert (I : In (cheapest s p rest) (filter (size_qualifies region) sizes)).
  { rewrite F, S. apply in_or_app. right. left. reflexivity. }
  apply filter_In in I. exact I.
Qed.

End Resources.

(** X12.  [_select_optimal_size] returns the first of the cheapest sizes
    that are offered in the region, have at least 1000 MB of memory and a
    price: the sizes before it among those cost more, the sizes after it do
    not cost less.  It raises [ConfigurationError] exactly when no size
    qualifies. *)
Theorem optimal_size_is_first_cheapest (region : Region.t) (sizes : list Size.t) :
  match _select_optimal_size region sizes with
  | Ok size =>
      exists before after p,
        filter (size_qualifies region) sizes = before ++ size :: after /\
        Size.price_monthly size = Some p /\
        forallb (dearer_than p) before = true /\
        forallb (not_cheaper_than p) after = true
  | Raise e =>
      e = ConfigurationError /\ filter (size_qualifies region) sizes = []
  end.
Proof.
  unfold _select_optimal_size. fold (size_qualifies region).
  pose proof (filter_priced region sizes) as P.
  destruct (filter (size_qualifies region) sizes) as [| s rest]; [auto |].
  cbn [forallb] in P.
  destruct (Size.price_monthly s) as [p |] eqn:Hs; [| discriminate].
  destruct (cheapest_first rest s p Hs) as (pre & post & q & S & Q & D & C).
  exists pre, post, q. auto.
Qed.

(** X13.  [_init_do_resources] raises nothing but [ConfigurationError].
    It lists droplets, regions, sizes and images in this order and stops at
    the first of the last three listings that fails; a failed droplet
    listing does not stop it.  When it returns, the region has the configured
    slug, some image slug holds the configured image name and the size
    qualifies for the region. *)
Theorem startup_resources {E : Env} (cfg : Config.t) (s : St) :
  let outcome := _init_do_resources cfg s in
  (forall e, fst outcome = Raise e -> e = ConfigurationError) /\
  (forall images region size, fst outcome = Ok (images, region, size) ->
     Region.slug region = Config.region cfg /\
     existsb (slug_contains (Config.image_name cfg)) images = true /\
     size_qualifies region size = true /\
     trace (snd outcome) = trace s ++ startup_calls) /\
  (exists k, (2 <= k <= 4)%nat /\
     trace (snd outcome) = trace s ++ firstn k startup_calls).
Proof.
  intros outcome. subst outcome. unfold _init_do_resources.
  rewrite run_try, run_bind.
  pose proof (DigitalOceanClient_get_droplets_forced s) as G.
  destruct G as (l & s0 & G & T0). rewrite G.
  unfold DigitalOceanClient.get_regions, DigitalOceanClient.get_sizes,
    DigitalOceanClient.get_images.
  rewrite run_bind, run_call.
  destruct (get_all_regions (world s0)) as [[regions | e1] w1]; cbn [fst snd].
  2:{ split; [intros e [= <-]; reflexivity |]. split; [discriminate |].
      exists 2%nat. cbn [trace firstn startup_calls]. rewrite T0, <- app_assoc.
      split; [lia | reflexivity]. }
  rewrite run_bind, run_call. cbn [world trace].
  destruct (get_all_sizes w1) as [[sizes | e2] w2]; cbn [fst snd].
  2:{ split; [intros e [= <-]; reflexivity |]. split; [discriminate |].
      exists 3%nat. cbn [trace firstn startup_calls]. rewrite T0, <- !app_assoc.
      split; [lia | reflexivity]. }
  rewrite run_bind, run_call. cbn [world trace].
  destruct (get_global_images w2) as [[images | e3] w3]; cbn [fst snd].
  2:{ split; [intros e [= <-]; reflexivity |]. split; [discriminate |].
      exists 4%nat. cbn [trace firstn startup_calls]. rewrite T0, <- !app_assoc.
      split; [lia | reflexivity]. }
  assert (T : trace s0 ++ [EvListRegions] ++ [EvListSizes] ++ [EvListImages]
              = trace s ++ startup_calls)
    by (rewrite T0, <- app_assoc; reflexivity).
  rewrite run_bind.
  pose proof (find_region_outcome regions (Config.region cfg)) as Fr.
  destruct (_find_region regions (Config.region cfg)) as [region | e4];
    cbn [lift ret raise fst snd trace].
  2:{ split; [intros e [= <-]; reflexivity |]. split; [discriminate |].
      exists 4%nat. cbn [firstn]. rewrite <- !app_assoc. split; [lia | exact T]. }
  rewrite run_bind. unfold _validate_image_availability.
  destruct (existsb (slug_contains (Config.image_name cfg)) images) eqn:V;
    cbn [lift ret raise fst snd trace].
  2:{ split; [intros e [= <-]; reflexivity |]. split; [discriminate |].
      exists 4%nat. cbn [firstn]. rewrite <- !app_assoc. split; [lia | exact T]. }
  rewrite run_bind.
  pose proof (select_size_outcome region sizes) as Sz.
  destruct (_select_optimal_size region sizes) as [size | e5];
    cbn [lift ret raise fst snd trace].
  2:{ split; [intros e [= <-]; reflexivity |]. split; [discriminate |].
      exists 4%nat. cbn [firstn]. rewrite <- !app_assoc. split; [lia | exact T]. }
  split; [discriminate |]. split.
  - intros i r z [= <- <- <-]. destruct Fr as [_ Fr]. destruct Sz as [_ Sz].
    rewrite <- !app_assoc. auto.
  - exists 4%nat. cbn [firstn]. rewrite <- !app_assoc. split; [lia | exact T].
Qed.

(** ** The status probe *)

Section Probe.
Context {E : Env}.

Lemma status_via_http_requests ip s :
  exists k, (1 <= k <= 3)%nat /\
    trace (snd (_get_status_via_http ip s)) = trace s ++ firstn k (status_requests ip).
Proof.
  unfold _get_status_via_http, http_get, status_requests.
  rewrite run_try, run_bind, run_call.
  destruct (requests_get _ 10 (world s)) as [[r1 | e1] w1]; cbn [fst snd].
  2:{ exists 1%nat. split; [lia |].
      destruct (is_RequestException e1); reflexivity. }
  destruct (negb (fst (fst r1) =? 200)).
  { exists 1%nat. split; [lia | reflexivity]. }
  rewrite run_bind, run_call. cbn [world trace].
  destruct (requests_get _ 5 w1) as [[r2 | e2] w2]; cbn [fst snd].
  2:{ exists 2%nat. split; [lia |].
      destruct (is_RequestException e2); cbn [ret raise snd trace firstn];
        rewrite <- app_assoc; reflexivity. }
  rewrite run_bind, run_call. cbn [world trace].
  destruct (requests_get _ 5 w2) as [[r3 | e3] w3]; cbn [fst snd].
  2:{ exists 3%nat. split; [lia |].
      destruct (is_RequestException e3); cbn [ret raise snd trace firstn];
        rewrite <- !app_assoc; reflexivity. }
  exists 3%nat. split; [lia |]. rewrite run_bind.
  destruct (fst (fst r3) =? 200).
  - destruct (snd r3) as [data | e]; cbn [ret raise snd trace firstn].
    + rewrite <- !app_assoc. reflexivity.
    + destruct (is_RequestException e); cbn [ret raise snd trace];
        rewrite <- !app_assoc; reflexivity.
  - cbn [ret snd trace firstn]. rewrite <- !app_assoc. reflexivity.
Qed.

End Probe.

(** X14.  [_get_node_status] never raises.  It sends at most the three
    status requests to the address of the droplet, in their order; for a
    droplet without address, or with an address that is not an IP address, it
    returns [None] and sends nothing; a status it returns is that of the
    address of the droplet. *)
Theorem node_status_probe {E : Env} (droplet : Droplet.t) (s : St) :
  let outcome := _get_node_status droplet s in
  (exists r, fst outcome = Ok r) /\
  (exists k, (k <= 3)%nat /\
     trace (snd outcome) = trace s ++ firstn k (status_requests (ip_text droplet))) /\
  (ip_missing droplet = true -> outcome = (Ok None, s)) /\
  (forall ip, Droplet.ip_address droplet = Some ip -> is_ip_address ip = false ->
     outcome = (Ok None, s)) /\
  (forall status, fst outcome = Ok (Some status) ->
     exists ip, Droplet.ip_address droplet = Some ip /\ is_ip_address ip = true /\
       (status = Unreachable ip \/
        exists tailscale_ip data, status = Reachable ip tailscale_ip data)).
Proof.
  intros outcome. subst outcome. unfold _get_node_status, ip_missing, ip_text.
  destruct (Droplet.ip_address droplet) as [ip |].
  2:{ cbn [ret fst snd]. split; [eexists; reflexivity |].
      split; [exists 0%nat; cbn; rewrite app_nil_r; split; [lia | reflexivity] |].
      split; [reflexivity |]. split; [discriminate |]. discriminate. }
  destruct (Config.falsy ip).
  { cbn [ret fst snd]. split; [eexists; reflexivity |].
    split; [exists 0%nat; cbn; rewrite app_nil_r; split; [lia | reflexivity] |].
    split; [reflexivity |]. split; [reflexivity |]. discriminate. }
  rewrite run_try, run_bind.
  destruct (is_ip_address ip) eqn:V; cbn [ret raise].
  2:{ cbn [ret fst snd]. split; [eexists; reflexivity |].
      split; [exists 0%nat; cbn; rewrite app_nil_r; split; [lia | reflexivity] |].
      split; [discriminate |]. split; [reflexivity |]. discriminate. }
  rewrite run_bind.
  destruct (status_via_http_requests ip s) as (k & Hk & T).
  destruct (_get_status_via_http ip s) as [[info | e] s1]; cbn [fst snd ret] in *.
  - split; [eexists; reflexivity |].
    split; [exists k; split; [lia | exact T] |].
    split; [discriminate |]. split; [intros ip' [= <-] H; congruence |].
    intros status [= <-]. exists ip. split; [reflexivity |]. split; [exact V |].
    destruct info as [| ts data]; eauto.
  - split; [eexists; reflexivity |].
    split; [exists k; split; [lia | exact T] |].
    split; [discriminate |]. split; [intros ip' [= <-] H; congruence |]. discriminate.
Qed.

(** ** The state file *)

Section Stable.
Context {E : Env}.

Lemma from_dict_valid data n :
  ExitNodeInfo.from_dict py_fromisoformat data = Ok n -> ExitNodeInfo.valid n = true.
Proof.
  unfold ExitNodeInfo.from_dict.
  repeat match goal with
         | |- match ?x with _ => _ end = _ -> _ => destruct x eqn:?; try discriminate
         end.
  intros [= <-]. unfold ExitNodeInfo.valid.
  cbn [ExitNodeInfo.created_at ExitNodeInfo.last_checked].
  rewrite (py_fromisoformat_valid _ _ Heqr6), (py_fromisoformat_valid _ _ Heqr8).
  reflexivity.
Qed.

Lemma traverse_valid items : forall nodes,
  traverse (ExitNodeInfo.from_dict py_fromisoformat) items = Ok nodes ->
  forallb ExitNodeInfo.valid nodes = true /\ List.length nodes = List.length items.
Proof.
  induction items as [| d items IH]; intros nodes; cbn [traverse].
  - intros [= <-]. auto.
  - destruct (ExitNodeInfo.from_dict py_fromisoformat d) as [n | e] eqn:F;
      [| discriminate].
    destruct (traverse (ExitNodeInfo.from_dict py_fromisoformat) items) as [ns | e];
      [| discriminate].
    intros [= <-]. destruct (IH ns eq_refl) as [V L].
    cbn [forallb List.length]. rewrite (from_dict_valid _ _ F), V, L. auto.
Qed.

End Stable.

(** X15.  Whatever [json.load] made of the state file, the list
    [_load_exit_nodes] builds from it holds valid timestamps only, and saved
    and loaded again it is the same list.  The list is empty or has one node
    for each item of the document: one item that cannot be converted empties
    it. *)
Theorem loaded_state_is_stable {E : Env} (loaded : result Json) :
  let nodes := decode_exit_nodes loaded in
  forallb ExitNodeInfo.valid nodes = true /\
  decode_exit_nodes (Ok (JArray (map ExitNodeInfo.to_dict nodes))) = nodes /\
  (nodes = [] \/
   exists data, loaded = Ok data /\ List.length nodes = List.length (iterate data)).
Proof.
  intros nodes.
  assert (V : forallb ExitNodeInfo.valid nodes = true /\
              (nodes = [] \/
               exists data, loaded = Ok data /\
                            List.length nodes = List.length (iterate data))).
  { subst nodes. unfold decode_exit_nodes. destruct loaded as [data | e]; [| auto].
    pose proof (traverse_valid (iterate data)) as T.
    destruct (traverse (ExitNodeInfo.from_dict py_fromisoformat) (iterate data))
      as [ns | e]; [| auto].
    destruct (T ns eq_refl) as [V L]. split; [exact V |]. right. eauto. }
  destruct V as [V L]. split; [exact V |]. split; [| exact L].
  apply decode_saved. exact V.
Qed.

(** ** A placeholder the builder does not know *)

Section Unknown.
Context {E : Env}.
Variable kwargs : list (string * string).

Lemma format_after_known before rest :
  known_pieces kwargs before = true ->
  format_from kwargs None (template_text (before ++ rest)) =
  match format_from kwargs None (template_text rest) with
  | Ok out => Ok (substitute kwargs before ++ out)%string
  | Raise e => Raise e
  end.
Proof.
  induction before as [| p before IH]; intros H.
  - cbn [app substitute String.append]. destruct (format_from kwargs None (template_text rest)); reflexivity.
  - cbn [known_pieces forallb] in H. apply andb_prop in H. destruct H as [Hp H].
    specialize (IH H). destruct p as [c | name]; cbn [app template_text substitute].
    + destruct (Ascii.eqb_spec c "{") as [-> | Ho].
      * cbn [format_from Ascii.eqb Bool.eqb]. rewrite IH.
        destruct (format_from kwargs None (template_text rest)); reflexivity.
      * destruct (Ascii.eqb_spec c "}") as [-> | Hc].
        -- cbn [format_from Ascii.eqb Bool.eqb]. rewrite IH.
           destruct (format_from kwargs None (template_text rest)); reflexivity.
        -- cbn [format_from].
           destruct (Ascii.eqb_spec c "{"); [contradiction |].
           destruct (Ascii.eqb_spec c "}"); [contradiction |].
           rewrite IH. destruct (format_from kwargs None (template_text rest)); reflexivity.
    + apply andb_prop in Hp. destruct Hp as [Hn Hl].
      destruct (plain_name_head name Hn) as (c & r & -> & Hc).
      cbn [String.append]. rewrite (format_open kwargs c _ Hc).
      change (String c (r ++ String "}" (template_text (before ++ rest)))%string)
        with ((String c r) ++ String "}" (template_text (before ++ rest)))%string.
      unfold plain_name in Hn. apply andb_prop in Hn. destruct Hn as [Hchars Hdig].
      rewrite (format_field kwargs (String c r) "" _ Hchars).
      cbn [String.append]. unfold field_value.
      apply negb_true_iff in Hdig. rewrite Hdig.
      destruct (lookup (String c r) kwargs) as [v |]; [| discriminate].
      rewrite IH. destruct (format_from kwargs None (template_text rest)); [| reflexivity].
      rewrite append_assoc. reflexivity.
Qed.

Lemma format_unknown name rest :
  plain_name name = true -> lookup name kwargs = None ->
  format_from kwargs None (template_text (Placeholder name :: rest)) = Raise KeyError.
Proof.
  intros Hn Hl. cbn [template_text].
  destruct (plain_name_head name Hn) as (c & r & -> & Hc).
  cbn [String.append]. rewrite (format_open kwargs c _ Hc).
  change (String c (r ++ String "}" (template_text rest))%string)
    with ((String c r) ++ String "}" (template_text rest))%string.
  unfold plain_name in Hn. apply andb_prop in Hn. destruct Hn as [Hchars Hdig].
  rewrite (format_field kwargs (String c r) "" _ Hchars).
  cbn [String.append]. unfold field_value.
  apply negb_true_iff in Hdig. rewrite Hdig, Hl. reflexivity.
Qed.

End Unknown.

(** X16.  A plain placeholder that is none of the three names the
    builder passes makes [generate_tailscale_script] raise [KeyError], when
    the wrapper up to it is literal text and known placeholders. *)
Theorem unknown_placeholder_raises_key_error {E : Env}
    (self : CloudInitScriptGenerator.t) (ts_authkey login_server : string)
    (setup_script_content : string) (before : list Piece) (name : string)
    (rest : list Piece) (s : St) (w1 w2 : World) :
  let kwargs := [ ("ts_authkey", ts_authkey);
                  ("login_server", login_server);
                  ("setup_script_content", setup_script_content) ] in
  read_text (CloudInitScriptGenerator.setup_script_path self) (world s)
    = (Ok setup_script_content, w1) ->
  read_text (CloudInitScriptGenerator.cloud_init_wrapper_path self) w1
    = (Ok (template_text (before ++ Placeholder name :: rest)), w2) ->
  known_pieces kwargs before = true ->
  plain_name name = true ->
  lookup name kwargs = None ->
  fst (CloudInitScriptGenerator.generate_tailscale_script self ts_authkey login_server s)
    = Raise KeyError.
Proof.
  intros kwargs R1 R2 K Hn Hl.
  unfold CloudInitScriptGenerator.generate_tailscale_script.
  rewrite run_bind, run_call, R1. cbn [fst snd].
  rewrite run_bind, run_call. cbn [world]. rewrite R2. cbn [fst snd].
  fold kwargs. unfold format.
  rewrite (format_after_known kwargs before _ K), (format_unknown kwargs name rest Hn Hl).
  reflexivity.
Qed.

(** X16, witness: a wrapper with the shell variable [HOME] in single
    braces. *)
Lemma unknown_placeholder_raises_key_error_witness :
  read_text (CloudInitScriptGenerator.cloud_init_wrapper_path generator)
            (world unescaped_wrapper)
    = (Ok (template_text ([Text "H"; Text "="; Text "$"] ++ [Placeholder "HOME"])),
       world unescaped_wrapper) /\
  fst (CloudInitScriptGenerator.generate_tailscale_script generator "tskey-123"
         "https://controlplane.tailscale.com" unescaped_wrapper) = Raise KeyError.
Proof.
  split; [reflexivity |].
  apply (unknown_placeholder_raises_key_error generator "tskey-123"
           "https://controlplane.tailscale.com" "echo setup"
           [Text "H"; Text "="; Text "$"] "HOME" [] unescaped_wrapper
           (world unescaped_wrapper) (world unescaped_wrapper)); reflexivity.
Defined.

(** ** Cleanup *)

Section Idle.
Context {E : Env}.

Lemma cleanup_nodes_idle nodes s :
  filter is_failed nodes = [] -> cleanup_nodes nodes s = (Ok [], s).
Proof.
  induction nodes as [| n nodes IH]; [reflexivity |].
  cbn [filter cleanup_nodes]. destruct (is_failed n); [discriminate | exact IH].
Qed.

Lemma cleanup_idle s :
  filter is_failed (exit_nodes s) = [] -> _cleanup_failed_nodes s = (Ok tt, s).
Proof.
  intros H. unfold _cleanup_failed_nodes. rewrite run_bind. unfold get_exit_nodes at 1.
  rewrite run_bind, (cleanup_nodes_idle _ _ H). reflexivity.
Qed.

Lemma filter_failed_kept (l : list ExitNodeInfo.t) :
  filter is_failed (filter (fun n => negb (is_failed n)) l) = [].
Proof.
  induction l as [| n l IH]; [reflexivity |].
  cbn [filter]. destruct (is_failed n) eqn:Fn; cbn [negb filter]; [exact IH |].
  rewrite Fn. exact IH.
Qed.

End Idle.

(** X17.  [_cleanup_failed_nodes] with no tracked node unhealthy or in
    error does nothing at all, so a second cleanup right after a first
    changes nothing. *)
Theorem cleanup_is_idempotent {E : Env} (s : St) :
  (filter is_failed (exit_nodes s) = [] -> _cleanup_failed_nodes s = (Ok tt, s)) /\
  exists s1,
    _cleanup_failed_nodes s = (Ok tt, s1) /\
    _cleanup_failed_nodes s1 = (Ok tt, s1).
Proof.
  split; [apply cleanup_idle |].
  destruct (cleanup_spec s) as (s1 & segs & R1 & N1 & _).
  exists s1. split; [exact R1 |].
  apply cleanup_idle. rewrite N1. apply filter_failed_kept.
Qed.

(** ** Startup *)

(** X18.  When one of the three counts of the environment is not an
    integer, [Config.from_env] raises [ValueError], whatever the other
    settings are, and [main] exits with status 1 having done nothing. *)
Theorem malformed_count_stops_startup {E : Env} (fuel : nat) (s : St) :
  py_int (getenv_default "TARGET_EXIT_NODES" "1") = None \/
  py_int (getenv_default "MAX_EXIT_NODES" "3") = None \/
  py_int (getenv_default "HEALTH_CHECK_INTERVAL" "300") = None ->
  from_env = Raise ValueError /\
  main fuel s = (Ok (Exited 1 ValueError), s).
Proof.
  intros H.
  assert (F : from_env = Raise ValueError).
  { unfold from_env.
    destruct (py_int (getenv_default "TARGET_EXIT_NODES" "1")); [| reflexivity].
    destruct (py_int (getenv_default "MAX_EXIT_NODES" "3")); [| reflexivity].
    destruct (py_int (getenv_default "HEALTH_CHECK_INTERVAL" "300")); [| reflexivity].
    destruct H as [H | [H | H]]; discriminate H. }
  split; [exact F |].
  unfold main. rewrite run_try, run_bind, F. reflexivity.
Qed.

(** X18, witness: [TARGET_EXIT_NODES=two]. *)
Lemma malformed_count_stops_startup_witness :
  @py_int (env malformed_target)
     (@getenv_default (env malformed_target) "TARGET_EXIT_NODES" "1") = None /\
  @main (env malformed_target) 5 (start malformed_target quiet [])
    = (Ok (Exited 1 ValueError), start malformed_target quiet []).
Proof.
  split; [reflexivity |].
  apply (@malformed_count_stops_startup (env malformed_target) 5
           (start malformed_target quiet []) (or_introl eq_refl)).
Defined.

(** X19.  When the configuration is accepted, logging is set up and one
    of the two template files is missing, [main] exits with status 1 on
    [FileNotFoundError] before any call to the provider, with the tracked
    list untouched. *)
Theorem missing_template_stops_startup {E : Env} (fuel : nat) (s : St)
    (cfg : Config.t) (w1 : World) :
  let dir := CloudInitScriptGenerator.resolve_shells_path None in
  let setup_found :=
    path_exists (CloudInitScriptGenerator.join dir "tailscale-exit-node-setup.bash") w1 in
  let wrapper_found :=
    path_exists (CloudInitScriptGenerator.join dir "cloud-init-wrapper.bash")
                (snd setup_found) in
  from_env = Ok cfg ->
  logging_setup (Config.log_level cfg) (world s) = (Ok tt, w1) ->
  fst setup_found = false \/ fst wrapper_found = false ->
  exists evs s',
    main fuel s = (Ok (Exited 1 FileNotFoundError), s') /\
    trace s' = trace s ++ evs /\
    filter is_provider_call evs = [] /\
    exit_nodes s' = exit_nodes s.
Proof.
  intros dir setup_found wrapper_found F L H.
  unfold main. rewrite run_try, run_bind, F. cbn [lift ret].
  rewrite run_bind, run_call, L. cbn [fst snd].
  rewrite run_bind. unfold __init__. rewrite run_bind. unfold set_cache at 1.
  cbv beta iota. rewrite run_bind.
  unfold CloudInitScriptGenerator.__init__.
  cbn [CloudInitScriptGenerator.setup_script_path
       CloudInitScriptGenerator.cloud_init_wrapper_path].
  fold dir. rewrite run_bind. unfold CloudInitScriptGenerator.exists_ at 1.
  rewrite run_call. cbn [world trace fst snd].
  fold setup_found.
  destruct setup_found as [b1 w2] eqn:S1. cbn [fst snd] in *.
  destruct b1; cbn [negb raise ret].
  - destruct H as [H | H]; [discriminate |].
    rewrite run_bind. unfold CloudInitScriptGenerator.exists_ at 1.
    rewrite run_call. cbn [world trace fst snd].
    subst wrapper_found. cbn [snd] in H.
    destruct (path_exists _ w2) as [b2 w3]. cbn [fst] in H. subst b2.
    cbn [fst snd negb raise ret].
    eexists _, _. split; [reflexivity |]. cbn [trace exit_nodes].
    rewrite <- !app_assoc. split; [reflexivity |]. split; reflexivity.
  - eexists _, _. split; [reflexivity |]. cbn [trace exit_nodes].
    rewrite <- !app_assoc. split; [reflexivity |]. split; reflexivity.
Qed.

(** X19, witness: both secrets set and no file in place. *)
Lemma missing_template_stops_startup_witness :
  @from_env (env secrets_only) <> Raise ConfigurationError /\
  exists s', @main (env secrets_only) 5 (start secrets_only no_files [])
             = (Ok (Exited 1 FileNotFoundError), s').
Proof.
  split; [discriminate |].
  destruct (@missing_template_stops_startup (env secrets_only) 5
              (start secrets_only no_files []) (manager 1 3).(config) no_files
              eq_refl eq_refl (or_introl eq_refl)) as (evs & s' & R & _).
  exists s'. exact R.
Defined.

(** ** The loop of [run] *)

Section Loop.
Context {E : Env}.

Lemma interruptible_sleep_outcome n : forall s,
  exists k s',
    (k <= n)%nat /\
    interruptible_sleep n s = (Ok tt, s') /\
    trace s' = trace s ++ repeat (EvSleep 1) k /\
    exit_nodes s' = exit_nodes s /\
    (k < n -> exists w, fst (shutdown_requested w) = true)%nat.
Proof.
  induction n as [| n IH]; intros s; cbn [interruptible_sleep].
  - exists 0%nat, s. cbn. rewrite app_nil_r. repeat split; try lia.
  - rewrite run_bind, run_observe.
    destruct (fst (shutdown_requested (world s))) eqn:Fl.
    + exists 0%nat. eexists. cbn [ret repeat trace exit_nodes]. rewrite app_nil_r.
      repeat split; try lia. intros _. eauto.
    + rewrite run_bind. unfold sleep at 1. cbv beta iota.
      set (s1 := mkSt _ _ _ _ _).
      destruct (IH s1) as (k & s' & Hk & R & T & N & W).
      exists (S k), s'. rewrite R. subst s1. cbn [trace exit_nodes] in *.
      repeat split; try assumption; try lia.
      * rewrite T, <- app_assoc. reflexivity.
      * intros Hlt. apply W. lia.
Qed.

End Loop.

(** X20.  A turn of the loop of [run]: with the shutdown flag set the
    loop ends at once; otherwise the cycle returns, the process sleeps at most
    [health_check_interval] times one second, leaving the tracked list as the
    cycle left it, and the loop goes on: the handler of the loop, with its
    sleep of sixty seconds, is not entered. *)
Theorem run_turn {E : Env} (self : t) (turns : nat) (s : St) :
  let flag := shutdown_requested (world s) in
  let s0 := mkSt (snd flag) (trace s) (exit_nodes s) (droplets_cache s) (cache_time s) in
  (fst flag = true -> run self (S turns) s = (Ok true, s0)) /\
  (fst flag = false ->
     exists s1 s2 slept,
       run_cycle self s0 = (Ok tt, s1) /\
       (slept <= Z.to_nat (Config.health_check_interval (config self)))%nat /\
       trace s2 = trace s1 ++ repeat (EvSleep 1) slept /\
       exit_nodes s2 = exit_nodes s1 /\
       run self (S turns) s = run self turns s2).
Proof.
  intros flag s0. cbn [run]. rewrite run_bind, run_observe. fold flag. fold s0.
  split; intros Fl; rewrite Fl; [reflexivity |].
  destruct (run_cycle_spec self s0) as (sp & s1 & _ & _ & R & _).
  destruct (interruptible_sleep_outcome
              (Z.to_nat (Config.health_check_interval (config self))) s1)
    as (k & s2 & Hk & R2 & T & N & _).
  exists s1, s2, k. split; [exact R |]. split; [exact Hk |].
  split; [exact T |]. split; [exact N |].
  rewrite run_bind, run_try, run_bind, R, R2. reflexivity.
Qed.

(** ** The constructor of the manager *)

Section Constructor.
Context {E : Env}.

Lemma generator_init_raises shells_path s e :
  fst (CloudInitScriptGenerator.__init__ shells_path s) = Raise e -> e = FileNotFoundError.
Proof.
  unfold CloudInitScriptGenerator.__init__, CloudInitScriptGenerator.exists_.
  rewrite run_bind, run_call.
  destruct (path_exists _ (world s)) as [b1 w1]. cbn [fst snd].
  destruct b1; cbn [negb raise fst]; [| congruence].
  rewrite run_bind, run_call. cbn [world].
  destruct (path_exists _ w1) as [b2 w2]. cbn [fst snd].
  destruct b2; cbn [negb raise ret fst]; congruence.
Qed.

Lemma init_resources_outcome cfg s :
  match fst (_init_do_resources cfg s) with
  | Ok (images, region, size) =>
      Region.slug region = Config.region cfg /\
      existsb (slug_contains (Config.image_name cfg)) images = true /\
      size_qualifies region size = true
  | Raise e => e = ConfigurationError
  end.
Proof.
  unfold _init_do_resources. rewrite run_try.
  destruct (bind _ _ s) as [[[[images region] size] | e] s1] eqn:R; [| reflexivity].
  cbn [fst].
  apply (f_equal fst) in R. cbn [fst] in R.
  apply bind_returned in R. destruct R as (l & s2 & _ & R).
  apply bind_returned in R. destruct R as (regions & s3 & _ & R).
  apply bind_returned in R. destruct R as (sizes & s4 & _ & R).
  apply bind_returned in R. destruct R as (imgs & s5 & _ & R).
  apply bind_returned in R. destruct R as (rg & s6 & Hr & R).
  apply bind_returned in R. destruct R as (u & s7 & Hv & R).
  apply bind_returned in R. destruct R as (sz & s8 & Hs & R).
  cbn in R. injection R as <- <- <-.
  pose proof (find_region_outcome regions (Config.region cfg)) as Fr.
  destruct (_find_region regions (Config.region cfg)) as [r | e]; [| discriminate].
  cbn in Hr. injection Hr as <- _.
  unfold _validate_image_availability in Hv.
  destruct (existsb (slug_contains (Config.image_name cfg)) imgs) eqn:V; [| discriminate].
  pose proof (select_size_outcome r sizes) as Sz.
  destruct (_select_optimal_size r sizes) as [z | e]; [| discriminate].
  cbn in Hs. injection Hs as <- _.
  destruct Fr as [_ Fr]. destruct Sz as [_ Sz]. auto.
Qed.

Lemma load_exit_nodes_outcome path s :
  exists nodes s', _load_exit_nodes path s = (Ok nodes, s') /\
    forallb ExitNodeInfo.valid nodes = true /\
    (nodes = [] \/ exists loaded, nodes = decode_exit_nodes loaded).
Proof.
  unfold _load_exit_nodes, CloudInitScriptGenerator.exists_.
  rewrite run_bind, run_call.
  destruct (path_exists path (world s)) as [b w1]. cbn [fst snd].
  destruct b.
  - rewrite run_call. cbn [world fst snd].
    eexists _, _. split; [reflexivity |].
    pose proof (traverse_valid) as T.
    split; [| right; eauto].
    unfold decode_exit_nodes. destruct (fst (json_load path w1)) as [data | e]; [| reflexivity].
    pose proof (traverse_valid (iterate data)) as V.
    destruct (traverse (ExitNodeInfo.from_dict py_fromisoformat) (iterate data))
      as [ns | e]; [| reflexivity].
    apply (V ns eq_refl).
  - eexists _, _. split; [reflexivity |]. auto.
Qed.

Lemma manager_init_outcome cfg s :
  match __init__ cfg s with
  | (Ok self, s') =>
      config self = cfg /\
      exit_nodes_file self = "exit_nodes.json" /\
      Region.slug (region self) = Config.region cfg /\
      existsb (slug_contains (Config.image_name cfg)) (images self) = true /\
      size_qualifies (region self) (size self) = true /\
      forallb ExitNodeInfo.valid (exit_nodes s') = true
  | (Raise e, _) => e = FileNotFoundError \/ e = ConfigurationError
  end.
Proof.
  unfold __init__.
  rewrite run_bind. unfold set_cache at 1. cbv beta iota. rewrite run_bind.
  pose proof (generator_init_raises None
                (mkSt (world s) (trace s) (exit_nodes s) None None)) as G.
  destruct (CloudInitScriptGenerator.__init__ None _) as [[g | e] s1]; cbn [fst] in G.
  2:{ left. apply G. reflexivity. }
  rewrite run_bind.
  pose proof (init_resources_outcome cfg s1) as R.
  destruct (_init_do_resources cfg s1) as [[[[imgs rg] sz] | e] s2]; cbn [fst] in R.
  2:{ right. exact R. }
  rewrite run_bind. cbn [fst snd exit_nodes_file].
  destruct (load_exit_nodes_outcome "exit_nodes.json" s2) as (nodes & s3 & L & V & _).
  rewrite L. rewrite run_bind. unfold set_exit_nodes at 1. cbv beta iota.
  cbn [ret fst snd exit_nodes config exit_nodes_file region images size].
  destruct R as (R1 & R2 & R3). auto 10.
Qed.

End Constructor.

(** X21.  The constructor of the manager raises nothing but
    [FileNotFoundError] and [ConfigurationError].  The manager it returns
    holds the configuration, the state file name [exit_nodes.json], a region
    with the configured slug, images of which one has a slug holding the
    configured name, and a size that qualifies for the region; the nodes it
    tracks have valid timestamps. *)
Theorem manager_constructor {E : Env} (cfg : Config.t) (s : St) :
  let outcome := __init__ cfg s in
  (forall e, fst outcome = Raise e -> e = FileNotFoundError \/ e = ConfigurationError) /\
  (forall self, fst outcome = Ok self ->
     config self = cfg /\
     exit_nodes_file self = "exit_nodes.json" /\
     Region.slug (region self) = Config.region cfg /\
     existsb (slug_contains (Config.image_name cfg)) (images self) = true /\
     size_qualifies (region self) (size self) = true /\
     forallb ExitNodeInfo.valid (exit_nodes (snd outcome)) = true).
Proof.
  intros outcome. subst outcome.
  pose proof (manager_init_outcome cfg s) as H.
  destruct (__init__ cfg s) as [[self | e] s']; cbn [fst snd].
  - split; [intros e He; discriminate He |]. intros self' [= <-]. exact H.
  - split; [intros e' [= <-]; exact H |]. intros self He. discriminate He.
Qed.

(** ** A batch of provisioning tasks *)

Section Batch.
Context {E : Env}.

Lemma provision_single_quiet self :
  emits (fun e => negb (is_sleep e || is_destroy e || is_http_get e || is_submit e))
        (_provision_single_node self).
Proof.
  intros s. rewrite provision_single_run. cbn [snd]. apply create_quiet.
Qed.

Lemma provision_single_one_create self : at_most is_create 1 (_provision_single_node self).
Proof.
  intros s. rewrite provision_single_run. cbn [snd]. apply create_one_create.
Qed.

Lemma collect_quiet self n :
  emits (fun e => negb (is_sleep e || is_destroy e || is_http_get e || is_submit e))
        (collect_results self n).
Proof.
  induction n as [| n IH]; cbn [collect_results]; [frames |].
  apply emits_bind; [| intros o; apply emits_bind; [exact IH | frames]].
  apply emits_try; [apply provision_single_quiet | frames].
Qed.

Lemma collect_creates self n : at_most is_create n (collect_results self n).
Proof.
  induction n as [| n IH]; cbn [collect_results]; [apply at_most_ret |].
  apply (at_most_more is_create (1 + (n + 0))); [lia |].
  apply (at_most_bind is_create 1 (n + 0)).
  - intros s. rewrite run_try, provision_single_run.
    destruct (create_one_create self s) as (evs & T & C). exists evs. auto.
  - intros o.
    apply (at_most_bind is_create n 0); [exact IH | intros rest; apply at_most_ret].
Qed.

(** No task brings a node back. *)
Lemma collect_nothing self n : forall s, fst (collect_results self n s) = Ok [].
Proof.
  induction n as [| n IH]; intros s; cbn [collect_results]; [reflexivity |].
  rewrite run_bind, run_try, provision_single_run, run_bind.
  specialize (IH (snd (_create_droplet self s))).
  destruct (collect_results self n _) as [[rest | e] s2]; cbn [fst] in IH; [| discriminate].
  injection IH as ->. reflexivity.
Qed.

Lemma filter_submits (kind : Event -> bool) (l : list nat) :
  (forall i, kind (EvSubmit i) = false) -> filter kind (map EvSubmit l) = [].
Proof.
  intros K. induction l as [| i l IH]; [reflexivity |].
  cbn [map filter]. rewrite K. exact IH.
Qed.

Lemma filter_submits_all (l : list nat) :
  filter is_submit (map EvSubmit l) = map EvSubmit l.
Proof.
  induction l as [| i l IH]; [reflexivity |].
  cbn [map filter is_submit]. rewrite IH. reflexivity.
Qed.

Lemma quiet_no_submit evs :
  forallb (fun e => negb (is_sleep e || is_destroy e || is_http_get e || is_submit e)) evs
    = true ->
  filter is_submit evs = [].
Proof.
  induction evs as [| ev evs IH]; [reflexivity |].
  cbn [forallb]. intros H. apply andb_prop in H. destruct H as [Hev H].
  cbn [filter]. destruct ev; cbn in Hev; try discriminate; cbn [is_submit]; auto.
Qed.

End Batch.

(** X22.  [_provision_nodes] raises [ValueError] for a count that is not
    positive, having done nothing.  For a positive count it returns and
    leaves the tracked list as it was, since no task brings a node back; it
    submits one task for each index below the count, makes at most [count]
    create calls, and probes and destroys nothing. *)
Theorem provision_nodes_outcome {E : Env} (self : t) (count : Z) (s : St) :
  (count <= 0 -> _provision_nodes self count s = (Raise ValueError, s)) /\
  (0 < count ->
     exists evs s',
       _provision_nodes self count s = (Ok tt, s') /\
       exit_nodes s' = exit_nodes s /\
       trace s' = trace s ++ evs /\
       filter is_submit evs = map EvSubmit (seq 0 (Z.to_nat count)) /\
       (count_events is_create evs <= Z.to_nat count)%nat /\
       filter is_http_get evs = [] /\
       filter is_destroy evs = []).
Proof.
  split.
  - intros H. unfold _provision_nodes.
    destruct (Z.leb_spec count 0) as [_ | L]; [reflexivity | lia].
  - intros Hc. unfold _provision_nodes.
    destruct (Z.leb_spec count 0) as [L | _]; [lia |].
    rewrite run_bind, submit_all_spec.
    set (s1 := mkSt _ _ _ _ _).
    rewrite run_bind.
    pose proof (collect_nothing self (Z.to_nat count) s1) as Hn.
    pose proof (keeps_collect self (Z.to_nat count) s1) as Hk.
    destruct (adds_both _ _ _ (collect_creates self (Z.to_nat count))
                (adds_of_emits _ _ (collect_quiet self (Z.to_nat count))) s1)
      as (evs & Ht & Hcr & Hq).
    destruct (collect_results self (Z.to_nat count) s1) as [[nodes | e] s2];
      cbn [fst snd] in *; [| discriminate].
    injection Hn as ->. cbn [ret].
    exists (map EvSubmit (seq 0 (Z.to_nat count)) ++ evs), s2.
    split; [reflexivity |]. split; [exact Hk |].
    split; [rewrite Ht; subst s1; cbn [trace]; rewrite app_assoc; reflexivity |].
    pose proof (quiet_no_submit evs Hq) as Hnone.
    destruct (quiet_filters evs Hq) as (_ & Q2 & Q3 & _).
    rewrite !filter_app, count_events_app, filter_submits_all, Hnone, Q2, Q3, app_nil_r.
    rewrite (filter_submits is_http_get), (filter_submits is_destroy) by reflexivity.
    unfold count_events at 1. rewrite (filter_submits is_create) by reflexivity.
    repeat split. cbn [List.length]. lia.
Qed.

(** X23.  When the request to the marker endpoint raises a
    [RequestException], the handler of [_get_status_via_http] raises
    [TypeError] at its [return], after that one request; [_get_node_status],
    for a droplet with that address, catches it and returns [None]. *)
Theorem probe_timeout_gives_no_status {E : Env} (droplet : Droplet.t) (ip : string)
    (s : St) (e : exn) (w1 : World) :
  let after := mkSt w1 (trace s ++ [EvHttpGet (endpoint ip "setup-complete") 10])
                    (exit_nodes s) (droplets_cache s) (cache_time s) in
  Droplet.ip_address droplet = Some ip ->
  Config.falsy ip = false ->
  is_ip_address ip = true ->
  requests_get (endpoint ip "setup-complete") 10 (world s) = (Raise e, w1) ->
  is_RequestException e = true ->
  _get_status_via_http ip s = (Raise TypeError, after) /\
  _get_node_status droplet s = (Ok None, after).
Proof.
  intros after A F V G R.
  assert (H : _get_status_via_http ip s = (Raise TypeError, after)).
  { unfold _get_status_via_http, http_get, matmul_decorator.
    rewrite run_try, run_bind, run_call, G. cbn [fst snd]. rewrite R. reflexivity. }
  split; [exact H |].
  unfold _get_node_status. rewrite A, F, run_try, run_bind, V. cbn [ret].
  rewrite run_bind, H. reflexivity.
Qed.

(** X23, witness: droplet 7 at 203.0.113.7, where nothing answers. *)
Lemma probe_timeout_gives_no_status_witness :
  requests_get (endpoint "203.0.113.7" "setup-complete") 10 (world provisioning)
    = (Raise RequestException, world provisioning) /\
  fst (_get_status_via_http "203.0.113.7" provisioning) = Raise TypeError /\
  fst (_get_node_status (droplet 7 "active") provisioning) = Ok None.
Proof.
  split; [reflexivity |].
  destruct (probe_timeout_gives_no_status (droplet 7 "active") "203.0.113.7" provisioning
              RequestException (world provisioning)
              eq_refl eq_refl eq_refl eq_refl eq_refl) as [H1 H2].
  rewrite H1, H2. split; reflexivity.
Defined.
